(** * structs/field.go: the [Field] accessor over Go's reflection

    The development has two layers.

    - [Module reflect] is a model of the part of Go's runtime and of
      package [reflect] that [field.go] calls: kinds, run-time types,
      values, addressable storage, [reflect.Value] with its read-only
      and addressability flags, [ValueOf], [Indirect], [Zero],
      [DeepEqual] and the [Value] methods [Kind], [Elem], [CanSet],
      [Interface], [Set], [SetInt], [SetUint], [SetFloat], [Field],
      [FieldByName].  Types are finite trees built from the predeclared
      boolean, numeric and string types, defined (named) types, pointers,
      structs and the empty interface; [int] and [uint] are 64 bits wide.
    - The rest of the file is [field.go] itself, method by method, over
      that model, followed by the properties of the accessor. *)

From Stdlib Require Import ZArith String List Bool Lia SpecFloat.
From stdpp Require Import base list.

Set Warnings "-register-all".

Local Open Scope Z_scope.
Local Open Scope string_scope.

Module reflect.

(** ** Kinds and types *)

Inductive Kind : Set :=
| Invalid | Bool | Int | Int8 | Int16 | Int32 | Int64
| Uint | Uint8 | Uint16 | Uint32 | Uint64 | Uintptr
| Float32 | Float64 | Complex64 | Complex128
| Array | Chan | Func | Interface | Map | Ptr | Slice
| String | Struct | UnsafePointer.

Definition Kind_eqb (a b : Kind) : bool :=
  match a, b with
  | Invalid, Invalid | Bool, Bool | Int, Int | Int8, Int8 | Int16, Int16
  | Int32, Int32 | Int64, Int64 | Uint, Uint | Uint8, Uint8
  | Uint16, Uint16 | Uint32, Uint32 | Uint64, Uint64 | Uintptr, Uintptr
  | Float32, Float32 | Float64, Float64 | Complex64, Complex64
  | Complex128, Complex128 | Array, Array | Chan, Chan | Func, Func
  | Interface, Interface | Map, Map | Ptr, Ptr | Slice, Slice
  | String, String | Struct, Struct | UnsafePointer, UnsafePointer => true
  | _, _ => false
  end.

(** The predeclared types of the model. *)
Inductive basic : Set :=
| T_bool | T_int | T_int8 | T_int16 | T_int32 | T_int64
| T_uint | T_uint8 | T_uint16 | T_uint32 | T_uint64 | T_uintptr
| T_float32 | T_float64 | T_string.

Definition basic_kind (b : basic) : Kind :=
  match b with
  | T_bool => Bool | T_int => Int | T_int8 => Int8 | T_int16 => Int16
  | T_int32 => Int32 | T_int64 => Int64 | T_uint => Uint | T_uint8 => Uint8
  | T_uint16 => Uint16 | T_uint32 => Uint32 | T_uint64 => Uint64
  | T_uintptr => Uintptr | T_float32 => Float32 | T_float64 => Float64
  | T_string => String
  end.

Definition basic_eqb (a b : basic) : bool :=
  Kind_eqb (basic_kind a) (basic_kind b).

(** One declared field of a struct type, as the run-time type records it:
    [sf_pkgPath] is empty exactly for exported names. *)
Record structField (T : Type) : Type := mkStructField {
  sf_name : string;
  sf_pkgPath : string;
  sf_typ : T;
  sf_tag : string;
  sf_embedded : bool
}.
Arguments mkStructField {T}.
Arguments sf_name {T}.
Arguments sf_pkgPath {T}.
Arguments sf_typ {T}.
Arguments sf_tag {T}.
Arguments sf_embedded {T}.

Inductive type : Type :=
| TBasic (b : basic)
| TNamed (name : string) (under : type)
| TPtr (elem : type)
| TStruct (fields : list (structField type))
| TInterface.

(** [reflect.StructField]. *)
Record StructField : Type := mkSF {
  Name : string;
  PkgPath : string;
  Type_ : type;
  Tag : string;
  Index : list nat;
  Anonymous : bool
}.

Fixpoint underlying (t : type) : type :=
  match t with
  | TNamed _ u => underlying u
  | _ => t
  end.

Definition Type_Kind (t : type) : Kind :=
  match underlying t with
  | TBasic b => basic_kind b
  | TPtr _ => Ptr
  | TStruct _ => Struct
  | TInterface => Interface
  | TNamed _ _ => Invalid
  end.

(** [t.Elem()] for a pointer type. *)
Definition Type_Elem (t : type) : option type :=
  match underlying t with
  | TPtr e => Some e
  | _ => None
  end.

Definition Type_fields (t : type) : list (structField type) :=
  match underlying t with
  | TStruct fs => fs
  | _ => []
  end.

(** Predeclared and defined types have a name; type literals have none. *)
Definition Type_HasName (t : type) : bool :=
  match t with
  | TBasic _ | TNamed _ _ => true
  | _ => false
  end.

(** Type identity ([T == V] on run-time type descriptors). *)
Fixpoint type_eqb (t u : type) {struct t} : bool :=
  match t, u with
  | TBasic a, TBasic b => basic_eqb a b
  | TNamed n t', TNamed m u' => String.eqb n m && type_eqb t' u'
  | TPtr t', TPtr u' => type_eqb t' u'
  | TStruct fs, TStruct gs =>
      (fix fields_eqb (fs gs : list (structField type)) {struct fs} : bool :=
         match fs, gs with
         | [], [] => true
         | f :: fs', g :: gs' =>
             match f, g with
             | mkStructField fn fp ft fg fe, mkStructField gn gp gt gg ge =>
                 String.eqb fn gn && String.eqb fp gp && type_eqb ft gt
                 && String.eqb fg gg && Bool.eqb fe ge
             end && fields_eqb fs' gs'
         | _, _ => false
         end) fs gs
  | TInterface, TInterface => true
  | _, _ => false
  end.

(** [directlyAssignable]: identical types, or the same kind with one side
    unnamed and identical underlying types.  Tags take part in the identity
    of struct types, as in [haveIdenticalUnderlyingType] with [cmpTags]. *)
Definition directlyAssignable (T V : type) : bool :=
  type_eqb T V
  || (negb (Type_HasName T && Type_HasName V)
      && Kind_eqb (Type_Kind T) (Type_Kind V)
      && type_eqb (underlying T) (underlying V)).

(** [implements]: the only interface type of the model has no methods, so
    every type implements it. *)
Definition implements (T V : type) : bool :=
  Kind_eqb (Type_Kind T) Interface.

(** ** Values and storage *)

(** An address names a variable (a cell of the store) and a path of field
    indices into it. *)
Definition addr : Type := nat * list nat.

Inductive val : Type :=
| VBool (b : bool)
| VInt (z : Z)
| VUint (z : Z)
| VFloat (f : spec_float)
| VString (s : string)
| VPtr (p : option addr)
| VStruct (fs : list val)
| VIface (e : option (type * val)).

(** A Go [interface{}] value: nil, or a dynamic type with its value.  In
    Go the dynamic type of an interface value is never an interface type:
    a value held in a variable of interface type is passed on with its own
    dynamic type.  The type below does not enforce it; the properties that
    depend on it ask for a dynamic type that is not of interface kind. *)
Definition any : Type := option (type * val).

Abbreviation store := (list val).

Fixpoint val_at (v : val) (path : list nat) : option val :=
  match path with
  | [] => Some v
  | i :: path' =>
      match v with
      | VStruct fs =>
          match fs !! i with
          | Some w => val_at w path'
          | None => None
          end
      | _ => None
      end
  end.

Fixpoint val_set (v : val) (path : list nat) (w : val) : option val :=
  match path with
  | [] => Some w
  | i :: path' =>
      match v with
      | VStruct fs =>
          match fs !! i with
          | Some x =>
              match val_set x path' w with
              | Some x' => Some (VStruct (<[i := x']> fs))
              | None => None
              end
          | None => None
          end
      | _ => None
      end
  end.

Definition load (st : store) (a : addr) : option val :=
  match st !! fst a with
  | Some v => val_at v (snd a)
  | None => None
  end.

Definition store_at (st : store) (a : addr) (w : val) : option store :=
  match st !! fst a with
  | Some v =>
      match val_set v (snd a) w with
      | Some v' => Some (<[fst a := v']> st)
      | None => None
      end
  | None => None
  end.

Definition float_zero : spec_float := S754_zero false.

(** [float32(x)] for a 64-bit float [x]: round to 24 bits of precision. *)
Definition to_float32 (x : spec_float) : spec_float :=
  match x with
  | S754_finite s m e => binary_round 24 128 s m e
  | _ => x
  end.

Definition zero_basic (b : basic) : val :=
  match b with
  | T_bool => VBool false
  | T_int | T_int8 | T_int16 | T_int32 | T_int64 => VInt 0
  | T_uint | T_uint8 | T_uint16 | T_uint32 | T_uint64 | T_uintptr => VUint 0
  | T_float32 | T_float64 => VFloat float_zero
  | T_string => VString ""
  end.

(** The zero value of a type. *)
Fixpoint zero_val (t : type) : val :=
  match t with
  | TBasic b => zero_basic b
  | TNamed _ u => zero_val u
  | TPtr _ => VPtr None
  | TStruct fs =>
      VStruct
        ((fix zero_fields (fs : list (structField type)) : list val :=
            match fs with
            | [] => []
            | mkStructField _ _ ft _ _ :: fs' => zero_val ft :: zero_fields fs'
            end) fs)
  | TInterface => VIface None
  end.

(** ** Outcomes of a call

    A call returns a result and a store, panics, or is [Stuck] when the
    store does not hold what the type of a value promises (which no Go
    program reaches). *)

Inductive panic : Type :=
| ValueError (method : string) (k : Kind)
| NotAssignable (context : string) (V T : type)
| PanicString (msg : string).

Inductive result (A : Type) : Type :=
| Ret (a : A) (st : store)
| Panic (p : panic)
| Stuck.
Arguments Ret {A}.
Arguments Panic {A}.
Arguments Stuck {A}.

Definition M (A : Type) : Type := store -> result A.

Definition ret {A} (a : A) : M A := fun st => Ret a st.
Definition throw {A} (p : panic) : M A := fun _ => Panic p.
Definition stuck {A} : M A := fun _ => Stuck.
Definition bind {A B} (m : M A) (k : A -> M B) : M B :=
  fun st =>
    match m st with
    | Ret a st' => k a st'
    | Panic p => Panic p
    | Stuck => Stuck
    end.
Definition get_store : M store := fun st => Ret st st.
Definition put_store (st' : store) : M unit := fun _ => Ret tt st'.
Definition lift_option {A} (o : option A) : M A :=
  match o with
  | Some a => ret a
  | None => stuck
  end.

Definition is_Some_b {A} (o : option A) : bool :=
  match o with
  | Some _ => true
  | None => false
  end.

Notation "'let*' x ':=' m 'in' k" := (bind m (fun x => k))
  (at level 10, x name, m at level 100, k at level 200).
Notation "m ';;' k" := (bind m (fun _ => k))
  (at level 100, k at level 200, right associativity).

(** ** [reflect.Value] *)

(** Where a [Value] finds its data: a private copy, or a place in the
    store.  The second is Go's [flagAddr]. *)
Inductive data : Type :=
| Direct (v : val)
| Indir (a : addr).

Record flag : Type := mkFlag {
  flagStickyRO : bool;
  flagEmbedRO : bool
}.

Definition flagRO (fl : flag) : bool := flagStickyRO fl || flagEmbedRO fl.
Definition flag0 : flag := mkFlag false false.

Inductive Value : Type :=
| Value0
| MkValue (typ : type) (ptr : data) (fl : flag).

Definition flagAddr (v : Value) : bool :=
  match v with
  | MkValue _ (Indir _) _ => true
  | _ => false
  end.

Definition Value_ro (v : Value) : bool :=
  match v with
  | MkValue _ _ fl => flagRO fl
  | Value0 => false
  end.

Definition Value_IsValid (v : Value) : bool :=
  match v with
  | Value0 => false
  | MkValue _ _ _ => true
  end.

Definition Value_Kind (v : Value) : Kind :=
  match v with
  | Value0 => Invalid
  | MkValue t _ _ => Type_Kind t
  end.

Definition Value_CanSet (v : Value) : bool :=
  flagAddr v && negb (Value_ro v).

Definition Value_Type (v : Value) : M type :=
  match v with
  | Value0 => throw (ValueError "reflect.Value.Type" Invalid)
  | MkValue t _ _ => ret t
  end.

(** The Go value behind a [Value]. *)
Definition contents (d : data) : M val :=
  match d with
  | Direct x => ret x
  | Indir a => let* st := get_store in lift_option (load st a)
  end.

Definition write (d : data) (w : val) : M unit :=
  match d with
  | Direct _ => stuck
  | Indir a =>
      let* st := get_store in
      let* st' := lift_option (store_at st a w) in
      put_store st'
  end.

(** [reflect.ValueOf(i)]: the zero [Value] for nil, and otherwise a
    [Value] of the dynamic type of [i], neither addressable nor
    read-only. *)
Definition ValueOf (i : any) : Value :=
  match i with
  | None => Value0
  | Some (t, x) => MkValue t (Direct x) flag0
  end.

Definition Zero (t : type) : Value := MkValue t (Direct (zero_val t)) flag0.

Definition Value_IsNil (v : Value) : M bool :=
  match v with
  | Value0 => throw (ValueError "reflect.Value.IsNil" Invalid)
  | MkValue t d _ =>
      match Type_Kind t with
      | Ptr =>
          let* x := contents d in
          match x with
          | VPtr p => ret (negb (is_Some_b p))
          | _ => stuck
          end
      | Interface =>
          let* x := contents d in
          match x with
          | VIface e => ret (negb (is_Some_b e))
          | _ => stuck
          end
      | k => throw (ValueError "reflect.Value.IsNil" k)
      end
  end.

Definition Value_Elem (v : Value) : M Value :=
  match v with
  | Value0 => throw (ValueError "reflect.Value.Elem" Invalid)
  | MkValue t d fl =>
      match Type_Kind t with
      | Interface =>
          let* x := contents d in
          match x with
          | VIface e =>
              match ValueOf e with
              | Value0 => ret Value0
              | MkValue t' d' _ => ret (MkValue t' d' (mkFlag (flagRO fl) false))
              end
          | _ => stuck
          end
      | Ptr =>
          let* x := contents d in
          match x with
          | VPtr None => ret Value0
          | VPtr (Some a) =>
              let* e := lift_option (Type_Elem t) in
              ret (MkValue e (Indir a) fl)
          | _ => stuck
          end
      | k => throw (ValueError "reflect.Value.Elem" k)
      end
  end.

Definition Indirect (v : Value) : M Value :=
  if negb (Kind_eqb (Value_Kind v) Ptr) then ret v else Value_Elem v.

Definition valueInterface (v : Value) (safe : bool) : M any :=
  match v with
  | Value0 => throw (ValueError "reflect.Value.Interface" Invalid)
  | MkValue t d fl =>
      if safe && flagRO fl then
        throw (PanicString
          "reflect.Value.Interface: cannot return value obtained from unexported field or method")
      else if Kind_eqb (Type_Kind t) Interface then
        let* x := contents d in
        match x with
        | VIface e => ret e
        | _ => stuck
        end
      else
        let* x := contents d in
        ret (Some (t, x))
  end.

Definition Value_Interface (v : Value) : M any := valueInterface v true.

Definition mustBeAssignable (method : string) (v : Value) : M unit :=
  match v with
  | Value0 => throw (ValueError method Invalid)
  | MkValue _ _ fl =>
      if flagRO fl then
        throw (PanicString (String.append "reflect: " (String.append method
          " using value obtained using unexported field")))
      else if negb (flagAddr v) then
        throw (PanicString (String.append "reflect: " (String.append method
          " using unaddressable value")))
      else ret tt
  end.

Definition mustBeExported (method : string) (v : Value) : M unit :=
  match v with
  | Value0 => throw (ValueError method Invalid)
  | MkValue _ _ fl =>
      if flagRO fl then
        throw (PanicString (String.append "reflect: " (String.append method
          " using value obtained using unexported field")))
      else ret tt
  end.

Definition mustBe (method : string) (expected : Kind) (v : Value) : M unit :=
  if Kind_eqb (Value_Kind v) expected then ret tt
  else throw (ValueError method (Value_Kind v)).

(** [v.assignTo(context, dst, target)]: the Go value of type [dst] that
    assigning [v] stores. *)
Definition assignTo (v : Value) (context : string) (dst : type) : M val :=
  match v with
  | Value0 => stuck
  | MkValue t d _ =>
      if directlyAssignable dst t then contents d
      else if implements dst t then
        let* isnil :=
          (if Kind_eqb (Type_Kind t) Interface then Value_IsNil v
           else ret false) in
        if isnil then ret (VIface None)
        else
          let* x := valueInterface v false in
          ret (VIface x)
      else throw (NotAssignable context t dst)
  end.

Definition Value_Set (v x : Value) : M unit :=
  mustBeAssignable "reflect.Value.Set" v ;;
  mustBeExported "reflect.Value.Set" x ;;
  match v with
  | Value0 => stuck
  | MkValue t d _ =>
      let* w := assignTo x "reflect.Set" t in
      write d w
  end.

Definition wrap_signed (bits : Z) (x : Z) : Z :=
  (x + 2 ^ (bits - 1)) mod 2 ^ bits - 2 ^ (bits - 1).

Definition wrap_unsigned (bits : Z) (x : Z) : Z := x mod 2 ^ bits.

Definition Value_SetInt (v : Value) (x : Z) : M unit :=
  mustBeAssignable "reflect.Value.SetInt" v ;;
  match v with
  | Value0 => stuck
  | MkValue t d _ =>
      match Type_Kind t with
      | Int => write d (VInt (wrap_signed 64 x))
      | Int8 => write d (VInt (wrap_signed 8 x))
      | Int16 => write d (VInt (wrap_signed 16 x))
      | Int32 => write d (VInt (wrap_signed 32 x))
      | Int64 => write d (VInt (wrap_signed 64 x))
      | k => throw (ValueError "reflect.Value.SetInt" k)
      end
  end.

Definition Value_SetUint (v : Value) (x : Z) : M unit :=
  mustBeAssignable "reflect.Value.SetUint" v ;;
  match v with
  | Value0 => stuck
  | MkValue t d _ =>
      match Type_Kind t with
      | Uint => write d (VUint (wrap_unsigned 64 x))
      | Uintptr => write d (VUint (wrap_unsigned 64 x))
      | Uint8 => write d (VUint (wrap_unsigned 8 x))
      | Uint16 => write d (VUint (wrap_unsigned 16 x))
      | Uint32 => write d (VUint (wrap_unsigned 32 x))
      | Uint64 => write d (VUint (wrap_unsigned 64 x))
      | k => throw (ValueError "reflect.Value.SetUint" k)
      end
  end.

Definition Value_SetFloat (v : Value) (x : spec_float) : M unit :=
  mustBeAssignable "reflect.Value.SetFloat" v ;;
  match v with
  | Value0 => stuck
  | MkValue t d _ =>
      match Type_Kind t with
      | Float32 => write d (VFloat (to_float32 x))
      | Float64 => write d (VFloat x)
      | k => throw (ValueError "reflect.Value.SetFloat" k)
      end
  end.

(** ** Struct fields *)

Definition toStructField (f : structField type) (index : list nat)
  : StructField :=
  mkSF (sf_name f) (sf_pkgPath f) (sf_typ f) (sf_tag f) index
       (sf_embedded f).

(** The struct-field name is exported iff its package path is empty. *)
Definition sf_exported (f : structField type) : bool :=
  String.eqb (sf_pkgPath f) "".

Definition Type_NumField (t : type) : M nat :=
  if Kind_eqb (Type_Kind t) Struct then ret (length (Type_fields t))
  else throw (PanicString "reflect: NumField of non-struct type").

Definition Type_Field (t : type) (i : nat) : M StructField :=
  if Kind_eqb (Type_Kind t) Struct then
    match Type_fields t !! i with
    | Some f => ret (toStructField f [i])
    | None => throw (PanicString "reflect: Field index out of bounds")
    end
  else throw (PanicString "reflect: Field of non-struct type").

(** The flags of [v.Field(i)]: the sticky read-only flag is inherited, the
    embedded one is not; an unexported field adds one of the two. *)
Definition fieldFlag (fl : flag) (f : structField type) : flag :=
  if sf_exported f then mkFlag (flagStickyRO fl) false
  else if sf_embedded f then mkFlag (flagStickyRO fl) true
  else mkFlag true false.


Definition Value_Field (v : Value) (i : nat) : M Value :=
  match v with
  | Value0 => throw (ValueError "reflect.Value.Field" Invalid)
  | MkValue t d fl =>
      if negb (Kind_eqb (Type_Kind t) Struct) then
        throw (ValueError "reflect.Value.Field" (Type_Kind t))
      else
        match Type_fields t !! i with
        | None => throw (PanicString "reflect: Field index out of range")
        | Some f =>
            let fl' := fieldFlag fl f in
            match d with
            | Indir a => ret (MkValue (sf_typ f) (Indir (fst a, app (snd a) [i])) fl')
            | Direct x =>
                match x with
                | VStruct xs =>
                    let* w := lift_option (xs !! i) in
                    ret (MkValue (sf_typ f) (Direct w) fl')
                | _ => stuck
                end
            end
        end
  end.

Definition Value_NumField (v : Value) : M nat :=
  mustBe "reflect.Value.NumField" Struct v ;;
  match v with
  | Value0 => stuck
  | MkValue t _ _ => ret (length (Type_fields t))
  end.

(** The loop of [v.FieldByIndex(index)]; [first] is [i == 0]. *)
Fixpoint fieldByIndexLoop (first : bool) (index : list nat) (v : Value)
  : M Value :=
  match index with
  | [] => ret v
  | x :: index' =>
      let* v :=
        (if first then ret v
         else
           match v with
           | Value0 => ret v
           | MkValue t _ _ =>
               if Kind_eqb (Type_Kind t) Ptr
                  && match Type_Elem t with
                     | Some e => Kind_eqb (Type_Kind e) Struct
                     | None => false
                     end
               then
                 let* isnil := Value_IsNil v in
                 if isnil then
                   throw (PanicString
                     "reflect: indirection through nil pointer to embedded struct")
                 else Value_Elem v
               else ret v
           end) in
      let* v := Value_Field v x in
      fieldByIndexLoop false index' v
  end.

Definition Value_FieldByIndex (v : Value) (index : list nat) : M Value :=
  match index with
  | [i] => Value_Field v i
  | _ =>
      mustBe "reflect.Value.FieldByIndex" Struct v ;;
      fieldByIndexLoop true index v
  end.

(** *** [FieldByName] on struct types

    First the quick pass over the fields of the struct itself, then the
    breadth-first search of [FieldByNameFunc] through embedded structs. *)

Record fieldScan : Type := mkScan {
  scan_typ : type;
  scan_index : list nat
}.

Record scanState : Type := mkScanState {
  sc_result : option StructField;
  sc_next : list fieldScan;
  sc_nextCount : list (type * nat)
}.

Definition count_get (m : list (type * nat)) (t : type) : nat :=
  match find (fun p => type_eqb (fst p) t) m with
  | Some p => snd p
  | None => O
  end.

(** For an embedded field of type [T] or [*T], the type [T]. *)
Definition embedded_typ (f : structField type) : option type :=
  if sf_embedded f then
    if Kind_eqb (Type_Kind (sf_typ f)) Ptr then Type_Elem (sf_typ f)
    else Some (sf_typ f)
  else None.

(** The fields [fs] of [t], from index [i] on.  [None]: the name appeared
    more than once at this depth. *)
Fixpoint scanFields (name : string) (index : list nat) (cnt : nat)
    (i : nat) (fs : list (structField type)) (s : scanState)
  : option scanState :=
  match fs with
  | [] => Some s
  | f :: fs' =>
      if String.eqb (sf_name f) name then
        if (1 <? cnt)%nat || is_Some_b (sc_result s) then None
        else
          scanFields name index cnt (S i) fs'
            (mkScanState (Some (toStructField f (app index [i])))
                         (sc_next s) (sc_nextCount s))
      else
        match embedded_typ f with
        | None => scanFields name index cnt (S i) fs' s
        | Some ntyp =>
            if is_Some_b (sc_result s)
               || negb (Kind_eqb (Type_Kind ntyp) Struct)
            then scanFields name index cnt (S i) fs' s
            else if (0 <? count_get (sc_nextCount s) ntyp)%nat then
              scanFields name index cnt (S i) fs'
                (mkScanState (sc_result s) (sc_next s)
                             ((ntyp, 2%nat) :: sc_nextCount s))
            else
              scanFields name index cnt (S i) fs'
                (mkScanState (sc_result s)
                   (app (sc_next s) [mkScan ntyp (app index [i])])
                   ((ntyp, if (1 <? cnt)%nat then 2%nat else 1%nat)
                      :: sc_nextCount s))
        end
  end.

(** All the struct types queued at one depth. *)
Fixpoint scanLevel (name : string) (count : list (type * nat))
    (visited : list type) (current : list fieldScan) (s : scanState)
  : option (scanState * list type) :=
  match current with
  | [] => Some (s, visited)
  | sc :: rest =>
      let t := scan_typ sc in
      if existsb (type_eqb t) visited then
        scanLevel name count visited rest s
      else
        match scanFields name (scan_index sc) (count_get count t) 0
                (Type_fields t) s with
        | None => None
        | Some s' => scanLevel name count (t :: visited) rest s'
        end
  end.

(** Depth by depth; the outer [None] is running out of [fuel]. *)
Fixpoint fieldByNameLoop (fuel : nat) (name : string)
    (next : list fieldScan) (nextCount : list (type * nat))
    (visited : list type) : option (option StructField) :=
  match next with
  | [] => Some None
  | _ :: _ =>
      match fuel with
      | O => None
      | S fuel' =>
          match scanLevel name nextCount visited next
                  (mkScanState None [] []) with
          | None => Some None
          | Some (s, visited') =>
              match sc_result s with
              | Some r => Some (Some r)
              | None =>
                  fieldByNameLoop fuel' name (sc_next s) (sc_nextCount s)
                    visited'
              end
          end
      end
  end.

(** Nesting depth of a type: a bound on the depth of the search. *)
Fixpoint type_depth (t : type) : nat :=
  match t with
  | TBasic _ => O
  | TNamed _ u => type_depth u
  | TPtr e => S (type_depth e)
  | TStruct fs =>
      S ((fix fields_depth (fs : list (structField type)) : nat :=
            match fs with
            | [] => O
            | mkStructField _ _ ft _ _ :: fs' =>
                Nat.max (type_depth ft) (fields_depth fs')
            end) fs)
  | TInterface => O
  end.

(** The quick pass: the first field of the struct itself with that name,
    and whether the struct embeds anything. *)
Fixpoint quickFieldByName (name : string) (i : nat)
    (fs : list (structField type)) (hasEmbeds : bool)
  : option StructField + bool :=
  match fs with
  | [] => inr hasEmbeds
  | f :: fs' =>
      if String.eqb (sf_name f) name then inl (Some (toStructField f [i]))
      else quickFieldByName name (S i) fs' (hasEmbeds || sf_embedded f)
  end.

Definition structType_FieldByName (t : type) (name : string)
  : option (option StructField) :=
  match (if String.eqb name "" then inr false
         else quickFieldByName name 0 (Type_fields t) false) with
  | inl r => Some r
  | inr false => Some None
  | inr true =>
      fieldByNameLoop (S (type_depth t)) name [mkScan t []] [] []
  end.

Definition Type_FieldByName (t : type) (name : string)
  : M (option StructField) :=
  if Kind_eqb (Type_Kind t) Struct then
    lift_option (structType_FieldByName t name)
  else throw (PanicString "reflect: FieldByName of non-struct type").

Definition Value_FieldByName (v : Value) (name : string) : M Value :=
  mustBe "reflect.Value.FieldByName" Struct v ;;
  match v with
  | Value0 => stuck
  | MkValue t _ _ =>
      let* r := lift_option (structType_FieldByName t name) in
      match r with
      | Some f => Value_FieldByIndex v (Index f)
      | None => ret Value0
      end
  end.

(** ** [reflect.DeepEqual] *)

Definition scalar_eq (x y : val) : option bool :=
  match x, y with
  | VBool a, VBool b => Some (Bool.eqb a b)
  | VInt a, VInt b => Some (Z.eqb a b)
  | VUint a, VUint b => Some (Z.eqb a b)
  | VFloat a, VFloat b => Some (SFeqb a b)
  | VString a, VString b => Some (String.eqb a b)
  | _, _ => None
  end.

Definition Value_pointer (v : Value) : M (option addr) :=
  match v with
  | Value0 => stuck
  | MkValue _ d _ =>
      let* x := contents d in
      match x with
      | VPtr p => ret p
      | _ => stuck
      end
  end.

Definition ptr_eqb (p q : option addr) : bool := bool_decide (p = q).

(** The loop of [deepValueEqual] over the fields of two structs. *)
Fixpoint deepFieldsEqual (eq : Value -> Value -> M bool) (v1 v2 : Value)
    (idx : list nat) : M bool :=
  match idx with
  | [] => ret true
  | i :: idx' =>
      let* f1 := Value_Field v1 i in
      let* f2 := Value_Field v2 i in
      let* b := eq f1 f2 in
      if b then deepFieldsEqual eq v1 v2 idx' else ret false
  end.

(** [deepValueEqual].  The original cuts cycles with a map of visited
    pointer pairs; here a traversal that is still running after [fuel]
    nested calls is [Stuck]. *)
Fixpoint deepValueEqual (fuel : nat) (v1 v2 : Value) : M bool :=
  match fuel with
  | O => stuck
  | S fuel' =>
      if negb (Value_IsValid v1) || negb (Value_IsValid v2) then
        ret (Bool.eqb (Value_IsValid v1) (Value_IsValid v2))
      else
        let* t1 := Value_Type v1 in
        let* t2 := Value_Type v2 in
        if negb (type_eqb t1 t2) then ret false
        else
          match Value_Kind v1 with
          | Interface =>
              let* n1 := Value_IsNil v1 in
              let* n2 := Value_IsNil v2 in
              if n1 || n2 then ret (Bool.eqb n1 n2)
              else
                let* e1 := Value_Elem v1 in
                let* e2 := Value_Elem v2 in
                deepValueEqual fuel' e1 e2
          | Ptr =>
              let* p1 := Value_pointer v1 in
              let* p2 := Value_pointer v2 in
              if ptr_eqb p1 p2 then ret true
              else
                let* e1 := Value_Elem v1 in
                let* e2 := Value_Elem v2 in
                deepValueEqual fuel' e1 e2
          | Struct =>
              let* n := Value_NumField v1 in
              deepFieldsEqual (deepValueEqual fuel') v1 v2 (seq 0 n)
          | Bool | Int | Int8 | Int16 | Int32 | Int64
          | Uint | Uint8 | Uint16 | Uint32 | Uint64 | Uintptr
          | Float32 | Float64 | String =>
              match v1, v2 with
              | MkValue _ d1 _, MkValue _ d2 _ =>
                  let* x := contents d1 in
                  let* y := contents d2 in
                  lift_option (scalar_eq x y)
              | _, _ => stuck
              end
          | _ => stuck
          end
  end.

Definition DeepEqual (fuel : nat) (x y : any) : M bool :=
  match x, y with
  | Some (t1, _), Some (t2, _) =>
      if negb (type_eqb t1 t2) then ret false
      else deepValueEqual fuel (ValueOf x) (ValueOf y)
  | None, None => ret true
  | _, _ => ret false
  end.

(** [Kind.String()]. *)
Definition Kind_String (k : Kind) : string :=
  match k with
  | Invalid => "invalid" | Bool => "bool" | Int => "int" | Int8 => "int8"
  | Int16 => "int16" | Int32 => "int32" | Int64 => "int64"
  | Uint => "uint" | Uint8 => "uint8" | Uint16 => "uint16"
  | Uint32 => "uint32" | Uint64 => "uint64" | Uintptr => "uintptr"
  | Float32 => "float32" | Float64 => "float64"
  | Complex64 => "complex64" | Complex128 => "complex128"
  | Array => "array" | Chan => "chan" | Func => "func"
  | Interface => "interface" | Map => "map" | Ptr => "ptr"
  | Slice => "slice" | String => "string" | Struct => "struct"
  | UnsafePointer => "unsafe.Pointer"
  end.

(** ** Well-typed storage *)

Definition has_basic_type (b : basic) (v : val) : bool :=
  match zero_basic b, v with
  | VBool _, VBool _ | VInt _, VInt _ | VUint _, VUint _
  | VFloat _, VFloat _ | VString _, VString _ => true
  | _, _ => false
  end.

(** The value [v] has the shape of type [t]. *)
Fixpoint has_type (t : type) (v : val) {struct t} : bool :=
  match t with
  | TBasic b => has_basic_type b v
  | TNamed _ u => has_type u v
  | TPtr _ => match v with VPtr _ => true | _ => false end
  | TStruct fs =>
      match v with
      | VStruct vs =>
          (fix fields_have_type (fs : list (structField type))
               (vs : list val) {struct fs} : bool :=
             match fs, vs with
             | [], [] => true
             | mkStructField _ _ ft _ _ :: fs', x :: vs' =>
                 has_type ft x && fields_have_type fs' vs'
             | _, _ => false
             end) fs vs
      | _ => false
      end
  | TInterface => match v with VIface _ => true | _ => false end
  end.

End reflect.

Notation "'let*' x ':=' m 'in' k" := (reflect.bind m (fun x => k))
  (at level 10, x name, m at level 100, k at level 200).
Notation "m ';;' k" := (reflect.bind m (fun _ => k))
  (at level 100, k at level 200, right associativity).

(** * Package [structs]: [field.go] *)

Inductive error : Type := errorString (s : string).

Definition errors_New (text : string) : error := errorString text.

Definition errNotExported : error := errors_New "field is not exported".
Definition errNotSettable : error := errors_New "field is not settable".

(** [fmt.Errorf("wrong kind: %s want: %s", given.Kind(), v.Kind())]. *)
Definition fmt_Errorf_wrong_kind (given want : reflect.Kind) : error :=
  errorString
    (String.append "wrong kind: "
       (String.append (reflect.Kind_String given)
          (String.append " want: " (reflect.Kind_String want)))).

Record Field : Type := mkField {
  value : reflect.Value;
  field : reflect.StructField
}.

(** Modelled from the spec: [strctVal] is called by [FieldOk] and is not
    part of [field.go].  Section 4.4 requires the field's current value to
    be record-shaped and makes anything else fatal. *)
Definition strctVal (s : reflect.any) : reflect.M reflect.Value :=
  let v := reflect.ValueOf s in
  if negb (reflect.Kind_eqb (reflect.Value_Kind v) reflect.Struct) then
    reflect.throw (reflect.PanicString "not struct")
  else reflect.ret v.

(** Modelled from the spec: the loop of [getFields], which is not part of
    [field.go]: the accessors of the fields listed in [idx], in that
    order. *)
Fixpoint fieldsAt (t : reflect.type) (v : reflect.Value) (idx : list nat)
  : reflect.M (list Field) :=
  match idx with
  | [] => reflect.ret []
  | i :: idx' =>
      let* fd := reflect.Type_Field t i in
      let* fv := reflect.Value_Field v i in
      let* rest := fieldsAt t v idx' in
      reflect.ret (mkField fv fd :: rest)
  end.

(** Modelled from the spec: [getFields] is called by [Fields] and is not
    part of [field.go].  Section 4.4: one [Field] per declared sub-field,
    in declaration order; fatal if the value is not exported or not
    record-shaped. *)
Definition getFields (v : reflect.Value) : reflect.M (list Field) :=
  if negb (reflect.Value_IsValid v) || reflect.Value_ro v then
    reflect.throw (reflect.PanicString "not exported")
  else
    let* t := reflect.Value_Type v in
    let* n := reflect.Type_NumField t in
    fieldsAt t v (seq 0 n).

Section FieldMethods.

(** [reflect.StructTag.Get]: the host's tag decoding, which [field.go]
    passes through. *)
Variable StructTag_Get : string -> string -> string.

Definition Tag (f : Field) (key : string) : string :=
  StructTag_Get (reflect.Tag (field f)) key.

Definition Value (f : Field) : reflect.M reflect.any :=
  reflect.Value_Interface (value f).

Definition IsEmbedded (f : Field) : bool :=
  reflect.Anonymous (field f).

Definition IsExported (f : Field) : bool :=
  String.eqb (reflect.PkgPath (field f)) "".

Definition IsZero (fuel : nat) (f : Field) : reflect.M bool :=
  let* t := reflect.Value_Type (value f) in
  let* zero := reflect.Value_Interface (reflect.Zero t) in
  let* current := Value f in
  reflect.DeepEqual fuel current zero.

Definition Name (f : Field) : string :=
  reflect.Name (field f).

Definition Kind (f : Field) : reflect.Kind :=
  reflect.Value_Kind (value f).

Definition checkForSet (f : Field) (v : reflect.Value) (val : reflect.any)
  : reflect.M (reflect.Value * option error) :=
  let given := reflect.Value0 in
  if negb (IsExported f) then reflect.ret (given, Some errNotExported)
  else if negb (reflect.Value_CanSet v) then
    reflect.ret (given, Some errNotSettable)
  else
    let given := reflect.ValueOf val in
    let* given :=
      (if reflect.Kind_eqb (reflect.Value_Kind given) reflect.Ptr
       then reflect.Value_Elem given
       else reflect.ret given) in
    reflect.ret (given, None).

Definition Set_ (f : Field) (val : reflect.any) : reflect.M (option error) :=
  let* v := reflect.Indirect (value f) in
  let* r := checkForSet f v val in
  match snd r with
  | Some err => reflect.ret (Some err)
  | None =>
      let given := fst r in
      if negb (reflect.Kind_eqb (reflect.Value_Kind v)
                 (reflect.Value_Kind given))
      then
        reflect.ret
          (Some (fmt_Errorf_wrong_kind (reflect.Value_Kind given)
                   (reflect.Value_Kind v)))
      else
        reflect.Value_Set v given ;;
        reflect.ret None
  end.

Definition SetInt (f : Field) (val : Z) : reflect.M (option error) :=
  let* v := reflect.Indirect (value f) in
  let* r :=
    checkForSet f v
      (Some (reflect.TBasic reflect.T_int64,
             reflect.VInt (reflect.wrap_signed 64 val))) in
  match snd r with
  | Some err => reflect.ret (Some err)
  | None =>
      reflect.Value_SetInt v val ;;
      reflect.ret None
  end.

Definition SetFloat (f : Field) (val : spec_float)
  : reflect.M (option error) :=
  let* v := reflect.Indirect (value f) in
  let* r :=
    checkForSet f v
      (Some (reflect.TBasic reflect.T_float64, reflect.VFloat val)) in
  match snd r with
  | Some err => reflect.ret (Some err)
  | None =>
      reflect.Value_SetFloat v val ;;
      reflect.ret None
  end.

Definition SetUint (f : Field) (val : Z) : reflect.M (option error) :=
  let* v := reflect.Indirect (value f) in
  let* r :=
    checkForSet f v
      (Some (reflect.TBasic reflect.T_uint64,
             reflect.VUint (reflect.wrap_unsigned 64 val))) in
  match snd r with
  | Some err => reflect.ret (Some err)
  | None =>
      reflect.Value_SetUint v val ;;
      reflect.ret None
  end.

Definition Fields (f : Field) : reflect.M (list Field) :=
  getFields (value f).

Definition FieldOk (f : Field) (name : string)
  : reflect.M (option Field * bool) :=
  let* i := reflect.Value_Interface (value f) in
  let* v := strctVal i in
  let* t := reflect.Value_Type v in
  let* r := reflect.Type_FieldByName t name in
  match r with
  | None => reflect.ret (None, false)
  | Some fd =>
      let* fv := reflect.Value_FieldByName v name in
      reflect.ret (Some (mkField fv fd), true)
  end.

Definition Field_ (f : Field) (name : string) : reflect.M (option Field) :=
  let* r := FieldOk f name in
  if negb (snd r) then reflect.throw (reflect.PanicString "field not found")
  else reflect.ret (fst r).

(** ** Sequences of calls on one accessor

    The methods have pointer receivers; [call] returns the receiver as the
    method leaves it, next to what the method returns. *)

Inductive op : Type :=
| OpTag (key : string)
| OpName
| OpKind
| OpIsEmbedded
| OpIsExported
| OpValue
| OpIsZero
| OpSet (val : reflect.any)
| OpSetInt (val : Z)
| OpSetFloat (val : spec_float)
| OpSetUint (val : Z)
| OpFields
| OpField (name : string)
| OpFieldOk (name : string).

Inductive output : Type :=
| OutString (s : string)
| OutKind (k : reflect.Kind)
| OutBool (b : bool)
| OutAny (a : reflect.any)
| OutError (e : option error)
| OutFields (fs : list Field)
| OutField (g : option Field)
| OutFieldOk (g : option Field) (found : bool).

Definition is_setter (o : op) : bool :=
  match o with
  | OpSet _ | OpSetInt _ | OpSetFloat _ | OpSetUint _ => true
  | _ => false
  end.

Definition call (fuel : nat) (o : op) (f : Field)
  : reflect.M (Field * output) :=
  match o with
  | OpTag key => reflect.ret (f, OutString (Tag f key))
  | OpName => reflect.ret (f, OutString (Name f))
  | OpKind => reflect.ret (f, OutKind (Kind f))
  | OpIsEmbedded => reflect.ret (f, OutBool (IsEmbedded f))
  | OpIsExported => reflect.ret (f, OutBool (IsExported f))
  | OpValue => let* a := Value f in reflect.ret (f, OutAny a)
  | OpIsZero => let* b := IsZero fuel f in reflect.ret (f, OutBool b)
  | OpSet val => let* e := Set_ f val in reflect.ret (f, OutError e)
  | OpSetInt val => let* e := SetInt f val in reflect.ret (f, OutError e)
  | OpSetFloat val => let* e := SetFloat f val in reflect.ret (f, OutError e)
  | OpSetUint val => let* e := SetUint f val in reflect.ret (f, OutError e)
  | OpFields => let* fs := Fields f in reflect.ret (f, OutFields fs)
  | OpField name => let* g := Field_ f name in reflect.ret (f, OutField g)
  | OpFieldOk name =>
      let* r := FieldOk f name in
      reflect.ret (f, OutFieldOk (fst r) (snd r))
  end.

Fixpoint run (fuel : nat) (ops : list op) (f : Field)
  : reflect.M (Field * list output) :=
  match ops with
  | [] => reflect.ret (f, [])
  | o :: ops' =>
      let* r := call fuel o f in
      let* r' := run fuel ops' (fst r) in
      reflect.ret (fst r', snd r :: snd r')
  end.

End FieldMethods.

(** * Vocabulary of the properties *)

(** The field's storage is readable and holds a value of the field's
    type. *)
Definition Field_stored (f : Field) (st : reflect.store) : bool :=
  match value f with
  | reflect.Value0 => false
  | reflect.MkValue t d _ =>
      match reflect.contents d st with
      | reflect.Ret x _ => reflect.has_type t x
      | _ => false
      end
  end.

(** An accessor as [FieldOk] builds it: stored, and read-only exactly when
    its descriptor says it is not exported. *)
Definition Field_wf (f : Field) (st : reflect.store) : bool :=
  Field_stored f st
  && Bool.eqb (reflect.Value_ro (value f)) (negb (IsExported f)).

(** The storage the setters write, [reflect.Indirect(f.value)], can be
    set. *)
Definition settable (f : Field) (st : reflect.store) : bool :=
  match reflect.Indirect (value f) st with
  | reflect.Ret v _ => reflect.Value_CanSet v
  | _ => false
  end.

(** The static type of the storage the setters write: the field's own
    type, or the pointee type of a pointer field. *)
Definition written_type (f : Field) : option reflect.type :=
  match value f with
  | reflect.Value0 => None
  | reflect.MkValue t _ _ =>
      if reflect.Kind_eqb (reflect.Type_Kind t) reflect.Ptr
      then reflect.Type_Elem t
      else Some t
  end.

Definition written_kind (f : Field) : reflect.Kind :=
  match written_type f with
  | Some t => reflect.Type_Kind t
  | None => reflect.Invalid
  end.

(** The dynamic kind of an incoming value after one level of
    dereferencing. *)
Definition dereferenced_kind (val : reflect.any) : reflect.Kind :=
  match val with
  | None => reflect.Invalid
  | Some (t, x) =>
      if reflect.Kind_eqb (reflect.Type_Kind t) reflect.Ptr then
        match x, reflect.Type_Elem t with
        | reflect.VPtr (Some _), Some e => reflect.Type_Kind e
        | _, _ => reflect.Invalid
        end
      else reflect.Type_Kind t
  end.

Definition any_wf (val : reflect.any) : bool :=
  match val with
  | None => true
  | Some (t, x) => reflect.has_type t x
  end.

Definition signed_kind (k : reflect.Kind) : bool :=
  match k with
  | reflect.Int | reflect.Int8 | reflect.Int16 | reflect.Int32
  | reflect.Int64 => true
  | _ => false
  end.

Definition unsigned_kind (k : reflect.Kind) : bool :=
  match k with
  | reflect.Uint | reflect.Uint8 | reflect.Uint16 | reflect.Uint32
  | reflect.Uint64 | reflect.Uintptr => true
  | _ => false
  end.

Definition float_kind (k : reflect.Kind) : bool :=
  match k with
  | reflect.Float32 | reflect.Float64 => true
  | _ => false
  end.

(** Deep structural equality of Go values, as section 4.2 words it: value
    equality, recursive over sub-fields, through pointers and inside
    interfaces. *)
Inductive deep_eq (st : reflect.store) : reflect.val -> reflect.val -> Prop :=
| deq_bool b : deep_eq st (reflect.VBool b) (reflect.VBool b)
| deq_int z : deep_eq st (reflect.VInt z) (reflect.VInt z)
| deq_uint z : deep_eq st (reflect.VUint z) (reflect.VUint z)
| deq_float x y :
    SFeqb x y = true -> deep_eq st (reflect.VFloat x) (reflect.VFloat y)
| deq_string s : deep_eq st (reflect.VString s) (reflect.VString s)
| deq_ptr_same p : deep_eq st (reflect.VPtr p) (reflect.VPtr p)
| deq_ptr_deep a b x y :
    reflect.load st a = Some x -> reflect.load st b = Some y ->
    deep_eq st x y ->
    deep_eq st (reflect.VPtr (Some a)) (reflect.VPtr (Some b))
| deq_struct xs ys :
    Forall2 (deep_eq st) xs ys ->
    deep_eq st (reflect.VStruct xs) (reflect.VStruct ys)
| deq_iface_nil : deep_eq st (reflect.VIface None) (reflect.VIface None)
| deq_iface t x y :
    deep_eq st x y ->
    deep_eq st (reflect.VIface (Some (t, x))) (reflect.VIface (Some (t, y))).

Definition any_deep_eq (st : reflect.store) (x y : reflect.any) : Prop :=
  match x, y with
  | None, None => True
  | Some (t1, v1), Some (t2, v2) => t1 = t2 /\ deep_eq st v1 v2
  | _, _ => False
  end.

(** The zero value of a type, boxed as [interface{}]: nil for an interface
    type. *)
Definition zero_any (t : reflect.type) : reflect.any :=
  if reflect.Kind_eqb (reflect.Type_Kind t) reflect.Interface then None
  else Some (t, reflect.zero_val t).

(** [name] is declared neither by the struct type [t] nor, recursively, by
    the type of any of its embedded fields. *)
Fixpoint name_absent (name : string) (t : reflect.type) : bool :=
  match t with
  | reflect.TBasic _ => true
  | reflect.TNamed _ u => name_absent name u
  | reflect.TPtr e => name_absent name e
  | reflect.TStruct fs =>
      (fix fields_absent (fs : list (reflect.structField reflect.type))
         : bool :=
         match fs with
         | [] => true
         | reflect.mkStructField fn _ ft _ fe :: fs' =>
             negb (String.eqb fn name)
             && (if fe then name_absent name ft else true)
             && fields_absent fs'
         end) fs
  | reflect.TInterface => true
  end.

Definition declared_names (t : reflect.type) : list string :=
  map reflect.sf_name (reflect.Type_fields t).

(** One write into the storage the accessor refers to: the store changes
    at the address of [reflect.Indirect(f.value)] and nowhere else. *)
Definition referenced_write (f : Field) (st st' : reflect.store) : Prop :=
  exists t a fl w,
    reflect.Indirect (value f) st
      = reflect.Ret (reflect.MkValue t (reflect.Indir a) fl) st
    /\ reflect.store_at st a w = Some st'.

(** Any number of such writes. *)
Inductive written_through (f : Field)
  : reflect.store -> reflect.store -> Prop :=
| wt_refl st : written_through f st st
| wt_step st st1 st' :
    referenced_write f st st1 -> written_through f st1 st' ->
    written_through f st st'.

(** A call that, when it returns, returns the store it was given. *)
Definition reads_only {A} (m : reflect.M A) : Prop :=
  forall st a st', m st = reflect.Ret a st' -> st' = st.

(** * A running example

    [type Base struct{ ID int }], [type Group struct{ Base; Size int }],
    [type Linked struct{ *Base }], [type MyInt int] and

    [type Server struct { Name string `json:"name"`; Port int;
       enabled bool; Count *int; Level MyInt; Inner Group; Link Linked }]

    with one [Server] in cell 0 of the store, reached through a pointer, the
    [int] its [Count] points to in cell 1, and a variable of type [*int]
    in cell 2. *)
Module Example.

Definition int : reflect.type := reflect.TBasic reflect.T_int.
Definition str : reflect.type := reflect.TBasic reflect.T_string.
Definition boolean : reflect.type := reflect.TBasic reflect.T_bool.
Definition MyInt : reflect.type := reflect.TNamed "MyInt" int.

Definition Base : reflect.type :=
  reflect.TNamed "Base"
    (reflect.TStruct [reflect.mkStructField "ID" "" int "" false]).

Definition Group : reflect.type :=
  reflect.TNamed "Group"
    (reflect.TStruct
       [reflect.mkStructField "Base" "" Base "" true;
        reflect.mkStructField "Size" "" int "" false]).

Definition Linked : reflect.type :=
  reflect.TNamed "Linked"
    (reflect.TStruct
       [reflect.mkStructField "Base" "" (reflect.TPtr Base) "" true]).


Definition st0 : reflect.store :=
  [reflect.VStruct
     [reflect.VString "gopher"; reflect.VInt 80; reflect.VBool true;
      reflect.VPtr (Some (1%nat, [])); reflect.VInt 3;
      reflect.VStruct [reflect.VStruct [reflect.VInt 9]; reflect.VInt 2];
      reflect.VStruct [reflect.VPtr None]];
   reflect.VInt 41;
   reflect.VPtr (Some (1%nat, []))].

(** The accessor of field [i] of the [Server] in cell 0. *)
Definition accessor (i : nat) (name pkg : string) (t : reflect.type)
    (tag : string) : Field :=
  mkField
    (reflect.MkValue t (reflect.Indir (0%nat, [i]))
       (reflect.mkFlag (negb (String.eqb pkg "")) false))
    (reflect.mkSF name pkg t tag [i] false).

Definition fName : Field := accessor 0 "Name" "" str "json:name".
Definition fPort : Field := accessor 1 "Port" "" int "".
Definition fEnabled : Field := accessor 2 "enabled" "main" boolean "".
Definition fCount : Field := accessor 3 "Count" "" (reflect.TPtr int) "".
Definition fLevel : Field := accessor 4 "Level" "" MyInt "".
Definition fInner : Field := accessor 5 "Inner" "" Group "".
Definition fLink : Field := accessor 6 "Link" "" Linked "".

(** A tag decoder for the example: every key is absent. *)
Definition no_tags (tag key : string) : string := "".

End Example.

(** * Vocabulary of the further properties *)

(** Width in bits of the signed and unsigned integer kinds. *)
Definition signed_bits (k : reflect.Kind) : Z :=
  match k with
  | reflect.Int8 => 8
  | reflect.Int16 => 16
  | reflect.Int32 => 32
  | _ => 64
  end.

Definition unsigned_bits (k : reflect.Kind) : Z :=
  match k with
  | reflect.Uint8 => 8
  | reflect.Uint16 => 16
  | reflect.Uint32 => 32
  | _ => 64
  end.

(** What a float field of kind [k] keeps of a 64-bit float. *)
Definition float_stored (k : reflect.Kind) (x : spec_float) : spec_float :=
  match k with
  | reflect.Float32 => reflect.to_float32 x
  | _ => x
  end.

(** Two addresses whose storage does not overlap: different variables, or
    paths that part ways at some field. *)
Definition disjoint (a b : reflect.addr) : Prop :=
  fst a <> fst b
  \/ exists q i j r1 r2,
       i <> j
       /\ snd a = (q ++ i :: r1)%list
       /\ snd b = (q ++ j :: r2)%list.

(** Two accessors over the same place in the store. *)
Definition same_storage (f g : Field) : Prop :=
  match value f, value g with
  | reflect.MkValue t (reflect.Indir a) _, reflect.MkValue u (reflect.Indir b) _ =>
      t = u /\ a = b
  | _, _ => False
  end.

(** A call whose outcome does not depend on the store it runs in. *)
Definition store_free {A} (m : reflect.M A) : Prop :=
  forall st a st1, m st = reflect.Ret a st1 ->
                   forall st', m st' = reflect.Ret a st'.

(** The incoming value is nil or not a pointer, so that [checkForSet]
    takes it as it comes. *)
Definition plain (val : reflect.any) : bool :=
  match val with
  | None => true
  | Some (t, _) => negb (reflect.Kind_eqb (reflect.Type_Kind t) reflect.Ptr)
  end.

(** * A second example

    [type Sample struct { Tiny int8; Raw uint16; Ratio float32; Next *int;
       Label string `json:"label"`; Inner Base }]

    with one [Sample] in cell 0, reached through a pointer; [Next] is nil.
    [byValue] is the accessor of [Tiny] in a [Sample] that was passed by
    value, and so cannot be addressed. *)
Module Sample.

Definition int8 : reflect.type := reflect.TBasic reflect.T_int8.
Definition uint16 : reflect.type := reflect.TBasic reflect.T_uint16.
Definition float32 : reflect.type := reflect.TBasic reflect.T_float32.

Definition Sample : reflect.type :=
  reflect.TNamed "Sample"
    (reflect.TStruct
       [reflect.mkStructField "Tiny" "" int8 "" false;
        reflect.mkStructField "Raw" "" uint16 "" false;
        reflect.mkStructField "Ratio" "" float32 "" false;
        reflect.mkStructField "Next" "" (reflect.TPtr Example.int) "" false;
        reflect.mkStructField "Label" "" Example.str "json:label" false;
        reflect.mkStructField "Inner" "" Example.Base "" false]).

Definition st0 : reflect.store :=
  [reflect.VStruct
     [reflect.VInt 7; reflect.VUint 9; reflect.VFloat reflect.float_zero;
      reflect.VPtr None; reflect.VString "x";
      reflect.VStruct [reflect.VInt 5]]].

Definition accessor (i : nat) (name : string) (t : reflect.type)
    (tag : string) : Field :=
  mkField
    (reflect.MkValue t (reflect.Indir (0%nat, [i])) reflect.flag0)
    (reflect.mkSF name "" t tag [i] false).

Definition fTiny : Field := accessor 0 "Tiny" int8 "".
Definition fRaw : Field := accessor 1 "Raw" uint16 "".
Definition fRatio : Field := accessor 2 "Ratio" float32 "".
Definition fNext : Field := accessor 3 "Next" (reflect.TPtr Example.int) "".
Definition fLabel : Field := accessor 4 "Label" Example.str "json:label".
Definition fInner : Field := accessor 5 "Inner" Example.Base "".

Definition byValue : Field :=
  mkField
    (reflect.MkValue int8 (reflect.Direct (reflect.VInt 7)) reflect.flag0)
    (reflect.mkSF "Tiny" "" int8 "" [0%nat] false).

(** Three halves, [3 * 2^-1], as a 64-bit float. *)
Definition one_and_a_half : spec_float := S754_finite false 3 (-1).

End Sample.

(** * Handles reached through unexported fields *)



(** * A third example

    [type Outer struct { inner Base }] with one [Outer] in cell 0, reached
    through a pointer; its [inner.ID] is 0.  [fInner] is the accessor of
    the unexported [inner], [fID] the accessor of the exported [ID] below
    it.  [boxed] is the store of the running example with one more
    variable, [x interface{}] holding the [int] 41, in cell 3. *)
Module Hidden.


Definition st0 : reflect.store :=
  [reflect.VStruct [reflect.VStruct [reflect.VInt 0]]].


Definition fInner : Field :=
  mkField
    (reflect.MkValue Example.Base (reflect.Indir (0%nat, [0%nat]))
       (reflect.mkFlag true false))
    (reflect.mkSF "inner" "main" Example.Base "" [0%nat] false).


Definition boxed : reflect.store :=
  (Example.st0
   ++ [reflect.VIface (Some (Example.int, reflect.VInt 41))])%list.

End Hidden.

(** * Properties *)

(** ** The store *)

Lemma val_set_at v path w v' :
  reflect.val_set v path w = Some v' -> reflect.val_at v' path = Some w.
Proof.
  revert v v'. induction path as [|i path IH]; intros v v' H; simpl in *.
  - congruence.
  - destruct v; try discriminate.
    destruct (fs !! i) as [x|] eqn:Hx; try discriminate.
    destruct (reflect.val_set x path w) as [x'|] eqn:Hs; try discriminate.
    injection H as <-. cbn [reflect.val_at].
    rewrite list_lookup_insert_eq by (eapply lookup_lt_Some; eauto).
    eauto.
Qed.

Lemma val_at_set v path w x :
  reflect.val_at v path = Some x ->
  exists v', reflect.val_set v path w = Some v'.
Proof.
  revert v. induction path as [|i path IH]; intros v H; simpl in *.
  - eauto.
  - destruct v; try discriminate.
    destruct (fs !! i) as [y|] eqn:Hy; try discriminate.
    destruct (IH _ H) as [y' ->]. eauto.
Qed.

Lemma load_store_at st a w st' :
  reflect.store_at st a w = Some st' -> reflect.load st' a = Some w.
Proof.
  unfold reflect.store_at, reflect.load. intros H.
  destruct (st !! a.1) as [v|] eqn:Hv; try discriminate.
  destruct (reflect.val_set v a.2 w) as [v'|] eqn:Hs; try discriminate.
  injection H as <-.
  rewrite list_lookup_insert_eq by (eapply lookup_lt_Some; eauto).
  eapply val_set_at; eauto.
Qed.

Lemma store_at_total st a w x :
  reflect.load st a = Some x -> exists st', reflect.store_at st a w = Some st'.
Proof.
  unfold reflect.store_at, reflect.load. intros H.
  destruct (st !! a.1) as [v|]; try discriminate.
  destruct (val_at_set _ _ w _ H) as [v' ->]. eauto.
Qed.

(** ** Kinds and types *)

Lemma Kind_eqb_eq a b : reflect.Kind_eqb a b = true <-> a = b.
Proof.
  split.
  - destruct a, b; simpl; intros H; try discriminate; reflexivity.
  - intros <-. destruct a; reflexivity.
Qed.

Lemma Kind_eqb_refl a : reflect.Kind_eqb a a = true.
Proof. apply Kind_eqb_eq. reflexivity. Qed.

Lemma Kind_eqb_neq a b : a <> b -> reflect.Kind_eqb a b = false.
Proof.
  intros H. destruct (reflect.Kind_eqb a b) eqn:E; [|reflexivity].
  apply Kind_eqb_eq in E. contradiction.
Qed.

(** Induction over types that reaches the types of struct fields. *)
Lemma type_nested_ind (P : reflect.type -> Prop) :
  (forall b, P (reflect.TBasic b)) ->
  (forall n u, P u -> P (reflect.TNamed n u)) ->
  (forall e, P e -> P (reflect.TPtr e)) ->
  (forall fs, Forall (fun f => P (reflect.sf_typ f)) fs ->
              P (reflect.TStruct fs)) ->
  P reflect.TInterface ->
  forall t, P t.
Proof.
  intros Hb Hn Hp Hs Hi. fix IH 1. intros [b|n u|e|fs|].
  - apply Hb.
  - apply Hn, IH.
  - apply Hp, IH.
  - apply Hs. induction fs as [|[fn fp ft fg fe] fs IHfs]; constructor.
    + apply IH.
    + exact IHfs.
  - apply Hi.
Qed.

Lemma type_eqb_refl t : reflect.type_eqb t t = true.
Proof.
  induction t as [b|n u IH|e IH|fs IH|] using type_nested_ind; simpl.
  - unfold reflect.basic_eqb. apply Kind_eqb_refl.
  - rewrite String.eqb_refl, IH. reflexivity.
  - exact IH.
  - induction IH as [|[fn fp ft fg fe] fs Hf _ IHfs]; [reflexivity|].
    simpl in Hf. rewrite !String.eqb_refl, Hf, IHfs.
    destruct fe; reflexivity.
  - reflexivity.
Qed.

Lemma directlyAssignable_refl t : reflect.directlyAssignable t t = true.
Proof. unfold reflect.directlyAssignable. rewrite type_eqb_refl. reflexivity. Qed.

Lemma underlying_not_named t n u : reflect.underlying t <> reflect.TNamed n u.
Proof. induction t; simpl; congruence. Qed.

Lemma underlying_idem t :
  reflect.underlying (reflect.underlying t) = reflect.underlying t.
Proof. induction t; simpl; congruence. Qed.

Lemma Type_Kind_valid t : reflect.Type_Kind t <> reflect.Invalid.
Proof.
  unfold reflect.Type_Kind.
  destruct (reflect.underlying t) as [b|n u|e|fs|] eqn:E; try discriminate.
  - destruct b; discriminate.
  - exfalso. eapply underlying_not_named; eauto.
Qed.

Lemma Type_Kind_Ptr t :
  reflect.Type_Kind t = reflect.Ptr ->
  exists e, reflect.underlying t = reflect.TPtr e.
Proof.
  unfold reflect.Type_Kind.
  destruct (reflect.underlying t) as [b|n u|e|fs|]; try discriminate; eauto.
  destruct b; discriminate.
Qed.

Lemma Type_Kind_Struct t :
  reflect.Type_Kind t = reflect.Struct ->
  exists fs, reflect.underlying t = reflect.TStruct fs.
Proof.
  unfold reflect.Type_Kind.
  destruct (reflect.underlying t) as [b|n u|e|fs|]; try discriminate; eauto.
  destruct b; discriminate.
Qed.

Lemma Type_Kind_Interface t :
  reflect.Type_Kind t = reflect.Interface ->
  reflect.underlying t = reflect.TInterface.
Proof.
  unfold reflect.Type_Kind.
  destruct (reflect.underlying t) as [b|n u|e|fs|]; try discriminate; eauto.
  destruct b; discriminate.
Qed.

Lemma has_type_underlying t x :
  reflect.has_type t x = reflect.has_type (reflect.underlying t) x.
Proof. induction t; simpl; auto. Qed.

Lemma zero_val_underlying t :
  reflect.zero_val t = reflect.zero_val (reflect.underlying t).
Proof. induction t; simpl; auto. Qed.

Lemma has_type_Ptr t x :
  reflect.Type_Kind t = reflect.Ptr -> reflect.has_type t x = true ->
  exists p, x = reflect.VPtr p.
Proof.
  intros Hk Ht. destruct (Type_Kind_Ptr _ Hk) as [e He].
  rewrite has_type_underlying, He in Ht. simpl in Ht.
  destruct x; try discriminate. eauto.
Qed.

Lemma has_type_Interface t x :
  reflect.Type_Kind t = reflect.Interface -> reflect.has_type t x = true ->
  exists e, x = reflect.VIface e.
Proof.
  intros Hk Ht. apply Type_Kind_Interface in Hk.
  rewrite has_type_underlying, Hk in Ht. simpl in Ht.
  destruct x; try discriminate. eauto.
Qed.

(** ** The storage behind an accessor *)

Lemma contents_Ret d st x st' :
  reflect.contents d st = reflect.Ret x st' -> st' = st.
Proof.
  destruct d as [v|a]; simpl.
  - unfold reflect.ret. congruence.
  - unfold reflect.bind, reflect.get_store, reflect.lift_option.
    destruct (reflect.load st a); unfold reflect.ret, reflect.stuck; congruence.
Qed.

Lemma Field_stored_inv f st :
  Field_stored f st = true ->
  exists t d fl x,
    value f = reflect.MkValue t d fl
    /\ reflect.contents d st = reflect.Ret x st
    /\ reflect.has_type t x = true.
Proof.
  unfold Field_stored. destruct (value f) as [|t d fl]; [discriminate|].
  destruct (reflect.contents d st) as [x st'| |] eqn:E; try discriminate.
  intros Ht. pose proof (contents_Ret _ _ _ _ E) as ->. eauto 10.
Qed.

(** [reflect.Indirect(f.value)] neither panics nor changes the store. *)
Lemma Indirect_stored f st :
  Field_stored f st = true ->
  exists v, reflect.Indirect (value f) st = reflect.Ret v st.
Proof.
  intros H. destruct (Field_stored_inv _ _ H) as (t & d & fl & x & -> & Hc & Ht).
  unfold reflect.Indirect. simpl.
  destruct (reflect.Kind_eqb (reflect.Type_Kind t) reflect.Ptr) eqn:Hk; simpl.
  - apply Kind_eqb_eq in Hk. rewrite Hk.
    destruct (has_type_Ptr _ _ Hk Ht) as [p ->].
    unfold reflect.bind. rewrite Hc.
    destruct p as [a|]; [|eexists; reflexivity].
    destruct (Type_Kind_Ptr _ Hk) as [e He].
    unfold reflect.Type_Elem. rewrite He. simpl. eexists; reflexivity.
  - eexists; reflexivity.
Qed.

(** What [settable] says about the value the setters write. *)
Lemma settable_inv f st :
  settable f st = true ->
  exists t a fl,
    reflect.Indirect (value f) st
      = reflect.Ret (reflect.MkValue t (reflect.Indir a) fl) st
    /\ reflect.flagRO fl = false
    /\ written_type f = Some t.
Proof.
  unfold settable, written_type, reflect.Indirect.
  destruct (value f) as [|t d fl]; simpl; [discriminate|].
  destruct (reflect.Kind_eqb (reflect.Type_Kind t) reflect.Ptr) eqn:Hk; simpl.
  - apply Kind_eqb_eq in Hk. rewrite Hk. unfold reflect.bind.
    destruct (reflect.contents d st) as [x st'| |] eqn:Hc; try discriminate.
    pose proof (contents_Ret _ _ _ _ Hc) as ->.
    destruct x; try discriminate. destruct p as [a|]; [|discriminate].
    destruct (reflect.Type_Elem t) as [e|]; simpl; [|discriminate].
    unfold reflect.Value_CanSet. simpl. intros H.
    exists e, a, fl. repeat split. destruct (reflect.flagRO fl); [discriminate|reflexivity].
  - unfold reflect.ret, reflect.Value_CanSet. simpl.
    destruct d as [x|a]; simpl; [discriminate|]. intros H.
    exists t, a, fl. repeat split. destruct (reflect.flagRO fl); [discriminate|reflexivity].
Qed.

Lemma settable_written_kind f t :
  written_type f = Some t -> written_kind f = reflect.Type_Kind t.
Proof. unfold written_kind. intros ->. reflexivity. Qed.

(** ** Setters on a field that is not exported *)

(** C4.  On a field that is not exported, [Set], [SetInt], [SetFloat] and
    [SetUint] each return [errNotExported] and leave the store as it was;
    and [checkForSet] answers [errNotExported] before it looks at
    settability, whatever the value [v] it is given. *)
Theorem setters_not_exported f st
    (Hstored : Field_stored f st = true)
    (Hunexp : IsExported f = false) :
  (forall val, Set_ f val st = reflect.Ret (Some errNotExported) st)
  /\ (forall z, SetInt f z st = reflect.Ret (Some errNotExported) st)
  /\ (forall x, SetFloat f x st = reflect.Ret (Some errNotExported) st)
  /\ (forall z, SetUint f z st = reflect.Ret (Some errNotExported) st)
  /\ (forall v val st',
        checkForSet f v val st'
          = reflect.Ret (reflect.Value0, Some errNotExported) st').
Proof.
  destruct (Indirect_stored _ _ Hstored) as [v Hv].
  assert (Hc : forall v val st',
             checkForSet f v val st'
             = reflect.Ret (reflect.Value0, Some errNotExported) st').
  { intros. unfold checkForSet. rewrite Hunexp. reflexivity. }
  repeat split; intros;
    try (unfold Set_, SetInt, SetFloat, SetUint, reflect.bind;
         rewrite Hv, Hc; reflexivity).
  apply Hc.
Qed.

Lemma setters_not_exported_witness :
  Field_stored Example.fEnabled Example.st0 = true
  /\ IsExported Example.fEnabled = false
  /\ settable Example.fEnabled Example.st0 = false
  /\ Set_ Example.fEnabled (Some (Example.boolean, reflect.VBool false))
       Example.st0
     = reflect.Ret (Some errNotExported) Example.st0.
Proof.
  split; [reflexivity|]. split; [reflexivity|]. split; [reflexivity|].
  apply (setters_not_exported Example.fEnabled Example.st0); reflexivity.
Defined.

(** ** [Set] *)

Lemma flagRO_CanSet t a fl :
  reflect.flagRO fl = false ->
  reflect.Value_CanSet (reflect.MkValue t (reflect.Indir a) fl) = true.
Proof. unfold reflect.Value_CanSet. simpl. intros ->. reflexivity. Qed.

(** Past its two guards, [checkForSet] hands back the incoming value,
    dereferenced once if it is a pointer. *)
Lemma checkForSet_ok f v val st :
  IsExported f = true -> reflect.Value_CanSet v = true ->
  any_wf val = true ->
  exists given,
    checkForSet f v val st = reflect.Ret (given, None) st
    /\ reflect.Value_Kind given = dereferenced_kind val.
Proof.
  intros He Hc Hw. unfold checkForSet. rewrite He, Hc. simpl.
  destruct val as [[t x]|]; simpl.
  - destruct (reflect.Kind_eqb (reflect.Type_Kind t) reflect.Ptr) eqn:Hk.
    + apply Kind_eqb_eq in Hk. simpl in Hw.
      destruct (has_type_Ptr _ _ Hk Hw) as [p ->].
      destruct (Type_Kind_Ptr _ Hk) as [e He'].
      unfold reflect.bind. simpl. rewrite Hk. unfold reflect.bind. simpl.
      unfold reflect.Type_Elem. rewrite He'.
      destruct p as [a|]; simpl; eexists; split; reflexivity.
    + unfold reflect.bind. simpl. eexists; split; reflexivity.
  - unfold reflect.bind. simpl. eexists; split; reflexivity.
Qed.

(** [Set] answers a kind mismatch with an error and writes nothing. *)
Lemma Set_wrong_kind f st val :
  IsExported f = true -> settable f st = true -> any_wf val = true ->
  dereferenced_kind val <> written_kind f ->
  Set_ f val st
  = reflect.Ret
      (Some (fmt_Errorf_wrong_kind (dereferenced_kind val) (written_kind f)))
      st.
Proof.
  intros He Hs Hw Hk.
  destruct (settable_inv _ _ Hs) as (t & a & fl & Hi & Hro & Hwt).
  pose proof (settable_written_kind _ _ Hwt) as Hwk.
  destruct (checkForSet_ok f (reflect.MkValue t (reflect.Indir a) fl) val st
              He (flagRO_CanSet _ _ _ Hro) Hw) as (given & Hc & Hg).
  unfold Set_, reflect.bind. rewrite Hi, Hc. simpl.
  rewrite Hg, <- Hwk.
  rewrite Kind_eqb_neq by congruence. reflexivity.
Qed.

(** C2, as the code has it.  On an exported, settable field, [Set] with a
    value whose dynamic kind, after one level of dereferencing, differs
    from the kind of the storage [Set] writes (the field's own kind, or
    the kind of the pointee when the field is a pointer) returns the
    "wrong kind" error and leaves the whole store as it was. *)
Theorem Set_kind_mismatch f st val
    (Hexp : IsExported f = true)
    (Hset : settable f st = true)
    (Hval : any_wf val = true)
    (Hkind : dereferenced_kind val <> written_kind f) :
  Set_ f val st
  = reflect.Ret
      (Some (fmt_Errorf_wrong_kind (dereferenced_kind val) (written_kind f)))
      st.
Proof. apply Set_wrong_kind; assumption. Qed.

Lemma Set_kind_mismatch_witness :
  IsExported Example.fPort = true
  /\ settable Example.fPort Example.st0 = true
  /\ Set_ Example.fPort (Some (Example.str, reflect.VString "http"))
       Example.st0
     = reflect.Ret (Some (errorString "wrong kind: string want: int"))
         Example.st0.
Proof.
  split; [reflexivity|]. split; [reflexivity|].
  apply (Set_kind_mismatch Example.fPort Example.st0
           (Some (Example.str, reflect.VString "http")));
    [reflexivity | reflexivity | reflexivity | vm_compute; discriminate].
Defined.

(** C2 as stated fails on a pointer field: [Count *int] has declared kind
    [ptr], an [int] has kind [int], and yet [Set] returns no error and
    overwrites the pointee. *)
Lemma Set_declared_kind_counterexample :
  IsExported Example.fCount = true
  /\ settable Example.fCount Example.st0 = true
  /\ Kind Example.fCount = reflect.Ptr
  /\ dereferenced_kind (Some (Example.int, reflect.VInt 8080)) = reflect.Int
  /\ Set_ Example.fCount (Some (Example.int, reflect.VInt 8080)) Example.st0
     = reflect.Ret None (<[1%nat := reflect.VInt 8080]> Example.st0).
Proof. repeat split. Qed.

(** C10.  On an exported, settable field, [Set(nil)] returns the "wrong
    kind" error, with [invalid] as the kind given, and leaves the store as
    it was; it does not panic.  The kind wanted is never [Invalid]. *)
Theorem Set_nil f st
    (Hexp : IsExported f = true)
    (Hset : settable f st = true) :
  Set_ f None st
  = reflect.Ret
      (Some (fmt_Errorf_wrong_kind reflect.Invalid (written_kind f))) st
  /\ written_kind f <> reflect.Invalid.
Proof.
  assert (Hk : written_kind f <> reflect.Invalid).
  { destruct (settable_inv _ _ Hset) as (t & a & fl & _ & _ & Hwt).
    rewrite (settable_written_kind _ _ Hwt). apply Type_Kind_valid. }
  split; [|exact Hk].
  apply (Set_wrong_kind f st None Hexp Hset); [reflexivity|].
  simpl. congruence.
Qed.

Lemma Set_nil_witness :
  IsExported Example.fPort = true
  /\ settable Example.fPort Example.st0 = true
  /\ Set_ Example.fPort None Example.st0
     = reflect.Ret (Some (errorString "wrong kind: invalid want: int"))
         Example.st0.
Proof.
  split; [reflexivity|]. split; [reflexivity|].
  apply (Set_nil Example.fPort Example.st0); reflexivity.
Defined.

(** ** The numeric setters *)

Lemma Indirect_not_pointer v st :
  reflect.Value_Kind v <> reflect.Ptr ->
  reflect.Indirect v st = reflect.Ret v st.
Proof.
  intros Hk. unfold reflect.Indirect. rewrite (Kind_eqb_neq _ _ Hk).
  reflexivity.
Qed.

(** Past its two guards, [checkForSet] hands back a value that is not a
    pointer as it came. *)
Lemma checkForSet_value f v T x st :
  IsExported f = true -> reflect.Value_CanSet v = true ->
  reflect.Type_Kind T <> reflect.Ptr ->
  checkForSet f v (Some (T, x)) st
  = reflect.Ret (reflect.MkValue T (reflect.Direct x) reflect.flag0, None) st.
Proof.
  intros He Hc Hk. unfold checkForSet. rewrite He, Hc. simpl.
  rewrite (Kind_eqb_neq _ _ Hk). reflexivity.
Qed.

(** C3, as the code has it.  On an exported, settable field, a numeric
    setter applied to storage whose kind (the field's own kind, or the kind
    of the pointee when the field is a pointer) lies outside the setter's
    family panics inside [reflect]; it does not return an error. *)
Theorem numeric_setters_outside_family f st
    (Hexp : IsExported f = true)
    (Hset : settable f st = true) :
  (forall z, signed_kind (written_kind f) = false ->
     SetInt f z st
     = reflect.Panic
         (reflect.ValueError "reflect.Value.SetInt" (written_kind f)))
  /\ (forall x, float_kind (written_kind f) = false ->
     SetFloat f x st
     = reflect.Panic
         (reflect.ValueError "reflect.Value.SetFloat" (written_kind f)))
  /\ (forall z, unsigned_kind (written_kind f) = false ->
     SetUint f z st
     = reflect.Panic
         (reflect.ValueError "reflect.Value.SetUint" (written_kind f))).
Proof.
  destruct (settable_inv _ _ Hset) as (t & a & fl & Hi & Hro & Hwt).
  rewrite (settable_written_kind _ _ Hwt).
  pose proof (flagRO_CanSet t a _ Hro) as Hc.
  repeat split; intros ? Hk;
    unfold SetInt, SetFloat, SetUint, reflect.bind; rewrite Hi;
    rewrite checkForSet_value by (assumption || (destruct t; discriminate) || discriminate);
    unfold reflect.Value_SetInt, reflect.Value_SetFloat,
      reflect.Value_SetUint, reflect.mustBeAssignable, reflect.bind;
    simpl; rewrite Hro; simpl;
    destruct (reflect.Type_Kind t); try discriminate; reflexivity.
Qed.

Lemma numeric_setters_outside_family_witness :
  IsExported Example.fName = true
  /\ settable Example.fName Example.st0 = true
  /\ SetInt Example.fName 5 Example.st0
     = reflect.Panic (reflect.ValueError "reflect.Value.SetInt" reflect.String).
Proof.
  split; [reflexivity|]. split; [reflexivity|].
  apply (numeric_setters_outside_family Example.fName Example.st0);
    reflexivity.
Defined.

(** C3 as stated fails on a pointer field: the kind of [Count *int] is
    [ptr], outside the signed integers, and [SetInt] succeeds, writing the
    pointee. *)
Lemma SetInt_pointer_field_counterexample :
  IsExported Example.fCount = true
  /\ settable Example.fCount Example.st0 = true
  /\ Kind Example.fCount = reflect.Ptr
  /\ signed_kind (Kind Example.fCount) = false
  /\ SetInt Example.fCount 5 Example.st0
     = reflect.Ret None (<[1%nat := reflect.VInt 5]> Example.st0).
Proof. repeat split. Qed.

(** ** Round trip *)

Lemma Value_inv f st t a0 :
  Kind f <> reflect.Interface ->
  Value f st = reflect.Ret (Some (t, a0)) st ->
  exists d fl,
    value f = reflect.MkValue t d fl
    /\ reflect.flagRO fl = false
    /\ reflect.contents d st = reflect.Ret a0 st.
Proof.
  unfold Value, Kind, reflect.Value_Interface, reflect.valueInterface.
  destruct (value f) as [|t' d fl]; simpl; [discriminate|].
  intros Hk. rewrite (Kind_eqb_neq _ _ Hk).
  destruct (reflect.flagRO fl) eqn:Hro; simpl; [discriminate|].
  unfold reflect.bind.
  destruct (reflect.contents d st) as [x st'| |] eqn:Hc; try discriminate.
  unfold reflect.ret. intros H. injection H as -> -> ->.
  exists d, fl. auto.
Qed.

Lemma Value_Set_same_type T a fl bv st st' :
  reflect.flagRO fl = false ->
  reflect.store_at st a bv = Some st' ->
  reflect.Value_Set (reflect.MkValue T (reflect.Indir a) fl)
    (reflect.MkValue T (reflect.Direct bv) reflect.flag0) st
  = reflect.Ret tt st'.
Proof.
  intros Hro Hst.
  unfold reflect.Value_Set, reflect.mustBeAssignable, reflect.mustBeExported,
    reflect.assignTo, reflect.bind.
  rewrite Hro. simpl. rewrite directlyAssignable_refl. simpl.
  unfold reflect.bind, reflect.get_store. rewrite Hst. reflexivity.
Qed.

(** C1, as the code has it.  Take an exported, settable field whose kind
    is neither pointer nor interface, of type [T] and holding [a0].  For
    every [b] of that same type [T], [Set(b)] returns no error and
    [Value()] then returns [b]. *)
Theorem Set_Value_roundtrip f st T a0 bv
    (Hexp : IsExported f = true)
    (Hset : settable f st = true)
    (Hptr : Kind f <> reflect.Ptr)
    (Hifc : Kind f <> reflect.Interface)
    (Hinit : Value f st = reflect.Ret (Some (T, a0)) st) :
  exists st',
    Set_ f (Some (T, bv)) st = reflect.Ret None st'
    /\ Value f st' = reflect.Ret (Some (T, bv)) st'.
Proof.
  destruct (Value_inv _ _ _ _ Hifc Hinit) as (d & fl & Hv & Hro & Hc).
  unfold Kind in Hptr, Hifc. rewrite Hv in Hptr, Hifc. simpl in Hptr, Hifc.
  assert (Hd : exists a, d = reflect.Indir a).
  { unfold settable, reflect.Indirect in Hset. rewrite Hv in Hset.
    simpl in Hset. rewrite (Kind_eqb_neq _ _ Hptr) in Hset. simpl in Hset.
    unfold reflect.Value_CanSet in Hset. destruct d; [discriminate|eauto]. }
  destruct Hd as [a ->].
  assert (Hl : reflect.load st a = Some a0).
  { simpl in Hc. unfold reflect.bind, reflect.get_store in Hc.
    destruct (reflect.load st a); simpl in Hc; [|discriminate].
    unfold reflect.ret in Hc. congruence. }
  destruct (store_at_total st a bv _ Hl) as [st' Hst].
  exists st'. split.
  - unfold Set_, reflect.bind. rewrite Hv.
    rewrite Indirect_not_pointer by exact Hptr.
    rewrite checkForSet_value
      by (try apply flagRO_CanSet; assumption).
    simpl. rewrite Kind_eqb_refl. simpl.
    rewrite (Value_Set_same_type _ _ _ _ _ _ Hro Hst). reflexivity.
  - unfold Value, reflect.Value_Interface, reflect.valueInterface.
    rewrite Hv, Hro. simpl. rewrite (Kind_eqb_neq _ _ Hifc).
    unfold reflect.bind. simpl.
    rewrite (load_store_at _ _ _ _ Hst). reflexivity.
Qed.

Lemma Set_Value_roundtrip_witness :
  IsExported Example.fPort = true
  /\ settable Example.fPort Example.st0 = true
  /\ exists st',
       Set_ Example.fPort (Some (Example.int, reflect.VInt 8080)) Example.st0
       = reflect.Ret None st'
       /\ Value Example.fPort st'
          = reflect.Ret (Some (Example.int, reflect.VInt 8080)) st'.
Proof.
  split; [reflexivity|]. split; [reflexivity|].
  apply (Set_Value_roundtrip Example.fPort Example.st0 Example.int
           (reflect.VInt 80) (reflect.VInt 8080));
    try reflexivity; vm_compute; discriminate.
Defined.

(** C1 as stated fails when the kinds match and the types do not:
    [Level MyInt] has kind [int], so has the [int] 8080, and [Set] panics
    inside [reflect.Value.Set].  It fails on a pointer field too:
    [Set] with a [*int] writes the pointee of [Count], and [Value()]
    still returns the pointer the field held before. *)
Lemma Set_same_kind_counterexample :
  (IsExported Example.fLevel = true
   /\ settable Example.fLevel Example.st0 = true
   /\ Kind Example.fLevel = reflect.Int
   /\ reflect.Value_Kind
        (reflect.ValueOf (Some (Example.int, reflect.VInt 8080)))
      = reflect.Int
   /\ Set_ Example.fLevel (Some (Example.int, reflect.VInt 8080)) Example.st0
      = reflect.Panic
          (reflect.NotAssignable "reflect.Set" Example.int Example.MyInt))
  /\ (IsExported Example.fCount = true
      /\ settable Example.fCount Example.st0 = true
      /\ Kind Example.fCount = reflect.Ptr
      /\ let b := Some (reflect.TPtr Example.int,
                        reflect.VPtr (Some (0%nat, [1%nat]))) in
         let st' := <[1%nat := reflect.VInt 80]> Example.st0 in
         reflect.Value_Kind (reflect.ValueOf b) = reflect.Ptr
         /\ Set_ Example.fCount b Example.st0 = reflect.Ret None st'
         /\ Value Example.fCount st'
            = reflect.Ret (Some (reflect.TPtr Example.int,
                                 reflect.VPtr (Some (1%nat, [])))) st').
Proof. repeat split. Qed.

(** ** Calls that only read *)

Lemma reads_only_ret {A} (a : A) : reads_only (reflect.ret a).
Proof. intros st b st' H. unfold reflect.ret in H. congruence. Qed.

Lemma reads_only_throw {A} p : reads_only (@reflect.throw A p).
Proof. intros st b st' H. discriminate. Qed.

Lemma reads_only_stuck {A} : reads_only (@reflect.stuck A).
Proof. intros st b st' H. discriminate. Qed.

Lemma reads_only_bind {A B} (m : reflect.M A) (k : A -> reflect.M B) :
  reads_only m -> (forall a, reads_only (k a)) -> reads_only (reflect.bind m k).
Proof.
  intros Hm Hk st b st' H. unfold reflect.bind in H.
  destruct (m st) as [a st1| |] eqn:E; try discriminate.
  apply Hm in E. subst st1. eapply Hk; eauto.
Qed.

Lemma reads_only_get_store : reads_only reflect.get_store.
Proof. intros st b st' H. unfold reflect.get_store in H. congruence. Qed.

Lemma reads_only_lift_option {A} (o : option A) :
  reads_only (reflect.lift_option o).
Proof.
  destruct o; simpl; [apply reads_only_ret | apply reads_only_stuck].
Qed.

Create HintDb reads discriminated.

#[local] Hint Resolve reads_only_ret reads_only_throw reads_only_stuck
  reads_only_get_store reads_only_lift_option : reads.

(** Breaks a computation along its binds, matches and conditionals. *)
Ltac reads_only_tac :=
  repeat first
    [ solve [auto with reads]
    | apply reads_only_bind; [|intros]
    | match goal with
      | |- reads_only (match ?x with _ => _ end) => destruct x
      | |- reads_only (if ?b then _ else _) => destruct b
      end ].

Lemma reads_only_contents d : reads_only (reflect.contents d).
Proof. unfold reflect.contents. reads_only_tac. Qed.
#[local] Hint Resolve reads_only_contents : reads.

Lemma reads_only_Value_Type v : reads_only (reflect.Value_Type v).
Proof. unfold reflect.Value_Type. reads_only_tac. Qed.

Lemma reads_only_Value_IsNil v : reads_only (reflect.Value_IsNil v).
Proof. unfold reflect.Value_IsNil. reads_only_tac. Qed.

Lemma reads_only_Value_Elem v : reads_only (reflect.Value_Elem v).
Proof. unfold reflect.Value_Elem. reads_only_tac. Qed.
#[local] Hint Resolve reads_only_Value_Type reads_only_Value_IsNil
  reads_only_Value_Elem : reads.

Lemma reads_only_Indirect v : reads_only (reflect.Indirect v).
Proof. unfold reflect.Indirect. reads_only_tac. Qed.

Lemma reads_only_valueInterface v safe :
  reads_only (reflect.valueInterface v safe).
Proof. unfold reflect.valueInterface. reads_only_tac. Qed.

Lemma reads_only_mustBe m k v : reads_only (reflect.mustBe m k v).
Proof. unfold reflect.mustBe. reads_only_tac. Qed.

Lemma reads_only_Value_Field v i : reads_only (reflect.Value_Field v i).
Proof. unfold reflect.Value_Field. reads_only_tac. Qed.
#[local] Hint Resolve reads_only_Indirect reads_only_valueInterface
  reads_only_mustBe reads_only_Value_Field : reads.

Lemma reads_only_Value_NumField v : reads_only (reflect.Value_NumField v).
Proof. unfold reflect.Value_NumField. reads_only_tac. Qed.

Lemma reads_only_fieldByIndexLoop index :
  forall first v, reads_only (reflect.fieldByIndexLoop first index v).
Proof.
  induction index as [|x index IH]; intros first v; simpl.
  - reads_only_tac.
  - apply reads_only_bind; [reads_only_tac|]. intros v'.
    apply reads_only_bind; [reads_only_tac|]. intros v''. apply IH.
Qed.
#[local] Hint Resolve reads_only_Value_NumField reads_only_fieldByIndexLoop
  : reads.

Lemma reads_only_Value_FieldByIndex v index :
  reads_only (reflect.Value_FieldByIndex v index).
Proof. unfold reflect.Value_FieldByIndex. reads_only_tac. Qed.
#[local] Hint Resolve reads_only_Value_FieldByIndex : reads.

Lemma reads_only_Value_FieldByName v name :
  reads_only (reflect.Value_FieldByName v name).
Proof. unfold reflect.Value_FieldByName. reads_only_tac. Qed.

Lemma reads_only_Type_FieldByName t name :
  reads_only (reflect.Type_FieldByName t name).
Proof. unfold reflect.Type_FieldByName. reads_only_tac. Qed.

Lemma reads_only_Type_Field t i : reads_only (reflect.Type_Field t i).
Proof. unfold reflect.Type_Field. reads_only_tac. Qed.

Lemma reads_only_Type_NumField t : reads_only (reflect.Type_NumField t).
Proof. unfold reflect.Type_NumField. reads_only_tac. Qed.
#[local] Hint Resolve reads_only_Value_FieldByName reads_only_Type_FieldByName
  reads_only_Type_Field reads_only_Type_NumField : reads.

Lemma reads_only_Value_pointer v : reads_only (reflect.Value_pointer v).
Proof. unfold reflect.Value_pointer. reads_only_tac. Qed.
#[local] Hint Resolve reads_only_Value_pointer : reads.

Lemma reads_only_deepValueEqual fuel :
  forall v1 v2, reads_only (reflect.deepValueEqual fuel v1 v2).
Proof.
  induction fuel as [|fuel IH]; intros v1 v2; simpl; [reads_only_tac|].
  destruct (negb (reflect.Value_IsValid v1) || negb (reflect.Value_IsValid v2));
    [reads_only_tac|].
  apply reads_only_bind; [reads_only_tac|]. intros t1.
  apply reads_only_bind; [reads_only_tac|]. intros t2.
  destruct (negb (reflect.type_eqb t1 t2)); [reads_only_tac|].
  destruct (reflect.Value_Kind v1); try solve [reads_only_tac].
  apply reads_only_bind; [reads_only_tac|]. intros n.
  generalize (seq 0 n). intros idx.
  induction idx as [|i idx IHidx]; simpl; [reads_only_tac|].
  apply reads_only_bind; [reads_only_tac|]. intros f1.
  apply reads_only_bind; [reads_only_tac|]. intros f2.
  apply reads_only_bind; [apply IH|]. intros b.
  destruct b; [exact IHidx | reads_only_tac].
Qed.

Lemma reads_only_DeepEqual fuel x y : reads_only (reflect.DeepEqual fuel x y).
Proof.
  unfold reflect.DeepEqual.
  destruct x as [[t1 v1]|], y as [[t2 v2]|]; try solve [reads_only_tac].
  destruct (negb (reflect.type_eqb t1 t2)); [reads_only_tac|].
  apply reads_only_deepValueEqual.
Qed.
#[local] Hint Resolve reads_only_DeepEqual : reads.

Lemma reads_only_strctVal s : reads_only (strctVal s).
Proof. unfold strctVal. reads_only_tac. Qed.

Lemma reads_only_getFields v : reads_only (getFields v).
Proof.
  unfold getFields.
  destruct (negb (reflect.Value_IsValid v) || reflect.Value_ro v);
    [reads_only_tac|].
  apply reads_only_bind; [reads_only_tac|]. intros t.
  apply reads_only_bind; [reads_only_tac|]. intros n.
  generalize (seq 0 n). intros idx.
  induction idx as [|i idx IH]; simpl; [reads_only_tac|].
  apply reads_only_bind; [reads_only_tac|]. intros fd.
  apply reads_only_bind; [reads_only_tac|]. intros fv.
  apply reads_only_bind; [exact IH|]. intros rest. reads_only_tac.
Qed.
#[local] Hint Resolve reads_only_strctVal reads_only_getFields : reads.

Lemma reads_only_Value f : reads_only (Value f).
Proof. unfold Value, reflect.Value_Interface. reads_only_tac. Qed.
#[local] Hint Resolve reads_only_Value : reads.

Lemma reads_only_IsZero fuel f : reads_only (IsZero fuel f).
Proof. unfold IsZero, reflect.Value_Interface. reads_only_tac. Qed.

Lemma reads_only_Fields f : reads_only (Fields f).
Proof. unfold Fields. reads_only_tac. Qed.

Lemma reads_only_FieldOk f name : reads_only (FieldOk f name).
Proof. unfold FieldOk, reflect.Value_Interface. reads_only_tac. Qed.
#[local] Hint Resolve reads_only_IsZero reads_only_Fields reads_only_FieldOk
  : reads.

Lemma reads_only_Field_ f name : reads_only (Field_ f name).
Proof. unfold Field_. reads_only_tac. Qed.
#[local] Hint Resolve reads_only_Field_ : reads.

(** ** [Set] through a pointer *)

Lemma Type_Elem_Kind pt T :
  reflect.Type_Elem pt = Some T -> reflect.Type_Kind pt = reflect.Ptr.
Proof.
  unfold reflect.Type_Elem, reflect.Type_Kind.
  destruct (reflect.underlying pt); try discriminate. reflexivity.
Qed.

Lemma contents_Indir st a x :
  reflect.load st a = Some x ->
  reflect.contents (reflect.Indir a) st = reflect.contents (reflect.Direct x) st.
Proof.
  intros H. simpl. unfold reflect.bind, reflect.get_store. rewrite H.
  reflexivity.
Qed.

Lemma Value_IsNil_from_store T a fl x st :
  reflect.load st a = Some x ->
  reflect.Value_IsNil (reflect.MkValue T (reflect.Indir a) fl) st
  = reflect.Value_IsNil (reflect.MkValue T (reflect.Direct x) fl) st.
Proof.
  intros Hl. pose proof (contents_Indir _ _ _ Hl) as Hc.
  unfold reflect.Value_IsNil.
  destruct (reflect.Type_Kind T); try reflexivity;
    unfold reflect.bind; rewrite Hc; reflexivity.
Qed.

Lemma valueInterface_from_store T a fl x safe st :
  reflect.load st a = Some x ->
  reflect.valueInterface (reflect.MkValue T (reflect.Indir a) fl) safe st
  = reflect.valueInterface (reflect.MkValue T (reflect.Direct x) fl) safe st.
Proof.
  intros Hl. pose proof (contents_Indir _ _ _ Hl) as Hc.
  unfold reflect.valueInterface.
  destruct (safe && reflect.flagRO fl); [reflexivity|].
  destruct (reflect.Kind_eqb (reflect.Type_Kind T) reflect.Interface);
    unfold reflect.bind; rewrite Hc; reflexivity.
Qed.

Lemma assignTo_from_store T a fl x context dst st :
  reflect.load st a = Some x ->
  reflect.assignTo (reflect.MkValue T (reflect.Indir a) fl) context dst st
  = reflect.assignTo (reflect.MkValue T (reflect.Direct x) fl) context dst st.
Proof.
  intros Hl. unfold reflect.assignTo.
  destruct (reflect.directlyAssignable dst T).
  { apply contents_Indir. exact Hl. }
  destruct (reflect.implements dst T); [|reflexivity].
  unfold reflect.bind.
  destruct (reflect.Kind_eqb (reflect.Type_Kind T) reflect.Interface).
  - rewrite (Value_IsNil_from_store _ _ _ _ _ Hl).
    destruct (reflect.Value_IsNil _ st) as [b st1| |] eqn:Hn; try reflexivity.
    pose proof (reads_only_Value_IsNil _ _ _ _ Hn) as ->.
    destruct b; [reflexivity|].
    rewrite (valueInterface_from_store _ _ _ _ _ _ Hl). reflexivity.
  - unfold reflect.ret at 1 3.
    rewrite (valueInterface_from_store _ _ _ _ _ _ Hl). reflexivity.
Qed.

(** Assigning from a place in the store is assigning what it holds. *)
Lemma Value_Set_from_store v T a fl x st :
  reflect.load st a = Some x ->
  reflect.Value_Set v (reflect.MkValue T (reflect.Indir a) fl) st
  = reflect.Value_Set v (reflect.MkValue T (reflect.Direct x) fl) st.
Proof.
  intros Hl. unfold reflect.Value_Set, reflect.bind.
  destruct (reflect.mustBeAssignable "reflect.Value.Set" v st)
    as [u st1| |] eqn:Ha; try reflexivity.
  assert (st1 = st) as ->.
  { revert Ha. unfold reflect.mustBeAssignable.
    destruct v as [|t d fl']; [discriminate|].
    destruct (reflect.flagRO fl'); [discriminate|].
    destruct (negb _); [discriminate|]. unfold reflect.ret. congruence. }
  unfold reflect.mustBeExported.
  destruct (reflect.flagRO fl); [reflexivity|]. unfold reflect.ret.
  destruct v as [|t d fl']; [reflexivity|].
  rewrite (assignTo_from_store _ _ _ _ _ _ _ Hl). reflexivity.
Qed.

(** C8, as the code has it.  For a value [x] of a type that is neither a
    pointer type nor an interface type, held at address [a], [Set] with a
    pointer to [a] does what [Set] with [x] does: same result, same final
    store. *)
Theorem Set_through_pointer f st pt T a x
    (Hpt : reflect.Type_Elem pt = Some T)
    (Hx : reflect.Type_Kind T <> reflect.Ptr)
    (Hconcrete : reflect.Type_Kind T <> reflect.Interface)
    (Ha : reflect.load st a = Some x) :
  Set_ f (Some (pt, reflect.VPtr (Some a))) st = Set_ f (Some (T, x)) st.
Proof.
  pose proof (Type_Elem_Kind _ _ Hpt) as Hk.
  unfold Set_, reflect.bind.
  destruct (reflect.Indirect (value f) st) as [v st1| |] eqn:Hi;
    try reflexivity.
  pose proof (reads_only_Indirect _ _ _ _ Hi) as ->.
  unfold checkForSet.
  destruct (negb (IsExported f)); [reflexivity|].
  destruct (negb (reflect.Value_CanSet v)); [reflexivity|].
  unfold reflect.bind.
  change (reflect.Value_Kind
            (reflect.ValueOf (Some (pt, reflect.VPtr (Some a)))))
    with (reflect.Type_Kind pt).
  change (reflect.Value_Kind (reflect.ValueOf (Some (T, x))))
    with (reflect.Type_Kind T).
  rewrite Hk, (Kind_eqb_neq _ _ Hx). simpl reflect.Kind_eqb. cbv iota.
  unfold reflect.Value_Elem, reflect.ValueOf, reflect.bind.
  rewrite Hk, Hpt. simpl.
  destruct (negb _); [reflexivity|].
  rewrite (Value_Set_from_store _ _ _ _ _ _ Ha). reflexivity.
Qed.

Lemma Set_through_pointer_witness :
  reflect.load Example.st0 (1%nat, []) = Some (reflect.VInt 41)
  /\ Set_ Example.fPort
       (Some (reflect.TPtr Example.int, reflect.VPtr (Some (1%nat, []))))
       Example.st0
     = Set_ Example.fPort (Some (Example.int, reflect.VInt 41)) Example.st0.
Proof.
  split; [reflexivity|].
  apply (Set_through_pointer Example.fPort Example.st0
           (reflect.TPtr Example.int) Example.int (1%nat, [])
           (reflect.VInt 41));
    [reflexivity | vm_compute; discriminate | vm_compute; discriminate
    | reflexivity].
Defined.

(** C8 as stated fails when [x] is itself a pointer, and when [x] is held
    in a variable of interface type.

    Cell 2 holds [x : *int], pointing at the 41 of cell 1.  [Set(x)]
    dereferences [x] and writes 41 into [Port]; [Set(&x)] dereferences
    only one of the two levels, finds a pointer and returns the "wrong
    kind" error.

    Cell 3 of [Hidden.boxed] holds [x : interface{}], boxing the [int] 41.
    [Set(x)] receives the [int] and writes 41 into [Port]; [Set(&x)]
    receives a [*interface{}], dereferences it to a value of kind
    interface and returns the "wrong kind" error. *)
Lemma Set_address_of_counterexample :
  (let x := Some (reflect.TPtr Example.int, reflect.VPtr (Some (1%nat, []))) in
   let addr_of_x :=
     Some (reflect.TPtr (reflect.TPtr Example.int),
           reflect.VPtr (Some (2%nat, []))) in
   IsExported Example.fPort = true
   /\ settable Example.fPort Example.st0 = true
   /\ reflect.load Example.st0 (2%nat, [])
      = Some (reflect.VPtr (Some (1%nat, [])))
   /\ Set_ Example.fPort x Example.st0
      = reflect.Ret None
          (<[0%nat := reflect.VStruct
               [reflect.VString "gopher"; reflect.VInt 41; reflect.VBool true;
                reflect.VPtr (Some (1%nat, [])); reflect.VInt 3;
                reflect.VStruct
                  [reflect.VStruct [reflect.VInt 9]; reflect.VInt 2];
                reflect.VStruct [reflect.VPtr None]]]> Example.st0)
   /\ Set_ Example.fPort addr_of_x Example.st0
      = reflect.Ret (Some (errorString "wrong kind: ptr want: int"))
          Example.st0)
  /\ (let x := Some (Example.int, reflect.VInt 41) in
      let addr_of_x :=
        Some (reflect.TPtr reflect.TInterface,
              reflect.VPtr (Some (3%nat, []))) in
      settable Example.fPort Hidden.boxed = true
      /\ reflect.load Hidden.boxed (3%nat, []) = Some (reflect.VIface x)
      /\ Set_ Example.fPort x Hidden.boxed
         = reflect.Ret None
             (<[0%nat := reflect.VStruct
                  [reflect.VString "gopher"; reflect.VInt 41;
                   reflect.VBool true;
                   reflect.VPtr (Some (1%nat, [])); reflect.VInt 3;
                   reflect.VStruct
                     [reflect.VStruct [reflect.VInt 9]; reflect.VInt 2];
                   reflect.VStruct [reflect.VPtr None]]]> Hidden.boxed)
      /\ Set_ Example.fPort addr_of_x Hidden.boxed
         = reflect.Ret (Some (errorString "wrong kind: interface want: int"))
             Hidden.boxed).
Proof. repeat split. Qed.

(** ** The descriptor and the store across calls *)

Lemma write_inv d w st u st' :
  reflect.write d w st = reflect.Ret u st' ->
  exists a, d = reflect.Indir a /\ reflect.store_at st a w = Some st'.
Proof.
  destruct d as [x|a]; simpl; [discriminate|].
  unfold reflect.bind, reflect.get_store, reflect.put_store.
  destruct (reflect.store_at st a w) as [st1|] eqn:E; simpl; [|discriminate].
  intros H. injection H as _ <-. eauto.
Qed.

Lemma reads_only_mustBeAssignable m v :
  reads_only (reflect.mustBeAssignable m v).
Proof. unfold reflect.mustBeAssignable. reads_only_tac. Qed.

Lemma reads_only_mustBeExported m v :
  reads_only (reflect.mustBeExported m v).
Proof. unfold reflect.mustBeExported. reads_only_tac. Qed.

Lemma reads_only_assignTo v c dst : reads_only (reflect.assignTo v c dst).
Proof. unfold reflect.assignTo. reads_only_tac. Qed.

Lemma reads_only_checkForSet f v val : reads_only (checkForSet f v val).
Proof. unfold checkForSet. reads_only_tac. Qed.

(** Each of the four writes of [reflect] changes the store at the address
    of the value written to. *)
Lemma Value_Set_writes v x st u st' :
  reflect.Value_Set v x st = reflect.Ret u st' ->
  exists t a fl w,
    v = reflect.MkValue t (reflect.Indir a) fl
    /\ reflect.store_at st a w = Some st'.
Proof.
  unfold reflect.Value_Set, reflect.bind. intros H.
  destruct (reflect.mustBeAssignable _ v st) as [u1 st1| |] eqn:E1;
    try discriminate.
  apply reads_only_mustBeAssignable in E1. subst st1.
  destruct (reflect.mustBeExported _ x st) as [u2 st2| |] eqn:E2;
    try discriminate.
  apply reads_only_mustBeExported in E2. subst st2.
  destruct v as [|t d fl]; [discriminate|].
  destruct (reflect.assignTo x _ t st) as [w st3| |] eqn:E3;
    try discriminate.
  apply reads_only_assignTo in E3. subst st3.
  destruct (write_inv _ _ _ _ _ H) as (a & -> & Hs). eauto 10.
Qed.

Lemma Value_SetInt_writes v z st u st' :
  reflect.Value_SetInt v z st = reflect.Ret u st' ->
  exists t a fl w,
    v = reflect.MkValue t (reflect.Indir a) fl
    /\ reflect.store_at st a w = Some st'.
Proof.
  unfold reflect.Value_SetInt, reflect.bind. intros H.
  destruct (reflect.mustBeAssignable _ v st) as [u1 st1| |] eqn:E1;
    try discriminate.
  apply reads_only_mustBeAssignable in E1. subst st1.
  destruct v as [|t d fl]; [discriminate|].
  destruct (reflect.Type_Kind t); try discriminate;
    destruct (write_inv _ _ _ _ _ H) as (a & -> & Hs); eauto 10.
Qed.

Lemma Value_SetUint_writes v z st u st' :
  reflect.Value_SetUint v z st = reflect.Ret u st' ->
  exists t a fl w,
    v = reflect.MkValue t (reflect.Indir a) fl
    /\ reflect.store_at st a w = Some st'.
Proof.
  unfold reflect.Value_SetUint, reflect.bind. intros H.
  destruct (reflect.mustBeAssignable _ v st) as [u1 st1| |] eqn:E1;
    try discriminate.
  apply reads_only_mustBeAssignable in E1. subst st1.
  destruct v as [|t d fl]; [discriminate|].
  destruct (reflect.Type_Kind t); try discriminate;
    destruct (write_inv _ _ _ _ _ H) as (a & -> & Hs); eauto 10.
Qed.

Lemma Value_SetFloat_writes v x st u st' :
  reflect.Value_SetFloat v x st = reflect.Ret u st' ->
  exists t a fl w,
    v = reflect.MkValue t (reflect.Indir a) fl
    /\ reflect.store_at st a w = Some st'.
Proof.
  unfold reflect.Value_SetFloat, reflect.bind. intros H.
  destruct (reflect.mustBeAssignable _ v st) as [u1 st1| |] eqn:E1;
    try discriminate.
  apply reads_only_mustBeAssignable in E1. subst st1.
  destruct v as [|t d fl]; [discriminate|].
  destruct (reflect.Type_Kind t); try discriminate;
    destruct (write_inv _ _ _ _ _ H) as (a & -> & Hs); eauto 10.
Qed.

(** The shape the four setters share: [Indirect], [checkForSet], then at
    most one write to the value [Indirect] returned. *)
Lemma setter_frame f val (w : reflect.Value -> reflect.Value -> reflect.M unit)
    (guard : reflect.Value -> reflect.Value -> option error) st e st' :
  (forall v g s u s', w v g s = reflect.Ret u s' ->
     exists t a fl x,
       v = reflect.MkValue t (reflect.Indir a) fl
       /\ reflect.store_at s a x = Some s') ->
  (let* v := reflect.Indirect (value f) in
   let* r := checkForSet f v val in
   match snd r with
   | Some err => reflect.ret (Some err)
   | None =>
       match guard v (fst r) with
       | Some err => reflect.ret (Some err)
       | None => w v (fst r) ;; reflect.ret None
       end
   end) st = reflect.Ret e st' ->
  st' = st \/ referenced_write f st st'.
Proof.
  intros Hw. unfold reflect.bind. intros H.
  destruct (reflect.Indirect (value f) st) as [v st1| |] eqn:Hi;
    try discriminate.
  pose proof (reads_only_Indirect _ _ _ _ Hi) as ->.
  destruct (checkForSet f v val st) as [r st2| |] eqn:Hc; try discriminate.
  pose proof (reads_only_checkForSet _ _ _ _ _ _ Hc) as ->.
  destruct (snd r); [left; unfold reflect.ret in H; congruence|].
  destruct (guard v (fst r)); [left; unfold reflect.ret in H; congruence|].
  destruct (w v (fst r) st) as [u st3| |] eqn:Hwr; try discriminate.
  unfold reflect.ret in H. injection H as _ <-.
  destruct (Hw _ _ _ _ _ Hwr) as (t & a & fl & x & -> & Hs).
  right. exists t, a, fl, x. auto.
Qed.

Lemma Set_frame f val st e st' :
  Set_ f val st = reflect.Ret e st' ->
  st' = st \/ referenced_write f st st'.
Proof.
  intros H.
  apply (setter_frame f val reflect.Value_Set
           (fun v g =>
              if negb (reflect.Kind_eqb (reflect.Value_Kind v)
                         (reflect.Value_Kind g))
              then Some (fmt_Errorf_wrong_kind (reflect.Value_Kind g)
                           (reflect.Value_Kind v))
              else None) st e st').
  - intros. eapply Value_Set_writes; eauto.
  - rewrite <- H. unfold Set_, reflect.bind.
    destruct (reflect.Indirect (value f) st); try reflexivity.
    destruct (checkForSet f a val st0); try reflexivity.
    destruct (snd a0); try reflexivity.
    destruct (negb _); reflexivity.
Qed.

Lemma SetInt_frame f z st e st' :
  SetInt f z st = reflect.Ret e st' ->
  st' = st \/ referenced_write f st st'.
Proof.
  intros H.
  eapply (setter_frame f _ (fun v _ => reflect.Value_SetInt v z)
            (fun _ _ => None)); [|exact H].
  intros. eapply Value_SetInt_writes; eauto.
Qed.

Lemma SetFloat_frame f x st e st' :
  SetFloat f x st = reflect.Ret e st' ->
  st' = st \/ referenced_write f st st'.
Proof.
  intros H.
  eapply (setter_frame f _ (fun v _ => reflect.Value_SetFloat v x)
            (fun _ _ => None)); [|exact H].
  intros. eapply Value_SetFloat_writes; eauto.
Qed.

Lemma SetUint_frame f z st e st' :
  SetUint f z st = reflect.Ret e st' ->
  st' = st \/ referenced_write f st st'.
Proof.
  intros H.
  eapply (setter_frame f _ (fun v _ => reflect.Value_SetUint v z)
            (fun _ _ => None)); [|exact H].
  intros. eapply Value_SetUint_writes; eauto.
Qed.

(** One call: the receiver comes back as it went in; the store is the
    same, or the call was a setter and wrote the referenced storage. *)
Lemma call_frame tag fuel o f st r st' :
  call tag fuel o f st = reflect.Ret r st' ->
  fst r = f
  /\ (st' = st \/ (is_setter o = true /\ referenced_write f st st')).
Proof.
  destruct o; simpl; unfold reflect.bind, reflect.ret; intros H;
    try (injection H as <- <-; auto).
  - destruct (Value f st) as [a s1| |] eqn:E; try discriminate.
    apply reads_only_Value in E. injection H as <- <-. auto.
  - destruct (IsZero fuel f st) as [a s1| |] eqn:E; try discriminate.
    apply reads_only_IsZero in E. injection H as <- <-. auto.
  - destruct (Set_ f val st) as [a s1| |] eqn:E; try discriminate.
    apply Set_frame in E. injection H as <- <-. intuition.
  - destruct (SetInt f val st) as [a s1| |] eqn:E; try discriminate.
    apply SetInt_frame in E. injection H as <- <-. intuition.
  - destruct (SetFloat f val st) as [a s1| |] eqn:E; try discriminate.
    apply SetFloat_frame in E. injection H as <- <-. intuition.
  - destruct (SetUint f val st) as [a s1| |] eqn:E; try discriminate.
    apply SetUint_frame in E. injection H as <- <-. intuition.
  - destruct (Fields f st) as [a s1| |] eqn:E; try discriminate.
    apply reads_only_Fields in E. injection H as <- <-. auto.
  - destruct (Field_ f name st) as [a s1| |] eqn:E; try discriminate.
    apply reads_only_Field_ in E. injection H as <- <-. auto.
  - destruct (FieldOk f name st) as [a s1| |] eqn:E; try discriminate.
    apply reads_only_FieldOk in E. injection H as <- <-. auto.
Qed.

(** C9.  Whatever sequence of the fourteen operations runs on an accessor,
    the accessor that comes out is the one that went in: same name, tag,
    anonymous flag, package path, and same value handle.  The store
    changes only by writes to the storage the accessor refers to, and not
    at all when the sequence has no [Set], [SetInt], [SetFloat] or
    [SetUint]. *)
Theorem descriptor_never_changes tag fuel ops f st f' outs st'
    (Hrun : run tag fuel ops f st = reflect.Ret (f', outs) st') :
  f' = f
  /\ field f' = field f
  /\ written_through f st st'
  /\ (forallb (fun o => negb (is_setter o)) ops = true -> st' = st).
Proof.
  revert f st f' outs st' Hrun.
  induction ops as [|o ops IH]; intros f st f' outs st' Hrun; simpl in Hrun.
  - unfold reflect.ret in Hrun. injection Hrun as <- _ <-.
    repeat split. constructor.
  - unfold reflect.bind in Hrun.
    destruct (call tag fuel o f st) as [r s1| |] eqn:Hc; try discriminate.
    destruct (run tag fuel ops (fst r) s1) as [[g outs'] s2| |] eqn:Hr;
      try discriminate.
    unfold reflect.ret in Hrun. simpl in Hrun. injection Hrun as <- _ <-.
    destruct (call_frame _ _ _ _ _ _ _ Hc) as [Hf Hs].
    rewrite Hf in Hr. destruct (IH _ _ _ _ _ Hr) as (-> & _ & Hw & Hn).
    repeat split.
    + destruct Hs as [->|[_ Hs]]; [exact Hw|].
      econstructor; eauto.
    + simpl. intros Hall. apply andb_prop in Hall as [Ho Hall].
      rewrite (Hn Hall).
      destruct Hs as [->|[Hset _]]; [reflexivity|].
      rewrite Hset in Ho. discriminate.
Qed.

Lemma descriptor_never_changes_witness :
  exists outs st',
    run Example.no_tags 3
      [OpName; OpSet (Some (Example.int, reflect.VInt 8080)); OpValue;
       OpIsZero; OpTag "json"; OpSetInt 443; OpKind]
      Example.fPort Example.st0
    = reflect.Ret (Example.fPort, outs) st'
    /\ field Example.fPort = field Example.fPort
    /\ written_through Example.fPort Example.st0 st'.
Proof.
  eexists _, _.
  assert (H : run Example.no_tags 3
      [OpName; OpSet (Some (Example.int, reflect.VInt 8080)); OpValue;
       OpIsZero; OpTag "json"; OpSetInt 443; OpKind]
      Example.fPort Example.st0
    = reflect.Ret (Example.fPort, _) _) by (vm_compute; reflexivity).
  split; [exact H|].
  destruct (descriptor_never_changes _ _ _ _ _ _ _ _ H) as (_ & Hd & Hw & _).
  split; [exact Hd | exact Hw].
Defined.

(** ** Struct values and their fields *)

Lemma type_depth_underlying t :
  reflect.type_depth (reflect.underlying t) = reflect.type_depth t.
Proof. induction t; simpl; auto. Qed.

Lemma zero_val_struct fs :
  reflect.zero_val (reflect.TStruct fs)
  = reflect.VStruct (map (fun f => reflect.zero_val (reflect.sf_typ f)) fs).
Proof.
  simpl. f_equal.
  induction fs as [|[fn fp ft fg fe] fs IH]; simpl; [reflexivity|].
  f_equal. exact IH.
Qed.

Lemma has_type_struct fs v :
  reflect.has_type (reflect.TStruct fs) v = true ->
  exists xs,
    v = reflect.VStruct xs
    /\ Forall2 (fun f x => reflect.has_type (reflect.sf_typ f) x = true) fs xs.
Proof.
  destruct v as [| | | | | |xs|]; simpl; try discriminate.
  intros H. exists xs. split; [reflexivity|].
  revert xs H.
  induction fs as [|[fn fp ft fg fe] fs IH]; intros [|x xs]; simpl;
    try discriminate; [constructor|].
  intros H. apply andb_prop in H as [H1 H2]. constructor; auto.
Qed.

Lemma type_depth_field fs i f :
  fs !! i = Some f ->
  (reflect.type_depth (reflect.sf_typ f)
   < reflect.type_depth (reflect.TStruct fs))%nat.
Proof.
  simpl. revert i.
  induction fs as [|[fn fp ft fg fe] fs IH]; intros [|i] H; simpl in *;
    try discriminate.
  - injection H as <-. simpl. lia.
  - specialize (IH _ H). lia.
Qed.

Lemma lookup_map {A B} (g : A -> B) (l : list A) i :
  map g l !! i = option_map g (l !! i).
Proof.
  revert i. induction l as [|a l IH]; intros [|i]; simpl; auto.
Qed.

Lemma val_at_app v p q w :
  reflect.val_at v p = Some w ->
  reflect.val_at v (p ++ q)%list = reflect.val_at w q.
Proof.
  revert v. induction p as [|i p IH]; intros v H; simpl in *.
  - congruence.
  - destruct v; try discriminate.
    destruct (fs !! i); try discriminate. eauto.
Qed.

Lemma load_field st a xs i :
  reflect.load st a = Some (reflect.VStruct xs) ->
  reflect.load st (fst a, (snd a ++ [i])%list) = xs !! i.
Proof.
  unfold reflect.load. simpl.
  destruct (st !! a.1) as [v|]; [|discriminate].
  intros H. rewrite (val_at_app _ _ [i] _ H). simpl.
  destruct (xs !! i); reflexivity.
Qed.

Lemma contents_load d st x :
  reflect.contents d st = reflect.Ret x st ->
  match d with
  | reflect.Direct y => y = x
  | reflect.Indir a => reflect.load st a = Some x
  end.
Proof.
  destruct d as [y|a]; simpl.
  - unfold reflect.ret. congruence.
  - unfold reflect.bind, reflect.get_store.
    destruct (reflect.load st a); simpl; unfold reflect.ret, reflect.stuck;
      congruence.
Qed.

(** [v.Field(i)] of a stored struct is stored, and holds the field. *)
Lemma Value_Field_stored st t d fl i f xs w :
  reflect.Type_Kind t = reflect.Struct ->
  reflect.Type_fields t !! i = Some f ->
  reflect.contents d st = reflect.Ret (reflect.VStruct xs) st ->
  xs !! i = Some w ->
  exists d',
    reflect.Value_Field (reflect.MkValue t d fl) i st
    = reflect.Ret (reflect.MkValue (reflect.sf_typ f) d'
                     (reflect.fieldFlag fl f)) st
    /\ reflect.contents d' st = reflect.Ret w st
    /\ (forall y, d = reflect.Direct y -> d' = reflect.Direct w).
Proof.
  intros Hk Hf Hc Hw. unfold reflect.Value_Field.
  rewrite Hk, Hf. simpl.
  pose proof (contents_load _ _ _ Hc) as Hl.
  destruct d as [y|a].
  - subst y. unfold reflect.bind. rewrite Hw. simpl.
    eexists. split; [reflexivity|]. split; [reflexivity|]. auto.
  - eexists. split; [reflexivity|]. split; [|discriminate].
    simpl. unfold reflect.bind, reflect.get_store.
    rewrite (load_field _ _ _ i Hl), Hw. reflexivity.
Qed.

(** ** [IsZero]: comparison against the zero value *)

Lemma deepFieldsEqual_zero st eq t d1 fl1 fl2 fs xs :
  reflect.Type_Kind t = reflect.Struct ->
  reflect.underlying t = reflect.TStruct fs ->
  reflect.contents d1 st = reflect.Ret (reflect.VStruct xs) st ->
  Forall2 (fun f x => reflect.has_type (reflect.sf_typ f) x = true) fs xs ->
  (forall i f, fs !! i = Some f ->
     forall d fl fl' x,
       reflect.contents d st = reflect.Ret x st ->
       reflect.has_type (reflect.sf_typ f) x = true ->
       exists b,
         eq (reflect.MkValue (reflect.sf_typ f) d fl)
            (reflect.MkValue (reflect.sf_typ f)
               (reflect.Direct (reflect.zero_val (reflect.sf_typ f))) fl') st
         = reflect.Ret b st
         /\ (b = true <-> deep_eq st x (reflect.zero_val (reflect.sf_typ f)))) ->
  forall idx,
    (forall i, In i idx -> (i < length fs)%nat) ->
    exists b,
      reflect.deepFieldsEqual eq (reflect.MkValue t d1 fl1)
        (reflect.MkValue t (reflect.Direct (reflect.zero_val t)) fl2) idx st
      = reflect.Ret b st
      /\ (b = true <->
          forall i, In i idx ->
            forall x f, xs !! i = Some x -> fs !! i = Some f ->
              deep_eq st x (reflect.zero_val (reflect.sf_typ f))).
Proof.
  intros Hk Hu Hc Hty Heq.
  assert (Hfs : reflect.Type_fields t = fs).
  { unfold reflect.Type_fields. rewrite Hu. reflexivity. }
  assert (Hz : reflect.contents (reflect.Direct (reflect.zero_val t)) st
               = reflect.Ret
                   (reflect.VStruct
                      (map (fun f => reflect.zero_val (reflect.sf_typ f)) fs))
                   st).
  { simpl. rewrite zero_val_underlying, Hu, zero_val_struct. reflexivity. }
  induction idx as [|i idx IH]; intros Hidx.
  - exists true. split; [reflexivity|]. split; [|reflexivity].
    intros _ i [].
  - destruct IH as (b' & Hb' & Hiff').
    { intros j Hj. apply Hidx. right. exact Hj. }
    assert (Hi : (i < length fs)%nat) by (apply Hidx; left; reflexivity).
    destruct (lookup_lt_is_Some_2 fs i Hi) as [f Hf].
    destruct (Forall2_lookup_l _ _ _ _ _ Hty Hf) as (x & Hx & Hxt).
    destruct (Value_Field_stored st t d1 fl1 i f xs x Hk
                ltac:(rewrite Hfs; exact Hf) Hc Hx) as (d' & Hv1 & Hc' & _).
    destruct (Value_Field_stored st t _ fl2 i f _
                (reflect.zero_val (reflect.sf_typ f)) Hk
                ltac:(rewrite Hfs; exact Hf) Hz
                ltac:(rewrite lookup_map, Hf; reflexivity))
      as (d'' & Hv2 & _ & Hd'').
    rewrite (Hd'' _ eq_refl) in Hv2.
    destruct (Heq i f Hf d' (reflect.fieldFlag fl1 f)
                (reflect.fieldFlag fl2 f) x Hc' Hxt) as (b & Hb & Hiff).
    cbn [reflect.deepFieldsEqual]. unfold reflect.bind. rewrite Hv1, Hv2, Hb.
    destruct b.
    + exists b'. split; [exact Hb'|]. rewrite Hiff'. split.
      * intros H j [<-|Hj] y g Hy Hg.
        -- rewrite Hx in Hy. rewrite Hf in Hg.
           injection Hy as <-. injection Hg as <-. apply Hiff. reflexivity.
        -- eapply H; eauto.
      * intros H j Hj. apply H. right. exact Hj.
    + exists false. split; [reflexivity|]. split; [discriminate|].
      intros H. apply Hiff. eapply H; eauto. left. reflexivity.
Qed.

Lemma deep_eq_basic st b x :
  reflect.has_basic_type b x = true ->
  exists r,
    reflect.scalar_eq x (reflect.zero_basic b) = Some r
    /\ (r = true <-> deep_eq st x (reflect.zero_basic b)).
Proof.
  destruct b, x; simpl; try discriminate; intros _; eexists;
    (split; [reflexivity|]); split; intros H;
    try (inversion H; subst; try reflexivity; assumption);
    repeat match goal with
      | H : Bool.eqb _ _ = true |- _ => apply Bool.eqb_prop in H; subst
      | H : Z.eqb _ _ = true |- _ => apply Z.eqb_eq in H; subst
      | H : String.eqb _ _ = true |- _ => apply String.eqb_eq in H; subst
      end;
    try (constructor; assumption).
Qed.

Lemma contents_zero t st :
  reflect.contents (reflect.Direct (reflect.zero_val t)) st
  = reflect.Ret (reflect.zero_val (reflect.underlying t)) st.
Proof. simpl. rewrite <- zero_val_underlying. reflexivity. Qed.

Lemma Value_pointer_stored t d fl p st :
  reflect.contents d st = reflect.Ret (reflect.VPtr p) st ->
  reflect.Value_pointer (reflect.MkValue t d fl) st = reflect.Ret p st.
Proof.
  intros Hc. unfold reflect.Value_pointer, reflect.bind. rewrite Hc.
  reflexivity.
Qed.

Lemma Value_Elem_pointer t e d fl a st :
  reflect.underlying t = reflect.TPtr e ->
  reflect.contents d st = reflect.Ret (reflect.VPtr (Some a)) st ->
  reflect.Value_Elem (reflect.MkValue t d fl) st
  = reflect.Ret (reflect.MkValue e (reflect.Indir a) fl) st.
Proof.
  intros Hu Hc.
  unfold reflect.Value_Elem, reflect.Type_Kind, reflect.Type_Elem.
  rewrite Hu. unfold reflect.bind. rewrite Hc. reflexivity.
Qed.

Lemma Value_Elem_nil_pointer t e d fl st :
  reflect.underlying t = reflect.TPtr e ->
  reflect.contents d st = reflect.Ret (reflect.VPtr None) st ->
  reflect.Value_Elem (reflect.MkValue t d fl) st
  = reflect.Ret reflect.Value0 st.
Proof.
  intros Hu Hc. unfold reflect.Value_Elem, reflect.Type_Kind.
  rewrite Hu. unfold reflect.bind. rewrite Hc. reflexivity.
Qed.

Lemma Value_IsNil_interface t d fl e st :
  reflect.underlying t = reflect.TInterface ->
  reflect.contents d st = reflect.Ret (reflect.VIface e) st ->
  reflect.Value_IsNil (reflect.MkValue t d fl) st
  = reflect.Ret (negb (reflect.is_Some_b e)) st.
Proof.
  intros Hu Hc. unfold reflect.Value_IsNil, reflect.Type_Kind.
  rewrite Hu. unfold reflect.bind. rewrite Hc. reflexivity.
Qed.

Lemma deepValueEqual_invalid fuel v st :
  reflect.deepValueEqual (S fuel) v reflect.Value0 st
  = reflect.Ret (Bool.eqb (reflect.Value_IsValid v) false) st.
Proof.
  simpl. rewrite orb_true_r. reflexivity.
Qed.

(** Against the zero value of its type, [deepValueEqual] finishes within
    the nesting depth of the type and decides deep equality. *)
Lemma deepValueEqual_zero st :
  forall fuel t d fl fl' x,
    (reflect.type_depth t < fuel)%nat ->
    reflect.contents d st = reflect.Ret x st ->
    reflect.has_type t x = true ->
    exists b,
      reflect.deepValueEqual fuel (reflect.MkValue t d fl)
        (reflect.MkValue t (reflect.Direct (reflect.zero_val t)) fl') st
      = reflect.Ret b st
      /\ (b = true <-> deep_eq st x (reflect.zero_val t)).
Proof.
  induction fuel as [|fuel IH]; intros t d fl fl' x Hd Hc Ht; [lia|].
  cbn [reflect.deepValueEqual reflect.Value_IsValid negb orb
       reflect.Value_Type reflect.Value_Kind].
  unfold reflect.bind at 1 2. unfold reflect.ret at 1 2.
  rewrite type_eqb_refl. cbn [negb].
  rewrite <- type_depth_underlying in Hd.
  rewrite has_type_underlying in Ht.
  pose proof (contents_zero t st) as Hz.
  set (dz := reflect.Direct (reflect.zero_val t)) in *.
  rewrite (zero_val_underlying t).
  destruct (reflect.underlying t) as [b|n u|e|fs|] eqn:Hu; subst dz.
  - (* predeclared types *)
    destruct (deep_eq_basic st b x Ht) as (r & Hr & Hiff).
    exists r. split; [|exact Hiff].
    assert (Hs : (let* x0 := reflect.contents d in
                  let* y := reflect.contents
                              (reflect.Direct (reflect.zero_val t)) in
                  reflect.lift_option (reflect.scalar_eq x0 y)) st
                 = reflect.Ret r st).
    { unfold reflect.bind. rewrite Hc, Hz. simpl. rewrite Hr. reflexivity. }
    assert (Hk : reflect.Type_Kind t = reflect.basic_kind b).
    { unfold reflect.Type_Kind. rewrite Hu. reflexivity. }
    rewrite Hk. destruct b; exact Hs.
  - exfalso. eapply underlying_not_named; eauto.
  - (* pointers *)
    assert (Hk : reflect.Type_Kind t = reflect.Ptr).
    { unfold reflect.Type_Kind. rewrite Hu. reflexivity. }
    rewrite Hk. cbv iota.
    simpl in Ht. destruct x as [| | | | |p| |]; try discriminate.
    unfold reflect.bind.
    rewrite (Value_pointer_stored _ _ _ _ _ Hc).
    rewrite (Value_pointer_stored _ _ _ None _ Hz).
    destruct p as [a|].
    + assert (Hp : reflect.ptr_eqb (Some a) None = false) by reflexivity.
      rewrite Hp.
      rewrite (Value_Elem_pointer _ _ _ _ _ _ Hu Hc).
      rewrite (Value_Elem_nil_pointer _ _ _ _ _ Hu Hz).
      simpl in Hd. destruct fuel as [|fuel]; [lia|].
      rewrite deepValueEqual_invalid.
      exists false. split; [reflexivity|]. split; [discriminate|].
      intros H. inversion H.
    + exists true. split; [reflexivity|]. split; [|reflexivity].
      intros _. constructor.
  - (* structs *)
    destruct (has_type_struct _ _ Ht) as (xs & -> & Hty).
    assert (Hk : reflect.Type_Kind t = reflect.Struct).
    { unfold reflect.Type_Kind. rewrite Hu. reflexivity. }
    rewrite Hk. cbv iota.
    unfold reflect.bind at 1.
    assert (Hn : reflect.Value_NumField (reflect.MkValue t d fl) st
                 = reflect.Ret (length fs) st).
    { unfold reflect.Value_NumField, reflect.mustBe, reflect.bind. simpl.
      rewrite Hk. simpl. unfold reflect.Type_fields. rewrite Hu.
      reflexivity. }
    rewrite Hn.
    destruct (deepFieldsEqual_zero st (reflect.deepValueEqual fuel) t d fl fl'
                fs xs Hk Hu Hc Hty) with (idx := seq 0 (length fs))
      as (b & Hb & Hiff).
    { intros i f Hf d0 fl0 fl0' x0 Hc0 Ht0. apply IH; auto.
      pose proof (type_depth_field _ _ _ Hf). lia. }
    { intros i Hi. apply in_seq in Hi. lia. }
    exists b. split; [exact Hb|]. rewrite Hiff.
    rewrite zero_val_struct.
    split.
    + intros H. constructor.
      apply Forall2_same_length_lookup. split.
      * rewrite length_map. symmetry. eapply Forall2_length; eauto.
      * intros i y z Hy Hz'. rewrite lookup_map in Hz'.
        destruct (fs !! i) as [f|] eqn:Hf; [|discriminate].
        injection Hz' as <-. eapply H; eauto.
        apply in_seq. apply lookup_lt_Some in Hf. lia.
    + intros H i Hi y f Hy Hf. inversion H as [| | | | | | |? ? HF| |]; subst.
      destruct (Forall2_lookup_l _ _ _ _ _ HF Hy) as (z & Hz' & Hyz).
      rewrite lookup_map, Hf in Hz'. injection Hz' as <-. exact Hyz.
  - (* the empty interface *)
    assert (Hk : reflect.Type_Kind t = reflect.Interface).
    { unfold reflect.Type_Kind. rewrite Hu. reflexivity. }
    rewrite Hk. cbv iota.
    simpl in Ht. destruct x as [| | | | | | |e]; try discriminate.
    unfold reflect.bind.
    rewrite (Value_IsNil_interface _ _ _ _ _ Hu Hc).
    rewrite (Value_IsNil_interface _ _ _ None _ Hu Hz).
    simpl. rewrite orb_true_r.
    destruct e as [[t' y]|]; simpl.
    + exists false. split; [reflexivity|]. split; [discriminate|].
      intros H. inversion H.
    + exists true. split; [reflexivity|]. split; [|reflexivity].
      intros _. constructor.
Qed.

Lemma Field_wf_inv f st :
  Field_wf f st = true ->
  exists t d fl x,
    value f = reflect.MkValue t d fl
    /\ reflect.contents d st = reflect.Ret x st
    /\ reflect.has_type t x = true
    /\ reflect.flagRO fl = negb (IsExported f).
Proof.
  unfold Field_wf. intros H. apply andb_prop in H as [Hs Hro].
  destruct (Field_stored_inv _ _ Hs) as (t & d & fl & x & Hv & Hc & Ht).
  exists t, d, fl, x. repeat split; auto.
  rewrite Hv in Hro. simpl in Hro. apply Bool.eqb_prop in Hro. exact Hro.
Qed.

Lemma Field_wf_stored f st :
  Field_wf f st = true -> Field_stored f st = true.
Proof. unfold Field_wf. intros H. apply andb_prop in H as [Hs _]. exact Hs. Qed.

Lemma Field_wf_readable f st :
  Field_wf f st = true -> IsExported f = true ->
  reflect.Value_ro (value f) = false.
Proof.
  intros Hwf Hexp.
  destruct (Field_wf_inv _ _ Hwf) as (t & d & fl & x & Hv & _ & _ & Hro).
  rewrite Hv. simpl. rewrite Hro, Hexp. reflexivity.
Qed.

Lemma Zero_Interface t st :
  reflect.Value_Interface (reflect.Zero t) st = reflect.Ret (zero_any t) st.
Proof.
  unfold reflect.Value_Interface, reflect.valueInterface, reflect.Zero,
    zero_any.
  change (true && reflect.flagRO reflect.flag0) with false. cbv iota.
  destruct (reflect.Kind_eqb (reflect.Type_Kind t) reflect.Interface) eqn:Hk.
  - apply Kind_eqb_eq, Type_Kind_Interface in Hk.
    unfold reflect.bind. rewrite contents_zero, Hk. reflexivity.
  - reflexivity.
Qed.

Lemma Value_Interface_interface t d fl e st :
  reflect.flagRO fl = false ->
  reflect.Type_Kind t = reflect.Interface ->
  reflect.contents d st = reflect.Ret (reflect.VIface e) st ->
  reflect.Value_Interface (reflect.MkValue t d fl) st = reflect.Ret e st.
Proof.
  intros Hro Hk Hc. unfold reflect.Value_Interface, reflect.valueInterface.
  rewrite Hro, Hk. simpl. unfold reflect.bind. rewrite Hc. reflexivity.
Qed.

Lemma Value_Interface_concrete t d fl x st :
  reflect.flagRO fl = false ->
  reflect.Type_Kind t <> reflect.Interface ->
  reflect.contents d st = reflect.Ret x st ->
  reflect.Value_Interface (reflect.MkValue t d fl) st
  = reflect.Ret (Some (t, x)) st.
Proof.
  intros Hro Hk Hc. unfold reflect.Value_Interface, reflect.valueInterface.
  rewrite Hro, (Kind_eqb_neq _ _ Hk). simpl. unfold reflect.bind.
  rewrite Hc. reflexivity.
Qed.

Lemma IsZero_unfold fuel f t current st :
  reflect.Value_Type (value f) st = reflect.Ret t st ->
  Value f st = reflect.Ret current st ->
  IsZero fuel f st = reflect.DeepEqual fuel current (zero_any t) st.
Proof.
  intros Ht Hv. unfold IsZero, reflect.bind.
  rewrite Ht, Zero_Interface, Hv. reflexivity.
Qed.

(** What [Value] and [IsZero] do on an accessor whose handle is not
    read-only. *)
Lemma IsZero_readable f st :
  Field_stored f st = true -> reflect.Value_ro (value f) = false ->
  exists t current b,
    reflect.Value_Type (value f) st = reflect.Ret t st
    /\ Value f st = reflect.Ret current st
    /\ (forall fuel, (reflect.type_depth t < fuel)%nat ->
          IsZero fuel f st = reflect.Ret b st)
    /\ (b = true <-> any_deep_eq st current (zero_any t)).
Proof.
  intros Hs Hro.
  destruct (Field_stored_inv _ _ Hs) as (t & d & fl & x & Hv & Hc & Ht).
  rewrite Hv in Hro. simpl in Hro.
  assert (HT : reflect.Value_Type (value f) st = reflect.Ret t st)
    by (rewrite Hv; reflexivity).
  destruct (reflect.Kind_eqb (reflect.Type_Kind t) reflect.Interface) eqn:Hk.
  - (* a field of interface type *)
    apply Kind_eqb_eq in Hk.
    destruct (has_type_Interface _ _ Hk Ht) as [e ->].
    assert (HV : Value f st = reflect.Ret e st).
    { unfold Value. rewrite Hv.
      apply Value_Interface_interface; assumption. }
    exists t, e, (negb (reflect.is_Some_b e)).
    split; [exact HT|]. split; [exact HV|]. split.
    + intros fuel _. rewrite (IsZero_unfold _ _ _ _ _ HT HV).
      unfold zero_any. rewrite Hk. simpl.
      destruct e as [[t' y]|]; reflexivity.
    + unfold zero_any. rewrite Hk. simpl.
      destruct e as [[t' y]|]; simpl; intuition discriminate.
  - (* any other field *)
    assert (Hk' : reflect.Type_Kind t <> reflect.Interface).
    { intros E. rewrite E in Hk. discriminate. }
    assert (HV : Value f st = reflect.Ret (Some (t, x)) st).
    { unfold Value. rewrite Hv.
      apply Value_Interface_concrete; assumption. }
    destruct (deepValueEqual_zero st (S (reflect.type_depth t)) t
                (reflect.Direct x) reflect.flag0 reflect.flag0 x
                ltac:(lia) eq_refl Ht) as (b & _ & Hiff).
    exists t, (Some (t, x)), b.
    split; [exact HT|]. split; [exact HV|]. split.
    + intros fuel Hfuel. rewrite (IsZero_unfold _ _ _ _ _ HT HV).
      unfold zero_any. rewrite Hk.
      unfold reflect.DeepEqual. rewrite type_eqb_refl.
      cbn [negb reflect.ValueOf].
      destruct (deepValueEqual_zero st fuel t
                  (reflect.Direct x) reflect.flag0 reflect.flag0 x
                  Hfuel eq_refl Ht) as (b' & Hb' & Hiff').
      rewrite Hb'. f_equal.
      destruct b, b'; try reflexivity; exfalso.
      * assert (false = true) by (apply Hiff', Hiff; reflexivity).
        discriminate.
      * assert (false = true) by (apply Hiff, Hiff'; reflexivity).
        discriminate.
    + unfold zero_any. rewrite Hk. simpl. rewrite Hiff. intuition.
Qed.










(** ** The accessors [Fields] builds *)

Lemma fieldFlag_ro_inherit fl fd :
  reflect.flagRO fl = false ->
  reflect.flagRO (reflect.fieldFlag fl fd) = negb (reflect.sf_exported fd).
Proof.
  unfold reflect.flagRO, reflect.fieldFlag. intros H.
  apply orb_false_elim in H as [-> _].
  destruct (reflect.sf_exported fd); [reflexivity|].
  destruct (reflect.sf_embedded fd); reflexivity.
Qed.

Lemma fieldsAt_wf st t d fl fs xs :
  reflect.Type_Kind t = reflect.Struct ->
  reflect.Type_fields t = fs ->
  reflect.contents d st = reflect.Ret (reflect.VStruct xs) st ->
  Forall2 (fun f x => reflect.has_type (reflect.sf_typ f) x = true) fs xs ->
  reflect.flagRO fl = false ->
  forall idx,
    (forall i, In i idx -> (i < length fs)%nat) ->
    exists gs,
      fieldsAt t (reflect.MkValue t d fl) idx st = reflect.Ret gs st
      /\ Forall (fun g => Field_wf g st = true) gs
      /\ map Name gs
         = map (fun i => match fs !! i with
                         | Some fd => reflect.sf_name fd
                         | None => ""
                         end) idx.
Proof.
  intros Hk Hfs Hc Hty Hro.
  induction idx as [|i idx IH]; intros Hidx.
  - exists []. repeat split. constructor.
  - destruct IH as (gs & Hgs & Hwf & Hdesc).
    { intros j Hj. apply Hidx. right. exact Hj. }
    assert (Hi : (i < length fs)%nat) by (apply Hidx; left; reflexivity).
    destruct (lookup_lt_is_Some_2 fs i Hi) as [fd Hfd].
    destruct (Forall2_lookup_l _ _ _ _ _ Hty Hfd) as (w & Hw & Hwt).
    destruct (Value_Field_stored st t d fl i fd xs w Hk
                ltac:(rewrite Hfs; exact Hfd) Hc Hw) as (d' & Hvf & Hc' & _).
    cbn [fieldsAt]. unfold reflect.bind, reflect.Type_Field.
    rewrite Hk, Hfs, Hfd. cbn [reflect.Kind_eqb reflect.ret].
    rewrite Hvf, Hgs.
    eexists. split; [reflexivity|]. split.
    + constructor; [|exact Hwf].
      unfold Field_wf, Field_stored. cbn [value field].
      rewrite Hc', Hwt. simpl.
      rewrite (fieldFlag_ro_inherit _ _ Hro).
      unfold IsExported, reflect.sf_exported. simpl.
      destruct (String.eqb (reflect.sf_pkgPath fd) ""); reflexivity.
    + simpl. rewrite Hfd, Hdesc. reflexivity.
Qed.

(** On an exported accessor of struct kind, [Fields] returns one accessor
    per declared field, in declaration order, each one stored and
    read-only exactly when its field is not exported. *)
Lemma Fields_wf f st t :
  Field_wf f st = true -> IsExported f = true ->
  reflect.Value_Type (value f) st = reflect.Ret t st ->
  Kind f = reflect.Struct ->
  exists gs,
    Fields f st = reflect.Ret gs st
    /\ Forall (fun g => Field_wf g st = true) gs
    /\ map Name gs = declared_names t.
Proof.
  intros Hwf Hexp HT Hk.
  destruct (Field_wf_inv _ _ Hwf) as (t' & d & fl & x & Hv & Hc & Ht & Hro).
  rewrite Hexp in Hro. simpl in Hro.
  rewrite Hv in HT. simpl in HT. unfold reflect.ret in HT.
  injection HT as ->.
  unfold Kind in Hk. rewrite Hv in Hk. simpl in Hk.
  destruct (Type_Kind_Struct _ Hk) as [fs Hu].
  rewrite has_type_underlying, Hu in Ht.
  destruct (has_type_struct _ _ Ht) as (xs & -> & Hty).
  assert (Hfs : reflect.Type_fields t = fs).
  { unfold reflect.Type_fields. rewrite Hu. reflexivity. }
  destruct (fieldsAt_wf st t d fl fs xs Hk Hfs Hc Hty Hro (seq 0 (length fs)))
    as (gs & Hgs & Hgwf & Hdesc).
  { intros i Hi. apply in_seq in Hi. lia. }
  exists gs. split; [|split; [exact Hgwf|]].
  - unfold Fields, getFields. rewrite Hv.
    cbn [reflect.Value_IsValid reflect.Value_ro negb orb]. rewrite Hro.
    unfold reflect.bind. cbn [reflect.Value_Type reflect.ret].
    unfold reflect.Type_NumField. rewrite Hk, Hfs.
    cbn [reflect.Kind_eqb reflect.ret]. exact Hgs.
  - unfold declared_names. rewrite Hfs, Hdesc. clear.
    induction fs as [|fd fs IH]; simpl; [reflexivity|].
    f_equal. rewrite <- seq_shift, map_map. exact IH.
Qed.

(** ** Looking a field up by name *)

Lemma name_absent_underlying name t :
  name_absent name t = name_absent name (reflect.underlying t).
Proof. induction t; simpl; auto. Qed.

Lemma name_absent_fields name t :
  name_absent name t = true ->
  Forall (fun f => String.eqb (reflect.sf_name f) name = false
                   /\ (reflect.sf_embedded f = true ->
                       name_absent name (reflect.sf_typ f) = true))
    (reflect.Type_fields t).
Proof.
  rewrite name_absent_underlying. unfold reflect.Type_fields.
  destruct (reflect.underlying t) as [b|n u|e|fs|]; try (intros; constructor).
  simpl. induction fs as [|[fn fp ft fg fe] fs IH]; intros H; [constructor|].
  apply andb_prop in H as [H H3]. apply andb_prop in H as [H1 H2].
  constructor; [|apply IH; exact H3]. simpl. split.
  - destruct (String.eqb fn name); [discriminate|reflexivity].
  - intros ->. exact H2.
Qed.

Lemma type_depth_Type_fields t f :
  In f (reflect.Type_fields t) ->
  (reflect.type_depth (reflect.sf_typ f) < reflect.type_depth t)%nat.
Proof.
  rewrite <- (type_depth_underlying t). unfold reflect.Type_fields.
  destruct (reflect.underlying t) as [b|n u|e|fs|]; try (intros []).
  intros Hin. apply list_elem_of_In, list_elem_of_lookup in Hin as [i Hi].
  eapply type_depth_field; eauto.
Qed.

Lemma embedded_typ_absent name f nt :
  reflect.embedded_typ f = Some nt ->
  (reflect.sf_embedded f = true ->
   name_absent name (reflect.sf_typ f) = true) ->
  name_absent name nt = true
  /\ (reflect.type_depth nt <= reflect.type_depth (reflect.sf_typ f))%nat.
Proof.
  unfold reflect.embedded_typ.
  destruct (reflect.sf_embedded f); [|discriminate].
  intros H Ha. specialize (Ha eq_refl).
  destruct (reflect.Kind_eqb _ _).
  - unfold reflect.Type_Elem in H.
    rewrite name_absent_underlying in Ha.
    rewrite <- (type_depth_underlying (reflect.sf_typ f)).
    destruct (reflect.underlying (reflect.sf_typ f)); try discriminate.
    injection H as ->. simpl in *. split; [exact Ha | lia].
  - injection H as <-. split; [exact Ha | lia].
Qed.

(** A pass over the fields of a struct that does not declare [name] finds
    nothing, and queues only types that do not declare it either. *)
Lemma scanFields_absent name D index cnt fs :
  forall i s,
    Forall (fun f => String.eqb (reflect.sf_name f) name = false
                     /\ (reflect.sf_embedded f = true ->
                         name_absent name (reflect.sf_typ f) = true)) fs ->
    Forall (fun f => (reflect.type_depth (reflect.sf_typ f) < D)%nat) fs ->
    reflect.sc_result s = None ->
    Forall (fun sc => name_absent name (reflect.scan_typ sc) = true
                      /\ (reflect.type_depth (reflect.scan_typ sc) < D)%nat)
      (reflect.sc_next s) ->
    exists s',
      reflect.scanFields name index cnt i fs s = Some s'
      /\ reflect.sc_result s' = None
      /\ Forall (fun sc => name_absent name (reflect.scan_typ sc) = true
                           /\ (reflect.type_depth (reflect.scan_typ sc) < D)%nat)
           (reflect.sc_next s').
Proof.
  induction fs as [|f fs IH]; intros i s Ha Hd Hr Hn; simpl.
  - eauto.
  - inversion Ha as [|? ? [Hname Hemb] Ha']; subst.
    inversion Hd as [|? ? Hdf Hd']; subst.
    rewrite Hname.
    destruct (reflect.embedded_typ f) as [nt|] eqn:He; [|apply IH; auto].
    destruct (embedded_typ_absent name f nt He Hemb) as [Hnt Hdn].
    rewrite Hr. simpl.
    destruct (negb (reflect.Kind_eqb (reflect.Type_Kind nt) reflect.Struct));
      [apply IH; auto|].
    destruct (0 <? reflect.count_get (reflect.sc_nextCount s) nt)%nat;
      apply IH; auto; simpl.
    apply Forall_app. split; [exact Hn|].
    constructor; [|constructor]. simpl. split; [exact Hnt | lia].
Qed.

Lemma scanLevel_absent name D count current :
  forall visited s,
    Forall (fun sc => name_absent name (reflect.scan_typ sc) = true
                      /\ (reflect.type_depth (reflect.scan_typ sc) < S D)%nat)
      current ->
    reflect.sc_result s = None ->
    Forall (fun sc => name_absent name (reflect.scan_typ sc) = true
                      /\ (reflect.type_depth (reflect.scan_typ sc) < D)%nat)
      (reflect.sc_next s) ->
    exists s' visited',
      reflect.scanLevel name count visited current s = Some (s', visited')
      /\ reflect.sc_result s' = None
      /\ Forall (fun sc => name_absent name (reflect.scan_typ sc) = true
                           /\ (reflect.type_depth (reflect.scan_typ sc) < D)%nat)
           (reflect.sc_next s').
Proof.
  induction current as [|sc current IH]; intros visited s Hc Hr Hn; simpl.
  - eauto.
  - inversion Hc as [|? ? [Ha Hd] Hc']; subst.
    destruct (existsb _ visited); [apply IH; auto|].
    destruct (scanFields_absent name D (reflect.scan_index sc)
                (reflect.count_get count (reflect.scan_typ sc))
                (reflect.Type_fields (reflect.scan_typ sc)) 0 s)
      as (s' & Hs' & Hr' & Hn'); auto.
    + apply name_absent_fields. exact Ha.
    + apply Forall_forall. intros f Hf.
      apply list_elem_of_In in Hf.
      pose proof (type_depth_Type_fields _ _ Hf). lia.
    + rewrite Hs'. apply IH; auto.
Qed.

Lemma fieldByNameLoop_absent name :
  forall fuel next nextCount visited,
    Forall (fun sc => name_absent name (reflect.scan_typ sc) = true
                      /\ (reflect.type_depth (reflect.scan_typ sc) < fuel)%nat)
      next ->
    reflect.fieldByNameLoop fuel name next nextCount visited = Some None.
Proof.
  induction fuel as [|fuel IH]; intros next nextCount visited Hn.
  - destruct next as [|sc next]; [reflexivity|].
    inversion Hn as [|? ? [_ Hd] _]; lia.
  - destruct next as [|sc next]; [reflexivity|].
    cbn [reflect.fieldByNameLoop].
    destruct (scanLevel_absent name fuel nextCount (sc :: next) visited
                (reflect.mkScanState None [] []))
      as (s' & visited' & Hs' & Hr' & Hn'); auto.
    rewrite Hs', Hr'. apply IH. exact Hn'.
Qed.

Lemma quickFieldByName_absent name fs :
  forall i he,
    Forall (fun f => String.eqb (reflect.sf_name f) name = false) fs ->
    exists he', reflect.quickFieldByName name i fs he = inr he'.
Proof.
  induction fs as [|f fs IH]; intros i he H; simpl; [eauto|].
  inversion H as [|? ? Hf H']; subst. rewrite Hf. apply IH. exact H'.
Qed.

(** A name declared nowhere in the struct or in what it embeds is not
    found. *)
Lemma structType_FieldByName_absent name t :
  name_absent name t = true ->
  reflect.structType_FieldByName t name = Some None.
Proof.
  intros Ha. unfold reflect.structType_FieldByName.
  destruct (String.eqb name ""); [reflexivity|].
  destruct (quickFieldByName_absent name (reflect.Type_fields t) 0 false)
    as [he ->].
  { eapply Forall_impl; [apply name_absent_fields; exact Ha|].
    intros f [H _]. exact H. }
  destruct he; [|reflexivity].
  apply fieldByNameLoop_absent.
  constructor; [|constructor]. simpl. split; [exact Ha | lia].
Qed.

(** A declared name is found by the quick pass, at its first
    declaration. *)
Lemma quickFieldByName_declared name fs :
  forall k he,
    In name (map reflect.sf_name fs) ->
    exists i fd,
      reflect.quickFieldByName name k fs he
      = inl (Some (reflect.toStructField fd [(k + i)%nat]))
      /\ fs !! i = Some fd
      /\ reflect.sf_name fd = name
      /\ (forall j fd', (j < i)%nat -> fs !! j = Some fd' ->
            reflect.sf_name fd' <> name).
Proof.
  induction fs as [|f fs IH]; intros k he Hin; simpl in *; [contradiction|].
  destruct (String.eqb (reflect.sf_name f) name) eqn:E.
  - apply String.eqb_eq in E. exists 0%nat, f.
    rewrite Nat.add_0_r. repeat split; auto. intros j fd' Hj. lia.
  - apply String.eqb_neq in E. destruct Hin as [Hin|Hin]; [contradiction|].
    destruct (IH (S k) (he || reflect.sf_embedded f) Hin)
      as (i & fd & Hq & Hl & Hn & Hleast).
    exists (S i), fd. rewrite Hq. rewrite Nat.add_succ_r.
    repeat split; auto.
    intros [|j] fd' Hj Hfd'.
    + simpl in Hfd'. injection Hfd' as <-. exact E.
    + apply (Hleast j fd'); [lia | exact Hfd'].
Qed.

Lemma structType_FieldByName_declared name t :
  name <> "" -> In name (declared_names t) ->
  exists i fd,
    reflect.structType_FieldByName t name
    = Some (Some (reflect.toStructField fd [i]))
    /\ reflect.Type_fields t !! i = Some fd
    /\ reflect.sf_name fd = name
    /\ (forall j fd', (j < i)%nat -> reflect.Type_fields t !! j = Some fd' ->
          reflect.sf_name fd' <> name).
Proof.
  intros Hne Hin. unfold reflect.structType_FieldByName.
  apply String.eqb_neq in Hne. rewrite Hne.
  destruct (quickFieldByName_declared name (reflect.Type_fields t) 0 false Hin)
    as (i & fd & -> & Hl & Hn & Hleast).
  exists i, fd. auto.
Qed.

Lemma fieldFlag_ro fd :
  reflect.flagRO (reflect.fieldFlag reflect.flag0 fd)
  = negb (reflect.sf_exported fd).
Proof.
  unfold reflect.fieldFlag.
  destruct (reflect.sf_exported fd); [reflexivity|].
  destruct (reflect.sf_embedded fd); reflexivity.
Qed.

(** What [FieldOk] starts with on an accessor of struct kind whose handle
    is not read-only: the struct value, boxed and unboxed again. *)
Lemma FieldOk_unfold f st t name :
  Field_stored f st = true -> reflect.Value_ro (value f) = false ->
  reflect.Value_Type (value f) st = reflect.Ret t st ->
  Kind f = reflect.Struct ->
  exists xs,
    Forall2 (fun fd x => reflect.has_type (reflect.sf_typ fd) x = true)
      (reflect.Type_fields t) xs
    /\ Value f st = reflect.Ret (Some (t, reflect.VStruct xs)) st
    /\ FieldOk f name st
       = match reflect.structType_FieldByName t name with
         | None => reflect.Stuck
         | Some None => reflect.Ret (None, false) st
         | Some (Some fd) =>
             (let* fv :=
                reflect.Value_FieldByIndex
                  (reflect.MkValue t (reflect.Direct (reflect.VStruct xs))
                     reflect.flag0) (reflect.Index fd) in
              reflect.ret (Some (mkField fv fd), true)) st
         end.
Proof.
  intros Hs Hro HT Hk.
  destruct (Field_stored_inv _ _ Hs) as (t' & d & fl & x & Hv & Hc & Ht).
  rewrite Hv in Hro. simpl in Hro.
  rewrite Hv in HT. simpl in HT. unfold reflect.ret in HT.
  injection HT as ->.
  unfold Kind in Hk. rewrite Hv in Hk. simpl in Hk.
  destruct (Type_Kind_Struct _ Hk) as [fs Hu].
  rewrite has_type_underlying, Hu in Ht.
  destruct (has_type_struct _ _ Ht) as (xs & -> & Hty).
  assert (HV : Value f st = reflect.Ret (Some (t, reflect.VStruct xs)) st).
  { unfold Value. rewrite Hv. apply Value_Interface_concrete; auto.
    rewrite Hk. discriminate. }
  exists xs. split.
  { unfold reflect.Type_fields. rewrite Hu. exact Hty. }
  split; [exact HV|].
  unfold FieldOk, reflect.bind. unfold Value in HV. rewrite HV.
  unfold strctVal. cbn [reflect.ValueOf reflect.Value_Kind].
  rewrite Hk. cbn [reflect.Kind_eqb negb reflect.ret reflect.Value_Type].
  unfold reflect.Type_FieldByName. rewrite Hk.
  cbn [reflect.Kind_eqb].
  destruct (reflect.structType_FieldByName t name) as [[fd|]|] eqn:E;
    cbn [reflect.lift_option reflect.ret reflect.stuck]; try reflexivity.
  unfold reflect.Value_FieldByName, reflect.mustBe, reflect.bind.
  cbn [reflect.Value_Kind]. rewrite Hk. cbn [reflect.Kind_eqb reflect.ret].
  rewrite E. reflexivity.
Qed.

(** What [FieldOk] returns for a declared name, in full: the accessor of
    the first field so named, over a copy of that field of the value
    [Value()] returns. *)
Lemma FieldOk_declared f st t name :
  Field_stored f st = true -> reflect.Value_ro (value f) = false ->
  reflect.Value_Type (value f) st = reflect.Ret t st ->
  Kind f = reflect.Struct ->
  name <> "" -> In name (declared_names t) ->
  exists i fd xs w,
    Value f st = reflect.Ret (Some (t, reflect.VStruct xs)) st
    /\ reflect.Type_fields t !! i = Some fd
    /\ reflect.sf_name fd = name
    /\ (forall j fd', (j < i)%nat -> reflect.Type_fields t !! j = Some fd' ->
          reflect.sf_name fd' <> name)
    /\ xs !! i = Some w
    /\ reflect.has_type (reflect.sf_typ fd) w = true
    /\ FieldOk f name st
       = reflect.Ret
           (Some (mkField
                    (reflect.MkValue (reflect.sf_typ fd) (reflect.Direct w)
                       (reflect.fieldFlag reflect.flag0 fd))
                    (reflect.toStructField fd [i])), true) st.
Proof.
  intros Hs Hro HT Hk Hne Hin.
  destruct (FieldOk_unfold f st t name Hs Hro HT Hk) as (xs & Hty & HV & Hok).
  destruct (structType_FieldByName_declared name t Hne Hin)
    as (i & fd & Hfound & Hl & Hn & Hleast).
  rewrite Hfound in Hok.
  destruct (Forall2_lookup_l _ _ _ _ _ Hty Hl) as (w & Hw & Hwt).
  assert (Hks : reflect.Type_Kind t = reflect.Struct).
  { unfold Kind in Hk. destruct (value f); [discriminate|].
    simpl in HT. unfold reflect.ret in HT. injection HT as ->.
    exact Hk. }
  destruct (Value_Field_stored st t
              (reflect.Direct (reflect.VStruct xs)) reflect.flag0 i fd xs w
              Hks Hl eq_refl Hw) as (d' & Hvf & _ & Hd').
  rewrite (Hd' _ eq_refl) in Hvf.
  cbn [reflect.Index reflect.toStructField reflect.Value_FieldByIndex]
    in Hok.
  unfold reflect.bind in Hok. rewrite Hvf in Hok.
  exists i, fd, xs, w. auto 10.
Qed.

(** C7, as the code has it.  Take an accessor whose handle is not
    read-only and whose value is a struct of type [t].  For a name
    declared neither by [t] nor, at any depth, by a struct it embeds,
    [FieldOk] returns [(nil, false)] and [Field] panics with "field not
    found".  For a name [t] declares, let [i] be the first field of [t]
    with that name and [w] field [i] of the struct [Value()] returns:
    [FieldOk] returns, with [true], the accessor made of the descriptor of
    field [i] and of a handle on the copy [w], and [Field] returns the
    same accessor. *)
Theorem FieldOk_lookup f st t
    (Hstored : Field_stored f st = true)
    (Hreadable : reflect.Value_ro (value f) = false)
    (Htype : reflect.Value_Type (value f) st = reflect.Ret t st)
    (Hkind : Kind f = reflect.Struct) :
  (forall name, name_absent name t = true ->
     FieldOk f name st = reflect.Ret (None, false) st
     /\ Field_ f name st
        = reflect.Panic (reflect.PanicString "field not found"))
  /\ (forall name, name <> "" -> In name (declared_names t) ->
      exists i fd xs w,
        Value f st = reflect.Ret (Some (t, reflect.VStruct xs)) st
        /\ reflect.Type_fields t !! i = Some fd
        /\ reflect.sf_name fd = name
        /\ (forall j fd', (j < i)%nat ->
              reflect.Type_fields t !! j = Some fd' ->
              reflect.sf_name fd' <> name)
        /\ xs !! i = Some w
        /\ let g :=
             mkField
               (reflect.MkValue (reflect.sf_typ fd) (reflect.Direct w)
                  (reflect.fieldFlag reflect.flag0 fd))
               (reflect.toStructField fd [i]) in
           FieldOk f name st = reflect.Ret (Some g, true) st
           /\ Field_ f name st = reflect.Ret (Some g) st
           /\ Name g = name
           /\ Field_wf g st = true).
Proof.
  split; intros name.
  - intros Ha.
    destruct (FieldOk_unfold f st t name Hstored Hreadable Htype Hkind)
      as (xs & _ & _ & Hok).
    rewrite (structType_FieldByName_absent _ _ Ha) in Hok.
    split; [exact Hok|]. unfold Field_, reflect.bind. rewrite Hok.
    reflexivity.
  - intros Hne Hin.
    destruct (FieldOk_declared f st t name Hstored Hreadable Htype Hkind
                Hne Hin)
      as (i & fd & xs & w & HV & Hl & Hn & Hleast & Hw & Hwt & Hok).
    exists i, fd, xs, w.
    split; [exact HV|]. split; [exact Hl|]. split; [exact Hn|].
    split; [exact Hleast|]. split; [exact Hw|].
    cbv zeta. split; [exact Hok|]. split.
    { unfold Field_, reflect.bind. rewrite Hok. reflexivity. }
    split; [exact Hn|].
    unfold Field_wf, Field_stored. cbn [value field reflect.contents].
    unfold reflect.ret. rewrite Hwt. simpl.
    rewrite fieldFlag_ro. unfold IsExported, reflect.sf_exported. simpl.
    destruct (String.eqb (reflect.sf_pkgPath fd) ""); reflexivity.
Qed.

Lemma FieldOk_lookup_witness :
  Field_stored Example.fInner Example.st0 = true
  /\ reflect.Value_ro (value Example.fInner) = false
  /\ Kind Example.fInner = reflect.Struct
  /\ (FieldOk Example.fInner "Missing" Example.st0
      = reflect.Ret (None, false) Example.st0
      /\ Field_ Example.fInner "Missing" Example.st0
         = reflect.Panic (reflect.PanicString "field not found"))
  /\ exists i fd xs w,
       Value Example.fInner Example.st0
       = reflect.Ret (Some (Example.Group, reflect.VStruct xs)) Example.st0
       /\ reflect.Type_fields Example.Group !! i = Some fd
       /\ reflect.sf_name fd = "Size"
       /\ (forall j fd', (j < i)%nat ->
             reflect.Type_fields Example.Group !! j = Some fd' ->
             reflect.sf_name fd' <> "Size")
       /\ xs !! i = Some w
       /\ let g :=
            mkField
              (reflect.MkValue (reflect.sf_typ fd) (reflect.Direct w)
                 (reflect.fieldFlag reflect.flag0 fd))
              (reflect.toStructField fd [i]) in
          FieldOk Example.fInner "Size" Example.st0
          = reflect.Ret (Some g, true) Example.st0
          /\ Field_ Example.fInner "Size" Example.st0
             = reflect.Ret (Some g) Example.st0
          /\ Name g = "Size"
          /\ Field_wf g Example.st0 = true.
Proof.
  split; [reflexivity|]. split; [reflexivity|]. split; [reflexivity|].
  destruct (FieldOk_lookup Example.fInner Example.st0 Example.Group
              eq_refl eq_refl eq_refl eq_refl) as [Habsent Hdeclared].
  split.
  - apply Habsent. reflexivity.
  - apply Hdeclared; [discriminate | right; left; reflexivity].
Defined.

(** C7 as stated fails on embedded structs.  [Group] declares [Base] and
    [Size]; [ID] is declared by the embedded [Base] only, and [FieldOk]
    finds it.  [Linked] embeds [*Base], here nil: [FieldOk("ID")] panics.
    So a name that [t] does not declare need not give [(nil, false)], and
    [FieldOk] can fail for it. *)
Lemma FieldOk_promoted_counterexample :
  (IsExported Example.fInner = true
   /\ Kind Example.fInner = reflect.Struct
   /\ declared_names Example.Group = ["Base"; "Size"]
   /\ FieldOk Example.fInner "ID" Example.st0
      = reflect.Ret
          (Some (mkField
                   (reflect.MkValue Example.int
                      (reflect.Direct (reflect.VInt 9)) reflect.flag0)
                   (reflect.mkSF "ID" "" Example.int "" [0%nat; 0%nat] false)),
           true) Example.st0)
  /\ (IsExported Example.fLink = true
      /\ Kind Example.fLink = reflect.Struct
      /\ declared_names Example.Linked = ["Base"]
      /\ FieldOk Example.fLink "ID" Example.st0
         = reflect.Panic
             (reflect.PanicString
                "reflect: indirection through nil pointer to embedded struct")).
Proof. repeat split. Qed.

(** * Further properties of [field.go] *)

(** ** Setters on storage that cannot be set *)

(** X1.  On an exported field whose storage cannot be set (a struct passed
    by value, a nil pointer field), [Set], [SetInt], [SetFloat] and
    [SetUint] each return [errNotSettable], whatever the value given, and
    leave the store as it was. *)
Theorem setters_not_settable f st
    (Hstored : Field_stored f st = true)
    (Hexp : IsExported f = true)
    (Hns : settable f st = false) :
  (forall val, Set_ f val st = reflect.Ret (Some errNotSettable) st)
  /\ (forall z, SetInt f z st = reflect.Ret (Some errNotSettable) st)
  /\ (forall x, SetFloat f x st = reflect.Ret (Some errNotSettable) st)
  /\ (forall z, SetUint f z st = reflect.Ret (Some errNotSettable) st).
Proof.
  destruct (Indirect_stored _ _ Hstored) as [v Hv].
  unfold settable in Hns. rewrite Hv in Hns.
  assert (Hc : forall val,
             checkForSet f v val st
             = reflect.Ret (reflect.Value0, Some errNotSettable) st).
  { intros. unfold checkForSet. rewrite Hexp, Hns. reflexivity. }
  repeat split; intros;
    unfold Set_, SetInt, SetFloat, SetUint, reflect.bind;
    rewrite Hv, Hc; reflexivity.
Qed.

Lemma setters_not_settable_witness :
  (Field_stored Sample.byValue Sample.st0 = true
   /\ IsExported Sample.byValue = true
   /\ settable Sample.byValue Sample.st0 = false
   /\ SetInt Sample.byValue 1 Sample.st0
      = reflect.Ret (Some errNotSettable) Sample.st0)
  /\ (Field_stored Sample.fNext Sample.st0 = true
      /\ IsExported Sample.fNext = true
      /\ settable Sample.fNext Sample.st0 = false
      /\ Set_ Sample.fNext (Some (Example.int, reflect.VInt 1)) Sample.st0
         = reflect.Ret (Some errNotSettable) Sample.st0).
Proof.
  split.
  - split; [reflexivity|]. split; [reflexivity|]. split; [reflexivity|].
    apply (setters_not_settable Sample.byValue Sample.st0); reflexivity.
  - split; [reflexivity|]. split; [reflexivity|]. split; [reflexivity|].
    apply (setters_not_settable Sample.fNext Sample.st0); reflexivity.
Defined.

(** ** What the setters store *)

(** An exported, settable accessor that is neither pointer nor interface
    and reads [a0] is a place in the store holding [a0]. *)
Lemma settable_place f st T a0 :
  settable f st = true ->
  Kind f <> reflect.Ptr -> Kind f <> reflect.Interface ->
  Value f st = reflect.Ret (Some (T, a0)) st ->
  exists a fl,
    value f = reflect.MkValue T (reflect.Indir a) fl
    /\ reflect.flagRO fl = false
    /\ reflect.load st a = Some a0.
Proof.
  intros Hset Hptr Hifc Hinit.
  destruct (Value_inv _ _ _ _ Hifc Hinit) as (d & fl & Hv & Hro & Hc).
  unfold Kind in Hptr. rewrite Hv in Hptr. simpl in Hptr.
  unfold settable in Hset. rewrite Hv in Hset.
  rewrite Indirect_not_pointer in Hset by exact Hptr.
  unfold reflect.Value_CanSet in Hset.
  destruct d as [x|a]; [discriminate|].
  exists a, fl. repeat split; auto.
  exact (contents_load _ _ _ Hc).
Qed.

Lemma Value_after_store f st' T a fl w :
  value f = reflect.MkValue T (reflect.Indir a) fl ->
  reflect.flagRO fl = false ->
  reflect.Type_Kind T <> reflect.Interface ->
  reflect.load st' a = Some w ->
  Value f st' = reflect.Ret (Some (T, w)) st'.
Proof.
  intros Hv Hro Hk Hl. unfold Value. rewrite Hv.
  apply Value_Interface_concrete; auto.
  simpl. unfold reflect.bind, reflect.get_store. rewrite Hl. reflexivity.
Qed.

Lemma write_store a w st st' :
  reflect.store_at st a w = Some st' ->
  reflect.write (reflect.Indir a) w st = reflect.Ret tt st'.
Proof.
  intros H. simpl. unfold reflect.bind, reflect.get_store. rewrite H.
  reflexivity.
Qed.

Lemma signed_kind_plain k :
  signed_kind k = true -> k <> reflect.Ptr /\ k <> reflect.Interface.
Proof. destruct k; simpl; intros H; try discriminate; split; discriminate. Qed.

Lemma unsigned_kind_plain k :
  unsigned_kind k = true -> k <> reflect.Ptr /\ k <> reflect.Interface.
Proof. destruct k; simpl; intros H; try discriminate; split; discriminate. Qed.

Lemma float_kind_plain k :
  float_kind k = true -> k <> reflect.Ptr /\ k <> reflect.Interface.
Proof. destruct k; simpl; intros H; try discriminate; split; discriminate. Qed.

Lemma Value_SetInt_place T a fl z st st' :
  reflect.flagRO fl = false ->
  signed_kind (reflect.Type_Kind T) = true ->
  reflect.store_at st a
    (reflect.VInt (reflect.wrap_signed (signed_bits (reflect.Type_Kind T)) z))
  = Some st' ->
  reflect.Value_SetInt (reflect.MkValue T (reflect.Indir a) fl) z st
  = reflect.Ret tt st'.
Proof.
  intros Hro Hk Hst.
  unfold reflect.Value_SetInt, reflect.mustBeAssignable, reflect.bind.
  rewrite Hro. simpl.
  destruct (reflect.Type_Kind T); try discriminate; simpl in Hst;
    unfold reflect.bind, reflect.get_store; rewrite Hst; reflexivity.
Qed.

Lemma Value_SetUint_place T a fl z st st' :
  reflect.flagRO fl = false ->
  unsigned_kind (reflect.Type_Kind T) = true ->
  reflect.store_at st a
    (reflect.VUint
       (reflect.wrap_unsigned (unsigned_bits (reflect.Type_Kind T)) z))
  = Some st' ->
  reflect.Value_SetUint (reflect.MkValue T (reflect.Indir a) fl) z st
  = reflect.Ret tt st'.
Proof.
  intros Hro Hk Hst.
  unfold reflect.Value_SetUint, reflect.mustBeAssignable, reflect.bind.
  rewrite Hro. simpl.
  destruct (reflect.Type_Kind T); try discriminate; simpl in Hst;
    unfold reflect.bind, reflect.get_store; rewrite Hst; reflexivity.
Qed.

Lemma Value_SetFloat_place T a fl x st st' :
  reflect.flagRO fl = false ->
  float_kind (reflect.Type_Kind T) = true ->
  reflect.store_at st a
    (reflect.VFloat (float_stored (reflect.Type_Kind T) x))
  = Some st' ->
  reflect.Value_SetFloat (reflect.MkValue T (reflect.Indir a) fl) x st
  = reflect.Ret tt st'.
Proof.
  intros Hro Hk Hst.
  unfold reflect.Value_SetFloat, reflect.mustBeAssignable, reflect.bind.
  rewrite Hro. simpl.
  destruct (reflect.Type_Kind T); try discriminate; simpl in Hst;
    unfold reflect.bind, reflect.get_store; rewrite Hst; reflexivity.
Qed.

(** X2.  On an exported, settable field of a signed integer kind,
    [SetInt(z)] returns no error and [Value()] then returns [z] cut to the
    width of the field (two's complement), under the field's type. *)
Theorem SetInt_Value f st T a0 z
    (Hexp : IsExported f = true)
    (Hset : settable f st = true)
    (Hkind : signed_kind (Kind f) = true)
    (Hinit : Value f st = reflect.Ret (Some (T, a0)) st) :
  exists st',
    SetInt f z st = reflect.Ret None st'
    /\ Value f st'
       = reflect.Ret
           (Some (T, reflect.VInt
                       (reflect.wrap_signed (signed_bits (Kind f)) z))) st'.
Proof.
  destruct (signed_kind_plain _ Hkind) as [Hptr Hifc].
  destruct (settable_place _ _ _ _ Hset Hptr Hifc Hinit)
    as (a & fl & Hv & Hro & Hl).
  unfold Kind in *. rewrite Hv in *. simpl in Hkind, Hptr, Hifc |- *.
  destruct (store_at_total st a
              (reflect.VInt
                 (reflect.wrap_signed (signed_bits (reflect.Type_Kind T)) z))
              _ Hl) as [st' Hst].
  exists st'. split.
  - unfold SetInt, reflect.bind. rewrite Hv.
    rewrite Indirect_not_pointer by exact Hptr.
    rewrite checkForSet_value
      by (try apply flagRO_CanSet; try assumption; discriminate).
    cbn [snd fst].
    rewrite (Value_SetInt_place _ _ _ _ _ _ Hro Hkind Hst). reflexivity.
  - eapply Value_after_store; eauto. eapply load_store_at; eauto.
Qed.

Lemma SetInt_Value_witness :
  IsExported Sample.fTiny = true
  /\ settable Sample.fTiny Sample.st0 = true
  /\ exists st',
       SetInt Sample.fTiny 300 Sample.st0 = reflect.Ret None st'
       /\ Value Sample.fTiny st'
          = reflect.Ret (Some (Sample.int8, reflect.VInt 44)) st'.
Proof.
  split; [reflexivity|]. split; [reflexivity|].
  apply (SetInt_Value Sample.fTiny Sample.st0 Sample.int8 (reflect.VInt 7)
           300); reflexivity.
Defined.

(** X3.  On an exported, settable field of an unsigned integer kind,
    [SetUint(z)] returns no error and [Value()] then returns [z] modulo
    two to the width of the field, under the field's type. *)
Theorem SetUint_Value f st T a0 z
    (Hexp : IsExported f = true)
    (Hset : settable f st = true)
    (Hkind : unsigned_kind (Kind f) = true)
    (Hinit : Value f st = reflect.Ret (Some (T, a0)) st) :
  exists st',
    SetUint f z st = reflect.Ret None st'
    /\ Value f st'
       = reflect.Ret
           (Some (T, reflect.VUint
                       (reflect.wrap_unsigned (unsigned_bits (Kind f)) z)))
           st'.
Proof.
  destruct (unsigned_kind_plain _ Hkind) as [Hptr Hifc].
  destruct (settable_place _ _ _ _ Hset Hptr Hifc Hinit)
    as (a & fl & Hv & Hro & Hl).
  unfold Kind in *. rewrite Hv in *. simpl in Hkind, Hptr, Hifc |- *.
  destruct (store_at_total st a
              (reflect.VUint
                 (reflect.wrap_unsigned (unsigned_bits (reflect.Type_Kind T))
                    z))
              _ Hl) as [st' Hst].
  exists st'. split.
  - unfold SetUint, reflect.bind. rewrite Hv.
    rewrite Indirect_not_pointer by exact Hptr.
    rewrite checkForSet_value
      by (try apply flagRO_CanSet; try assumption; discriminate).
    cbn [snd fst].
    rewrite (Value_SetUint_place _ _ _ _ _ _ Hro Hkind Hst). reflexivity.
  - eapply Value_after_store; eauto. eapply load_store_at; eauto.
Qed.

Lemma SetUint_Value_witness :
  IsExported Sample.fRaw = true
  /\ settable Sample.fRaw Sample.st0 = true
  /\ exists st',
       SetUint Sample.fRaw 65537 Sample.st0 = reflect.Ret None st'
       /\ Value Sample.fRaw st'
          = reflect.Ret (Some (Sample.uint16, reflect.VUint 1)) st'.
Proof.
  split; [reflexivity|]. split; [reflexivity|].
  apply (SetUint_Value Sample.fRaw Sample.st0 Sample.uint16 (reflect.VUint 9)
           65537); reflexivity.
Defined.

(** X4.  On an exported, settable field of a float kind, [SetFloat(x)]
    returns no error and [Value()] then returns [x], rounded to 32 bits
    when the field is a [float32], under the field's type. *)
Theorem SetFloat_Value f st T a0 x
    (Hexp : IsExported f = true)
    (Hset : settable f st = true)
    (Hkind : float_kind (Kind f) = true)
    (Hinit : Value f st = reflect.Ret (Some (T, a0)) st) :
  exists st',
    SetFloat f x st = reflect.Ret None st'
    /\ Value f st'
       = reflect.Ret (Some (T, reflect.VFloat (float_stored (Kind f) x))) st'.
Proof.
  destruct (float_kind_plain _ Hkind) as [Hptr Hifc].
  destruct (settable_place _ _ _ _ Hset Hptr Hifc Hinit)
    as (a & fl & Hv & Hro & Hl).
  unfold Kind in *. rewrite Hv in *. simpl in Hkind, Hptr, Hifc |- *.
  destruct (store_at_total st a
              (reflect.VFloat (float_stored (reflect.Type_Kind T) x))
              _ Hl) as [st' Hst].
  exists st'. split.
  - unfold SetFloat, reflect.bind. rewrite Hv.
    rewrite Indirect_not_pointer by exact Hptr.
    rewrite checkForSet_value
      by (try apply flagRO_CanSet; try assumption; discriminate).
    cbn [snd fst].
    rewrite (Value_SetFloat_place _ _ _ _ _ _ Hro Hkind Hst). reflexivity.
  - eapply Value_after_store; eauto. eapply load_store_at; eauto.
Qed.

Lemma SetFloat_Value_witness :
  IsExported Sample.fRatio = true
  /\ settable Sample.fRatio Sample.st0 = true
  /\ exists st',
       SetFloat Sample.fRatio Sample.one_and_a_half Sample.st0
       = reflect.Ret None st'
       /\ Value Sample.fRatio st'
          = reflect.Ret
              (Some (Sample.float32,
                     reflect.VFloat
                       (float_stored reflect.Float32 Sample.one_and_a_half)))
              st'.
Proof.
  split; [reflexivity|]. split; [reflexivity|].
  apply (SetFloat_Value Sample.fRatio Sample.st0 Sample.float32
           (reflect.VFloat reflect.float_zero) Sample.one_and_a_half);
    reflexivity.
Defined.

(** ** [Set] with another type of the same kind *)

Lemma Value_Set_assignable T V a fl bv st st' :
  reflect.flagRO fl = false ->
  reflect.directlyAssignable T V = true ->
  reflect.store_at st a bv = Some st' ->
  reflect.Value_Set (reflect.MkValue T (reflect.Indir a) fl)
    (reflect.MkValue V (reflect.Direct bv) reflect.flag0) st
  = reflect.Ret tt st'.
Proof.
  intros Hro Ha Hst.
  unfold reflect.Value_Set, reflect.mustBeAssignable, reflect.mustBeExported,
    reflect.assignTo, reflect.bind.
  rewrite Hro. simpl. rewrite Ha. simpl.
  unfold reflect.bind, reflect.get_store. rewrite Hst. reflexivity.
Qed.

Lemma Value_Set_not_assignable T V a fl bv st :
  reflect.flagRO fl = false ->
  reflect.directlyAssignable T V = false ->
  reflect.Type_Kind T <> reflect.Interface ->
  reflect.Value_Set (reflect.MkValue T (reflect.Indir a) fl)
    (reflect.MkValue V (reflect.Direct bv) reflect.flag0) st
  = reflect.Panic (reflect.NotAssignable "reflect.Set" V T).
Proof.
  intros Hro Ha Hk.
  unfold reflect.Value_Set, reflect.mustBeAssignable, reflect.mustBeExported,
    reflect.assignTo, reflect.implements, reflect.bind.
  rewrite Hro. simpl. rewrite Ha, (Kind_eqb_neq _ _ Hk). reflexivity.
Qed.

Lemma Set_same_kind f st T V a fl bv :
  IsExported f = true ->
  value f = reflect.MkValue T (reflect.Indir a) fl ->
  reflect.flagRO fl = false ->
  reflect.Type_Kind T <> reflect.Ptr ->
  reflect.Type_Kind V = reflect.Type_Kind T ->
  Set_ f (Some (V, bv)) st
  = (reflect.Value_Set (reflect.MkValue T (reflect.Indir a) fl)
       (reflect.MkValue V (reflect.Direct bv) reflect.flag0) ;;
     reflect.ret None) st.
Proof.
  intros Hexp Hv Hro Hptr Hk.
  unfold Set_. unfold reflect.bind at 1 2. rewrite Hv.
  rewrite Indirect_not_pointer by exact Hptr.
  rewrite checkForSet_value
    by (try apply flagRO_CanSet; try assumption; congruence).
  cbn [snd fst reflect.Value_Kind]. rewrite Hk, Kind_eqb_refl.
  reflexivity.
Qed.

(** X5.  On an exported, settable field that is neither pointer nor
    interface, of type [T], [Set(b)] with [b] of a type of the same kind
    that is assignable to [T] returns no error, and [Value()] then returns
    the value of [b] under the field's type [T]. *)
Theorem Set_assignable f st T a0 V bv
    (Hexp : IsExported f = true)
    (Hset : settable f st = true)
    (Hptr : Kind f <> reflect.Ptr)
    (Hifc : Kind f <> reflect.Interface)
    (Hinit : Value f st = reflect.Ret (Some (T, a0)) st)
    (Hkind : reflect.Type_Kind V = Kind f)
    (Hassign : reflect.directlyAssignable T V = true) :
  exists st',
    Set_ f (Some (V, bv)) st = reflect.Ret None st'
    /\ Value f st' = reflect.Ret (Some (T, bv)) st'.
Proof.
  destruct (settable_place _ _ _ _ Hset Hptr Hifc Hinit)
    as (a & fl & Hv & Hro & Hl).
  unfold Kind in *. rewrite Hv in *. simpl in Hptr, Hifc, Hkind.
  destruct (store_at_total st a bv _ Hl) as [st' Hst].
  exists st'. split.
  - rewrite (Set_same_kind f st T V a fl bv) by assumption.
    unfold reflect.bind.
    rewrite (Value_Set_assignable _ _ _ _ _ _ _ Hro Hassign Hst).
    reflexivity.
  - eapply Value_after_store; eauto. eapply load_store_at; eauto.
Qed.

Lemma Set_assignable_witness :
  let V := reflect.TStruct [reflect.mkStructField "ID" "" Example.int "" false]
  in
  IsExported Sample.fInner = true
  /\ settable Sample.fInner Sample.st0 = true
  /\ reflect.directlyAssignable Example.Base V = true
  /\ exists st',
       Set_ Sample.fInner (Some (V, reflect.VStruct [reflect.VInt 6]))
         Sample.st0
       = reflect.Ret None st'
       /\ Value Sample.fInner st'
          = reflect.Ret
              (Some (Example.Base, reflect.VStruct [reflect.VInt 6])) st'.
Proof.
  split; [reflexivity|]. split; [reflexivity|]. split; [reflexivity|].
  apply (Set_assignable Sample.fInner Sample.st0 Example.Base
           (reflect.VStruct [reflect.VInt 5]));
    try reflexivity; vm_compute; discriminate.
Defined.

(** X6.  On an exported, settable field that is neither pointer nor
    interface, of type [T], [Set(b)] with [b] of a type of the same kind
    that is not assignable to [T] panics inside [reflect.Value.Set]: the
    kind check of [Set] lets it through, and no error is returned. *)
Theorem Set_not_assignable f st T a0 V bv
    (Hexp : IsExported f = true)
    (Hset : settable f st = true)
    (Hptr : Kind f <> reflect.Ptr)
    (Hifc : Kind f <> reflect.Interface)
    (Hinit : Value f st = reflect.Ret (Some (T, a0)) st)
    (Hkind : reflect.Type_Kind V = Kind f)
    (Hassign : reflect.directlyAssignable T V = false) :
  Set_ f (Some (V, bv)) st
  = reflect.Panic (reflect.NotAssignable "reflect.Set" V T).
Proof.
  destruct (settable_place _ _ _ _ Hset Hptr Hifc Hinit)
    as (a & fl & Hv & Hro & Hl).
  unfold Kind in *. rewrite Hv in *. simpl in Hptr, Hifc, Hkind.
  rewrite (Set_same_kind f st T V a fl bv) by assumption.
  unfold reflect.bind.
  rewrite (Value_Set_not_assignable _ _ _ _ _ _ Hro Hassign Hifc).
  reflexivity.
Qed.

Lemma Set_not_assignable_witness :
  IsExported Sample.fTiny = true
  /\ settable Sample.fTiny Sample.st0 = true
  /\ reflect.Type_Kind (reflect.TNamed "Level" Sample.int8) = Kind Sample.fTiny
  /\ Set_ Sample.fTiny
       (Some (reflect.TNamed "Level" Sample.int8, reflect.VInt 1)) Sample.st0
     = reflect.Panic
         (reflect.NotAssignable "reflect.Set"
            (reflect.TNamed "Level" Sample.int8) Sample.int8).
Proof.
  split; [reflexivity|]. split; [reflexivity|]. split; [reflexivity|].
  apply (Set_not_assignable Sample.fTiny Sample.st0 Sample.int8
           (reflect.VInt 7));
    try reflexivity; vm_compute; discriminate.
Defined.

(** ** Writing twice, and writing next to other fields *)

Lemma val_set_twice v path w v' :
  reflect.val_set v path w = Some v' -> reflect.val_set v' path w = Some v'.
Proof.
  revert v v'. induction path as [|i path IH]; intros v v' H; simpl in *.
  - congruence.
  - destruct v; try discriminate.
    destruct (fs !! i) as [x|] eqn:Hx; try discriminate.
    destruct (reflect.val_set x path w) as [x'|] eqn:Hs; try discriminate.
    injection H as <-.
    rewrite list_lookup_insert_eq by (eapply lookup_lt_Some; eauto).
    rewrite (IH _ _ Hs), list_insert_insert_eq. reflexivity.
Qed.

Lemma store_at_twice st a w st' :
  reflect.store_at st a w = Some st' -> reflect.store_at st' a w = Some st'.
Proof.
  unfold reflect.store_at. intros H.
  destruct (st !! a.1) as [v|] eqn:Hv; try discriminate.
  destruct (reflect.val_set v a.2 w) as [v'|] eqn:Hs; try discriminate.
  injection H as <-.
  rewrite list_lookup_insert_eq by (eapply lookup_lt_Some; eauto).
  rewrite (val_set_twice _ _ _ _ Hs), list_insert_insert_eq. reflexivity.
Qed.

Lemma val_set_disjoint q i j r1 r2 w :
  i <> j ->
  forall v v',
    reflect.val_set v (q ++ i :: r1)%list w = Some v' ->
    reflect.val_at v' (q ++ j :: r2)%list = reflect.val_at v (q ++ j :: r2)%list.
Proof.
  intros Hij. induction q as [|k q IH]; intros v v' H; simpl in *.
  - destruct v; try discriminate.
    destruct (fs !! i) as [x|] eqn:Hx; try discriminate.
    destruct (reflect.val_set x r1 w) as [x'|]; try discriminate.
    injection H as <-. rewrite list_lookup_insert_ne by exact Hij.
    reflexivity.
  - destruct v; try discriminate.
    destruct (fs !! k) as [x|] eqn:Hx; try discriminate.
    destruct (reflect.val_set x (q ++ i :: r1)%list w) as [x'|] eqn:Hs;
      try discriminate.
    injection H as <-.
    rewrite list_lookup_insert_eq by (eapply lookup_lt_Some; eauto).
    eauto.
Qed.

(** A write leaves disjoint storage as it was. *)
Lemma load_store_at_disjoint st a b w st' :
  reflect.store_at st a w = Some st' -> disjoint a b ->
  reflect.load st' b = reflect.load st b.
Proof.
  unfold reflect.store_at, reflect.load. intros H Hd.
  destruct (st !! a.1) as [v|] eqn:Hv; try discriminate.
  destruct (reflect.val_set v a.2 w) as [v'|] eqn:Hs; try discriminate.
  injection H as <-.
  destruct (decide (a.1 = b.1)) as [E|E].
  - destruct Hd as [Hd|(q & i & j & r1 & r2 & Hij & Ha & Hb)];
      [contradiction|].
    rewrite <- E, Hv.
    rewrite list_lookup_insert_eq by (eapply lookup_lt_Some; eauto).
    rewrite Ha in Hs. rewrite Hb. eapply val_set_disjoint; eauto.
  - rewrite list_lookup_insert_ne by exact E. reflexivity.
Qed.

(** [Value] depends on the store through the accessor's place only. *)
Lemma Value_same_load g t b fl st st' x :
  value g = reflect.MkValue t (reflect.Indir b) fl ->
  reflect.load st' b = reflect.load st b ->
  Value g st = reflect.Ret x st -> Value g st' = reflect.Ret x st'.
Proof.
  intros Hv Hl. unfold Value, reflect.Value_Interface, reflect.valueInterface.
  rewrite Hv. destruct (true && reflect.flagRO fl); [discriminate|].
  destruct (reflect.Kind_eqb (reflect.Type_Kind t) reflect.Interface);
    simpl; unfold reflect.bind, reflect.get_store; rewrite Hl;
    destruct (reflect.load st b) as [y|]; simpl; try discriminate.
  - destruct y; try discriminate. unfold reflect.ret.
    intros H. injection H as <-. reflexivity.
  - unfold reflect.ret. intros H. injection H as <-. reflexivity.
Qed.

Lemma referenced_write_disjoint f g st st' t a fl u b fl' x :
  reflect.Indirect (value f) st
  = reflect.Ret (reflect.MkValue t (reflect.Indir a) fl) st ->
  value g = reflect.MkValue u (reflect.Indir b) fl' ->
  disjoint a b ->
  Value g st = reflect.Ret x st ->
  st' = st \/ referenced_write f st st' ->
  Value g st' = reflect.Ret x st'.
Proof.
  intros Hi Hg Hd Hx [->|(t' & a' & fl'' & w & Hi' & Hst)]; [exact Hx|].
  rewrite Hi in Hi'. injection Hi' as <- <- <-.
  apply (Value_same_load g u b fl' st st' x Hg); [|exact Hx].
  eapply load_store_at_disjoint; eauto.
Qed.

(** X7.  The setters write the storage of their own field only: what
    [Value()] returns through the accessor of any storage disjoint from
    the one [f] writes is the same after [Set], [SetInt], [SetFloat] or
    [SetUint] on [f] as before. *)
Theorem setters_leave_other_fields f g st t a fl u b fl' x
    (Htarget : reflect.Indirect (value f) st
               = reflect.Ret (reflect.MkValue t (reflect.Indir a) fl) st)
    (Hother : value g = reflect.MkValue u (reflect.Indir b) fl')
    (Hdisjoint : disjoint a b)
    (Hbefore : Value g st = reflect.Ret x st) :
  (forall val r st', Set_ f val st = reflect.Ret r st' ->
                     Value g st' = reflect.Ret x st')
  /\ (forall z r st', SetInt f z st = reflect.Ret r st' ->
                      Value g st' = reflect.Ret x st')
  /\ (forall y r st', SetFloat f y st = reflect.Ret r st' ->
                      Value g st' = reflect.Ret x st')
  /\ (forall z r st', SetUint f z st = reflect.Ret r st' ->
                      Value g st' = reflect.Ret x st').
Proof.
  repeat split; intros ? r st' H;
    eapply referenced_write_disjoint; eauto.
  - eapply Set_frame; eauto.
  - eapply SetInt_frame; eauto.
  - eapply SetFloat_frame; eauto.
  - eapply SetUint_frame; eauto.
Qed.

Lemma setters_leave_other_fields_witness :
  disjoint (0%nat, [0%nat]) (0%nat, [4%nat])
  /\ Value Sample.fLabel Sample.st0
     = reflect.Ret (Some (Example.str, reflect.VString "x")) Sample.st0
  /\ forall z r st',
       SetInt Sample.fTiny z Sample.st0 = reflect.Ret r st' ->
       Value Sample.fLabel st'
       = reflect.Ret (Some (Example.str, reflect.VString "x")) st'.
Proof.
  assert (Hd : disjoint (0%nat, [0%nat]) (0%nat, [4%nat])).
  { right. exists [], 0%nat, 4%nat, [], []. repeat split. discriminate. }
  split; [exact Hd|]. split; [reflexivity|].
  apply (setters_leave_other_fields Sample.fTiny Sample.fLabel Sample.st0
           Sample.int8 (0%nat, [0%nat]) reflect.flag0
           Example.str (0%nat, [4%nat]) reflect.flag0
           (Some (Example.str, reflect.VString "x")));
    [reflexivity | reflexivity | exact Hd | reflexivity].
Defined.

(** X8.  Take an exported, settable field [f] that is neither pointer nor
    interface, on which [Value()] returns a value of type [T], and an
    accessor [g] over the same storage on which [Value()] returns that
    value too.  [Set(b)] on [f], with [b] of type [T], returns no error,
    and [Value()] on [g] then returns [b]: the write through [f] is seen
    through [g]. *)
Theorem Set_seen_through_alias f g st T a0 bv
    (Hexp : IsExported f = true)
    (Hset : settable f st = true)
    (Hptr : Kind f <> reflect.Ptr)
    (Hifc : Kind f <> reflect.Interface)
    (Hinit : Value f st = reflect.Ret (Some (T, a0)) st)
    (Halias : same_storage f g)
    (Hread : Value g st = reflect.Ret (Some (T, a0)) st) :
  exists st',
    Set_ f (Some (T, bv)) st = reflect.Ret None st'
    /\ Value g st' = reflect.Ret (Some (T, bv)) st'.
Proof.
  destruct (settable_place _ _ _ _ Hset Hptr Hifc Hinit)
    as (a & fl & Hv & Hro & Hl).
  assert (Hk : Kind g <> reflect.Interface).
  { unfold same_storage in Halias. rewrite Hv in Halias.
    unfold Kind in *. rewrite Hv in Hifc.
    destruct (value g) as [|u [y|b] fl']; try contradiction.
    destruct Halias as [<- _]. exact Hifc. }
  destruct (Value_inv _ _ _ _ Hk Hread) as (d' & fl' & Hg & Hro' & _).
  unfold same_storage in Halias. rewrite Hv, Hg in Halias.
  destruct d' as [y|b]; [contradiction|]. destruct Halias as [_ <-].
  unfold Kind in *. rewrite Hv in *. simpl in Hptr, Hifc.
  destruct (store_at_total st a bv _ Hl) as [st' Hst].
  exists st'. split.
  - rewrite (Set_same_kind f st T T a fl bv) by auto.
    unfold reflect.bind.
    rewrite (Value_Set_same_type _ _ _ _ _ _ Hro Hst). reflexivity.
  - eapply Value_after_store; eauto. eapply load_store_at; eauto.
Qed.

Lemma Set_seen_through_alias_witness :
  let g := mkField (value Sample.fTiny)
             (reflect.mkSF "Alias" "" Sample.int8 "" [0%nat] false) in
  IsExported Sample.fTiny = true
  /\ settable Sample.fTiny Sample.st0 = true
  /\ same_storage Sample.fTiny g
  /\ exists st',
       Set_ Sample.fTiny (Some (Sample.int8, reflect.VInt 1)) Sample.st0
       = reflect.Ret None st'
       /\ Value g st' = reflect.Ret (Some (Sample.int8, reflect.VInt 1)) st'.
Proof.
  split; [reflexivity|]. split; [reflexivity|].
  split; [split; reflexivity|].
  apply (Set_seen_through_alias Sample.fTiny _ Sample.st0 Sample.int8
           (reflect.VInt 7) (reflect.VInt 1));
    try reflexivity; try (split; reflexivity); vm_compute; discriminate.
Defined.

(** ** [Set] twice *)

Lemma store_free_ret {A} (a : A) : store_free (reflect.ret a).
Proof. intros st b st1 H st'. unfold reflect.ret in *. congruence. Qed.

Lemma store_free_throw {A} p : store_free (@reflect.throw A p).
Proof. intros st b st1 H. discriminate. Qed.

Lemma store_free_stuck {A} : store_free (@reflect.stuck A).
Proof. intros st b st1 H. discriminate. Qed.

Lemma store_free_bind {A B} (m : reflect.M A) (k : A -> reflect.M B) :
  store_free m -> (forall a, store_free (k a)) -> store_free (reflect.bind m k).
Proof.
  intros Hm Hk st b st2 H st'. unfold reflect.bind in *.
  destruct (m st) as [a st1| |] eqn:E; try discriminate.
  rewrite (Hm _ _ _ E st'). eapply Hk; eauto.
Qed.

Lemma store_free_lift_option {A} (o : option A) :
  store_free (reflect.lift_option o).
Proof.
  destruct o; simpl; [apply store_free_ret | apply store_free_stuck].
Qed.

Lemma store_free_contents_Direct x :
  store_free (reflect.contents (reflect.Direct x)).
Proof. apply store_free_ret. Qed.

#[local] Hint Resolve store_free_ret store_free_throw store_free_stuck
  store_free_lift_option store_free_contents_Direct : reads.

Ltac store_free_tac :=
  repeat first
    [ solve [auto with reads]
    | apply store_free_bind; [|intros]
    | match goal with
      | |- store_free (match ?x with _ => _ end) => destruct x
      | |- store_free (if ?b then _ else _) => destruct b
      end ].

Lemma store_free_mustBeAssignable m v :
  store_free (reflect.mustBeAssignable m v).
Proof. unfold reflect.mustBeAssignable. store_free_tac. Qed.

Lemma store_free_mustBeExported m v :
  store_free (reflect.mustBeExported m v).
Proof. unfold reflect.mustBeExported. store_free_tac. Qed.

Lemma store_free_Value_IsNil T x fl :
  store_free
    (reflect.Value_IsNil (reflect.MkValue T (reflect.Direct x) fl)).
Proof. unfold reflect.Value_IsNil. store_free_tac. Qed.

Lemma store_free_valueInterface T x fl safe :
  store_free
    (reflect.valueInterface (reflect.MkValue T (reflect.Direct x) fl) safe).
Proof. unfold reflect.valueInterface. store_free_tac. Qed.
#[local] Hint Resolve store_free_Value_IsNil store_free_valueInterface : reads.

(** Assigning a value that was passed in, not one read from the store,
    gives the same in every store. *)
Lemma store_free_assignTo val context dst :
  store_free (reflect.assignTo (reflect.ValueOf val) context dst).
Proof.
  destruct val as [[T x]|]; simpl reflect.ValueOf;
    unfold reflect.assignTo; store_free_tac.
Qed.

Lemma Value_Set_twice v val st u st' :
  reflect.Value_Set v (reflect.ValueOf val) st = reflect.Ret u st' ->
  reflect.Value_Set v (reflect.ValueOf val) st' = reflect.Ret u st'.
Proof.
  unfold reflect.Value_Set, reflect.bind. intros H.
  destruct (reflect.mustBeAssignable _ v st) as [u1 s1| |] eqn:E1;
    try discriminate.
  pose proof (reads_only_mustBeAssignable _ _ _ _ _ E1) as ->.
  rewrite (store_free_mustBeAssignable _ _ _ _ _ E1 st').
  destruct (reflect.mustBeExported _ _ st) as [u2 s2| |] eqn:E2;
    try discriminate.
  pose proof (reads_only_mustBeExported _ _ _ _ _ E2) as ->.
  rewrite (store_free_mustBeExported _ _ _ _ _ E2 st').
  destruct v as [|t d fl]; [discriminate|].
  destruct (reflect.assignTo _ _ t st) as [w s3| |] eqn:E3; try discriminate.
  pose proof (reads_only_assignTo _ _ _ _ _ _ E3) as ->.
  rewrite (store_free_assignTo _ _ _ _ _ _ E3 st').
  destruct (write_inv _ _ _ _ _ H) as (a & -> & Hs).
  destruct u. apply write_store. eapply store_at_twice. exact Hs.
Qed.

Lemma checkForSet_plain f v val :
  plain val = true ->
  exists r, forall st, checkForSet f v val st = reflect.Ret r st
            /\ (snd r = None -> fst r = reflect.ValueOf val).
Proof.
  intros Hp. unfold checkForSet.
  destruct (negb (IsExported f)).
  { eexists. intros st. split; [reflexivity|discriminate]. }
  destruct (negb (reflect.Value_CanSet v)).
  { eexists. intros st. split; [reflexivity|discriminate]. }
  assert (Hk : reflect.Kind_eqb (reflect.Value_Kind (reflect.ValueOf val))
                 reflect.Ptr = false).
  { destruct val as [[t x]|]; simpl in *; [|reflexivity].
    destruct (reflect.Kind_eqb (reflect.Type_Kind t) reflect.Ptr);
      [discriminate|reflexivity]. }
  rewrite Hk. eexists. intros st. split; [reflexivity|reflexivity].
Qed.

(** X9.  [Set] is idempotent: on a field that is not a pointer, with a
    value that is nil or not a pointer, a second [Set] of the same value
    returns what the first returned and leaves the store as the first left
    it. *)
Theorem Set_twice f st val r st'
    (Hptr : Kind f <> reflect.Ptr)
    (Hplain : plain val = true)
    (Hfirst : Set_ f val st = reflect.Ret r st') :
  Set_ f val st' = reflect.Ret r st'.
Proof.
  destruct (checkForSet_plain f (value f) val Hplain) as [r0 Hc].
  unfold Set_, reflect.bind in *.
  rewrite (Indirect_not_pointer (value f) st Hptr) in Hfirst.
  rewrite (Indirect_not_pointer (value f) st' Hptr).
  destruct (Hc st) as [Hc1 Hg]. destruct (Hc st') as [Hc2 _].
  rewrite Hc1 in Hfirst. rewrite Hc2.
  destruct (snd r0) as [err|].
  { unfold reflect.ret in *. injection Hfirst as <- <-. reflexivity. }
  rewrite (Hg eq_refl) in *.
  destruct (negb _).
  { unfold reflect.ret in *. injection Hfirst as <- <-. reflexivity. }
  destruct (reflect.Value_Set (value f) (reflect.ValueOf val) st)
    as [u s1| |] eqn:E; try discriminate.
  unfold reflect.ret in Hfirst. injection Hfirst as <- <-.
  rewrite (Value_Set_twice _ _ _ _ _ E). reflexivity.
Qed.

Lemma Set_twice_witness :
  let val := Some (Sample.int8, reflect.VInt 1) in
  let st' := <[0%nat := reflect.VStruct
                 [reflect.VInt 1; reflect.VUint 9;
                  reflect.VFloat reflect.float_zero; reflect.VPtr None;
                  reflect.VString "x"; reflect.VStruct [reflect.VInt 5]]]>
               Sample.st0 in
  Set_ Sample.fTiny val Sample.st0 = reflect.Ret None st'
  /\ Set_ Sample.fTiny val st' = reflect.Ret None st'.
Proof.
  split; [reflexivity|].
  apply (Set_twice Sample.fTiny Sample.st0);
    [vm_compute; discriminate | reflexivity | reflexivity].
Defined.

(** ** Nested accessors *)

(** X10.  On an accessor that is not exported, [FieldOk] and [Field]
    panic for every name, found or not: both begin by boxing the value
    with [reflect.Value.Interface]. *)
Theorem FieldOk_not_exported f st
    (Hwf : Field_wf f st = true)
    (Hunexp : IsExported f = false) :
  exists p, forall name,
    FieldOk f name st = reflect.Panic p
    /\ Field_ f name st = reflect.Panic p.
Proof.
  destruct (Field_wf_inv _ _ Hwf) as (t & d & fl & x & Hv & Hc & Ht & Hro).
  rewrite Hunexp in Hro. simpl in Hro.
  eexists. intros name.
  assert (H : FieldOk f name st = reflect.Panic
                (reflect.PanicString
                   "reflect.Value.Interface: cannot return value obtained from unexported field or method")).
  { unfold FieldOk, reflect.bind, reflect.Value_Interface,
      reflect.valueInterface. rewrite Hv, Hro. reflexivity. }
  split; [exact H|]. unfold Field_, reflect.bind. rewrite H. reflexivity.
Qed.

Lemma FieldOk_not_exported_witness :
  Field_wf Example.fEnabled Example.st0 = true
  /\ IsExported Example.fEnabled = false
  /\ exists p, forall name,
       FieldOk Example.fEnabled name Example.st0 = reflect.Panic p
       /\ Field_ Example.fEnabled name Example.st0 = reflect.Panic p.
Proof.
  split; [reflexivity|]. split; [reflexivity|].
  apply (FieldOk_not_exported Example.fEnabled Example.st0); reflexivity.
Defined.

(** X11.  Take an accessor whose handle is not read-only and whose value
    is a struct of type [t], and a non-empty name that [t] declares.  The
    accessor [FieldOk] returns reports the first field of [t] declared
    with that name: [Name] is the name looked up, [Kind] the kind of the
    field's type, [IsExported] and [IsEmbedded] its export and anonymous
    flags, and [Tag] hands its tag string to the decoder. *)
Theorem FieldOk_reports_declaration tag f st t name
    (Hstored : Field_stored f st = true)
    (Hreadable : reflect.Value_ro (value f) = false)
    (Htype : reflect.Value_Type (value f) st = reflect.Ret t st)
    (Hkind : Kind f = reflect.Struct)
    (Hname : name <> "")
    (Hdecl : In name (declared_names t)) :
  exists g i fd,
    FieldOk f name st = reflect.Ret (Some g, true) st
    /\ reflect.Type_fields t !! i = Some fd
    /\ reflect.sf_name fd = name
    /\ (forall j fd', (j < i)%nat -> reflect.Type_fields t !! j = Some fd' ->
          reflect.sf_name fd' <> name)
    /\ Name g = name
    /\ Kind g = reflect.Type_Kind (reflect.sf_typ fd)
    /\ IsExported g = reflect.sf_exported fd
    /\ IsEmbedded g = reflect.sf_embedded fd
    /\ forall key, Tag tag g key = tag (reflect.sf_tag fd) key.
Proof.
  destruct (FieldOk_declared f st t name Hstored Hreadable Htype Hkind
              Hname Hdecl)
    as (i & fd & xs & w & _ & Hl & Hn & Hleast & _ & _ & Hok).
  eexists _, i, fd. split; [exact Hok|]. split; [exact Hl|].
  split; [exact Hn|]. split; [exact Hleast|]. split; [exact Hn|].
  repeat split.
Qed.

Lemma FieldOk_reports_declaration_witness :
  Field_stored Example.fInner Example.st0 = true
  /\ reflect.Value_ro (value Example.fInner) = false
  /\ exists g i fd,
       FieldOk Example.fInner "Size" Example.st0
       = reflect.Ret (Some g, true) Example.st0
       /\ reflect.Type_fields Example.Group !! i = Some fd
       /\ reflect.sf_name fd = "Size"
       /\ (forall j fd', (j < i)%nat ->
             reflect.Type_fields Example.Group !! j = Some fd' ->
             reflect.sf_name fd' <> "Size")
       /\ Name g = "Size"
       /\ Kind g = reflect.Type_Kind (reflect.sf_typ fd)
       /\ IsExported g = reflect.sf_exported fd
       /\ IsEmbedded g = reflect.sf_embedded fd
       /\ forall key, Tag Example.no_tags g key
                      = Example.no_tags (reflect.sf_tag fd) key.
Proof.
  split; [reflexivity|]. split; [reflexivity|].
  apply (FieldOk_reports_declaration Example.no_tags Example.fInner
           Example.st0 Example.Group "Size");
    try reflexivity; [discriminate | right; left; reflexivity].
Defined.

(** X12.  Nested reading composes: when [Value()] returns the struct
    [xs] and the struct declares [name] as its field [i], exported and not
    of interface type, [Value()] on the accessor [FieldOk(name)] returns
    field [i] of [xs]. *)
Theorem FieldOk_Value f st t name
    (Hwf : Field_wf f st = true)
    (Hexp : IsExported f = true)
    (Htype : reflect.Value_Type (value f) st = reflect.Ret t st)
    (Hkind : Kind f = reflect.Struct)
    (Hname : name <> "")
    (Hdecl : In name (declared_names t)) :
  exists g i fd xs w,
    FieldOk f name st = reflect.Ret (Some g, true) st
    /\ Value f st = reflect.Ret (Some (t, reflect.VStruct xs)) st
    /\ reflect.Type_fields t !! i = Some fd
    /\ reflect.sf_name fd = name
    /\ xs !! i = Some w
    /\ (reflect.sf_exported fd = true ->
        reflect.Type_Kind (reflect.sf_typ fd) <> reflect.Interface ->
        Value g st = reflect.Ret (Some (reflect.sf_typ fd, w)) st).
Proof.
  destruct (FieldOk_declared f st t name (Field_wf_stored _ _ Hwf)
              (Field_wf_readable _ _ Hwf Hexp) Htype Hkind Hname Hdecl)
    as (i & fd & xs & w & HV & Hl & Hn & _ & Hw & _ & Hok).
  eexists _, i, fd, xs, w. split; [exact Hok|].
  split; [exact HV|]. split; [exact Hl|]. split; [exact Hn|].
  split; [exact Hw|]. intros He Hk.
  unfold Value. cbn [value].
  apply Value_Interface_concrete; auto.
  rewrite fieldFlag_ro, He. reflexivity.
Qed.

Lemma FieldOk_Value_witness :
  Field_wf Example.fInner Example.st0 = true
  /\ IsExported Example.fInner = true
  /\ exists g i fd xs w,
       FieldOk Example.fInner "Size" Example.st0
       = reflect.Ret (Some g, true) Example.st0
       /\ Value Example.fInner Example.st0
          = reflect.Ret (Some (Example.Group, reflect.VStruct xs)) Example.st0
       /\ reflect.Type_fields Example.Group !! i = Some fd
       /\ reflect.sf_name fd = "Size"
       /\ xs !! i = Some w
       /\ (reflect.sf_exported fd = true ->
           reflect.Type_Kind (reflect.sf_typ fd) <> reflect.Interface ->
           Value g Example.st0
           = reflect.Ret (Some (reflect.sf_typ fd, w)) Example.st0).
Proof.
  split; [reflexivity|]. split; [reflexivity|].
  apply (FieldOk_Value Example.fInner Example.st0 Example.Group "Size");
    try reflexivity; [discriminate | right; left; reflexivity].
Defined.

(** X13.  [FieldOk] works on a copy: the accessor it returns for a
    declared, exported field that is not a pointer cannot be set.  [Set],
    [SetInt], [SetFloat] and [SetUint] on it return [errNotSettable] and
    the store, the parent struct with it, stays as it was. *)
Theorem FieldOk_accessor_not_settable f st t name
    (Hwf : Field_wf f st = true)
    (Hexp : IsExported f = true)
    (Htype : reflect.Value_Type (value f) st = reflect.Ret t st)
    (Hkind : Kind f = reflect.Struct)
    (Hname : name <> "")
    (Hdecl : In name (declared_names t)) :
  exists g,
    FieldOk f name st = reflect.Ret (Some g, true) st
    /\ (IsExported g = true -> Kind g <> reflect.Ptr ->
        (forall val, Set_ g val st = reflect.Ret (Some errNotSettable) st)
        /\ (forall z, SetInt g z st = reflect.Ret (Some errNotSettable) st)
        /\ (forall x, SetFloat g x st = reflect.Ret (Some errNotSettable) st)
        /\ (forall z, SetUint g z st = reflect.Ret (Some errNotSettable) st)).
Proof.
  destruct (FieldOk_declared f st t name (Field_wf_stored _ _ Hwf)
              (Field_wf_readable _ _ Hwf Hexp) Htype Hkind Hname Hdecl)
    as (i & fd & xs & w & _ & _ & _ & _ & _ & _ & Hok).
  eexists. split; [exact Hok|]. intros He Hp.
  set (g := mkField _ _) in *.
  assert (Hi : forall s, reflect.Indirect (value g) s
                         = reflect.Ret (value g) s).
  { intros s. apply Indirect_not_pointer. exact Hp. }
  assert (Hc : forall val,
             checkForSet g (value g) val st
             = reflect.Ret (reflect.Value0, Some errNotSettable) st).
  { intros. unfold checkForSet. rewrite He. reflexivity. }
  repeat split; intros;
    unfold Set_, SetInt, SetFloat, SetUint, reflect.bind;
    rewrite Hi, Hc; reflexivity.
Qed.

Lemma FieldOk_accessor_not_settable_witness :
  Field_wf Example.fInner Example.st0 = true
  /\ IsExported Example.fInner = true
  /\ settable Example.fInner Example.st0 = true
  /\ exists g,
       FieldOk Example.fInner "Size" Example.st0
       = reflect.Ret (Some g, true) Example.st0
       /\ (IsExported g = true -> Kind g <> reflect.Ptr ->
           (forall val, Set_ g val Example.st0
                        = reflect.Ret (Some errNotSettable) Example.st0)
           /\ (forall z, SetInt g z Example.st0
                         = reflect.Ret (Some errNotSettable) Example.st0)
           /\ (forall x, SetFloat g x Example.st0
                         = reflect.Ret (Some errNotSettable) Example.st0)
           /\ (forall z, SetUint g z Example.st0
                         = reflect.Ret (Some errNotSettable) Example.st0)).
Proof.
  split; [reflexivity|]. split; [reflexivity|]. split; [reflexivity|].
  apply (FieldOk_accessor_not_settable Example.fInner Example.st0
           Example.Group "Size");
    try reflexivity; [discriminate | right; left; reflexivity].
Defined.

(** ** [IsZero] after [Set], and on pointers *)

(** X14.  On an exported, settable field that is neither pointer nor
    interface, of type [T], after [Set(b)] with a well-typed [b] of type
    [T], [IsZero()] returns [true] exactly when [b] is deeply equal to the
    zero value of [T]. *)
Theorem Set_then_IsZero f st T a0 bv
    (Hexp : IsExported f = true)
    (Hset : settable f st = true)
    (Hptr : Kind f <> reflect.Ptr)
    (Hifc : Kind f <> reflect.Interface)
    (Hinit : Value f st = reflect.Ret (Some (T, a0)) st)
    (Htyped : reflect.has_type T bv = true) :
  exists st' z,
    Set_ f (Some (T, bv)) st = reflect.Ret None st'
    /\ (forall fuel, (reflect.type_depth T < fuel)%nat ->
          IsZero fuel f st' = reflect.Ret z st')
    /\ (z = true <-> deep_eq st' bv (reflect.zero_val T)).
Proof.
  destruct (settable_place _ _ _ _ Hset Hptr Hifc Hinit)
    as (a & fl & Hv & Hro & Hl).
  unfold Kind in *. rewrite Hv in *. simpl in Hptr, Hifc.
  destruct (store_at_total st a bv _ Hl) as [st' Hst].
  assert (HV : Value f st' = reflect.Ret (Some (T, bv)) st').
  { eapply Value_after_store; eauto. eapply load_store_at; eauto. }
  assert (HT : reflect.Value_Type (value f) st' = reflect.Ret T st')
    by (rewrite Hv; reflexivity).
  destruct (deepValueEqual_zero st' (S (reflect.type_depth T)) T
              (reflect.Direct bv) reflect.flag0 reflect.flag0 bv
              ltac:(lia) eq_refl Htyped) as (z & _ & Hiff).
  exists st', z. split; [|split; [|exact Hiff]].
  - rewrite (Set_same_kind f st T T a fl bv) by auto.
    unfold reflect.bind.
    rewrite (Value_Set_same_type _ _ _ _ _ _ Hro Hst). reflexivity.
  - intros fuel Hfuel. rewrite (IsZero_unfold _ _ _ _ _ HT HV).
    unfold zero_any. rewrite (Kind_eqb_neq _ _ Hifc).
    unfold reflect.DeepEqual. rewrite type_eqb_refl.
    cbn [negb reflect.ValueOf].
    destruct (deepValueEqual_zero st' fuel T
                (reflect.Direct bv) reflect.flag0 reflect.flag0 bv
                Hfuel eq_refl Htyped) as (z' & Hz' & Hiff').
    rewrite Hz'. f_equal.
    destruct z, z'; try reflexivity; exfalso.
    + assert (false = true) by (apply Hiff', Hiff; reflexivity).
      discriminate.
    + assert (false = true) by (apply Hiff, Hiff'; reflexivity).
      discriminate.
Qed.

Lemma Set_then_IsZero_witness :
  IsExported Sample.fTiny = true
  /\ settable Sample.fTiny Sample.st0 = true
  /\ IsZero 1 Sample.fTiny Sample.st0 = reflect.Ret false Sample.st0
  /\ exists st' z,
       Set_ Sample.fTiny (Some (Sample.int8, reflect.VInt 0)) Sample.st0
       = reflect.Ret None st'
       /\ (forall fuel, (reflect.type_depth Sample.int8 < fuel)%nat ->
             IsZero fuel Sample.fTiny st' = reflect.Ret z st')
       /\ (z = true
           <-> deep_eq st' (reflect.VInt 0) (reflect.zero_val Sample.int8)).
Proof.
  split; [reflexivity|]. split; [reflexivity|]. split; [reflexivity|].
  apply (Set_then_IsZero Sample.fTiny Sample.st0 Sample.int8
           (reflect.VInt 7) (reflect.VInt 0));
    try reflexivity; vm_compute; discriminate.
Defined.

(** X15.  On a pointer field whose storage is well typed and whose handle
    is not read-only, [IsZero()] is [true] exactly when the pointer
    [Value()] returns is nil: a pointer to a zero value is not zero. *)
Theorem IsZero_pointer_field f st
    (Hstored : Field_stored f st = true)
    (Hreadable : reflect.Value_ro (value f) = false)
    (Hkind : Kind f = reflect.Ptr) :
  exists t p z,
    Value f st = reflect.Ret (Some (t, reflect.VPtr p)) st
    /\ (forall fuel, (reflect.type_depth t < fuel)%nat ->
          IsZero fuel f st = reflect.Ret z st)
    /\ (z = true <-> p = None).
Proof.
  destruct (IsZero_readable f st Hstored Hreadable)
    as (t & current & z & HT & HV & Hz & Hiff).
  destruct (Field_stored_inv _ _ Hstored)
    as (t' & d & fl & x & Hv & Hc & Ht).
  pose proof Hreadable as Hro. rewrite Hv in Hro. simpl in Hro.
  rewrite Hv in HT. simpl in HT. unfold reflect.ret in HT.
  injection HT as ->.
  unfold Kind in Hkind. rewrite Hv in Hkind. simpl in Hkind.
  destruct (has_type_Ptr _ _ Hkind Ht) as [p ->].
  assert (Hni : reflect.Type_Kind t <> reflect.Interface)
    by (rewrite Hkind; discriminate).
  assert (HV' : Value f st = reflect.Ret (Some (t, reflect.VPtr p)) st).
  { unfold Value. rewrite Hv. apply Value_Interface_concrete; auto. }
  rewrite HV' in HV. injection HV as <-.
  exists t, p, z. split; [exact HV'|]. split; [exact Hz|].
  rewrite Hiff. unfold zero_any. rewrite (Kind_eqb_neq _ _ Hni). simpl.
  destruct (Type_Kind_Ptr _ Hkind) as [e He].
  rewrite (zero_val_underlying t), He. simpl.
  split.
  - intros [_ H]. inversion H; reflexivity.
  - intros ->. split; [reflexivity|constructor].
Qed.

Lemma IsZero_pointer_field_witness :
  (Field_stored Example.fCount Example.st0 = true
   /\ reflect.Value_ro (value Example.fCount) = false
   /\ Kind Example.fCount = reflect.Ptr
   /\ exists t p z,
        Value Example.fCount Example.st0
        = reflect.Ret (Some (t, reflect.VPtr p)) Example.st0
        /\ (forall fuel, (reflect.type_depth t < fuel)%nat ->
              IsZero fuel Example.fCount Example.st0
              = reflect.Ret z Example.st0)
        /\ (z = true <-> p = None))
  /\ IsZero 2 Sample.fNext Sample.st0 = reflect.Ret true Sample.st0
  /\ IsZero 2 Example.fCount Example.st0 = reflect.Ret false Example.st0.
Proof.
  split; [|split; reflexivity].
  split; [reflexivity|]. split; [reflexivity|]. split; [reflexivity|].
  apply (IsZero_pointer_field Example.fCount Example.st0); reflexivity.
Defined.

(** ** [Set] on a pointer field *)

(** X16.  On an exported pointer field on which [Value()] returns a
    non-nil pointer, [Set] writes through the pointer: with [b] of the
    pointee's type, which is neither a pointer type nor an interface type,
    [Set(b)] returns no error and the storage the field points to then
    holds [b]. *)
Theorem Set_writes_pointee f st t E a a0 bv
    (Hexp : IsExported f = true)
    (Hkind : Kind f = reflect.Ptr)
    (Hheld : Value f st = reflect.Ret (Some (t, reflect.VPtr (Some a))) st)
    (Helem : reflect.Type_Elem t = Some E)
    (Hplain : reflect.Type_Kind E <> reflect.Ptr)
    (Hconcrete : reflect.Type_Kind E <> reflect.Interface)
    (Hpointee : reflect.load st a = Some a0) :
  exists st',
    Set_ f (Some (E, bv)) st = reflect.Ret None st'
    /\ reflect.load st' a = Some bv.
Proof.
  pose proof (Type_Elem_Kind _ _ Helem) as Hk.
  assert (Hni : Kind f <> reflect.Interface)
    by (rewrite Hkind; discriminate).
  destruct (Value_inv _ _ _ _ Hni Hheld) as (d & fl & Hv & Hro & Hc).
  destruct (Type_Kind_Ptr _ Hk) as [e He].
  assert (e = E) as ->.
  { unfold reflect.Type_Elem in Helem. rewrite He in Helem. congruence. }
  destruct (store_at_total st a bv _ Hpointee) as [st' Hst].
  exists st'. split; [|eapply load_store_at; eauto].
  unfold Set_. unfold reflect.bind at 1 2. rewrite Hv.
  unfold reflect.Indirect. cbn [reflect.Value_Kind]. rewrite Hk.
  cbn [reflect.Kind_eqb negb].
  rewrite (Value_Elem_pointer _ _ _ _ _ _ He Hc).
  rewrite checkForSet_value
    by (try apply flagRO_CanSet; assumption).
  cbn [snd fst reflect.Value_Kind]. rewrite Kind_eqb_refl.
  cbn [negb]. unfold reflect.bind.
  rewrite (Value_Set_same_type _ _ _ _ _ _ Hro Hst). reflexivity.
Qed.

Lemma Set_writes_pointee_witness :
  IsExported Example.fCount = true
  /\ Kind Example.fCount = reflect.Ptr
  /\ Value Example.fCount Example.st0
     = reflect.Ret (Some (reflect.TPtr Example.int,
                          reflect.VPtr (Some (1%nat, [])))) Example.st0
  /\ reflect.load Example.st0 (1%nat, []) = Some (reflect.VInt 41)
  /\ exists st',
       Set_ Example.fCount (Some (Example.int, reflect.VInt 8080)) Example.st0
       = reflect.Ret None st'
       /\ reflect.load st' (1%nat, []) = Some (reflect.VInt 8080).
Proof.
  split; [reflexivity|]. split; [reflexivity|]. split; [reflexivity|].
  split; [reflexivity|].
  apply (Set_writes_pointee Example.fCount Example.st0
           (reflect.TPtr Example.int) Example.int (1%nat, [])
           (reflect.VInt 41) (reflect.VInt 8080));
    try reflexivity; vm_compute; discriminate.
Defined.
